(** * Arenna DVR viewer: capture actors, stream registry, compositors, encoder

    A shallow embedding of [src/main.py].  Python integers are [Z]; clock
    readings and durations (Python floats holding seconds) are exact
    rationals [Q], while the float arithmetic of [_resize_h] is rounded to
    binary64; dictionaries keyed by channel number are [gmap Z _], with
    the insertion order of [STATE.threads] kept beside it; exceptions are
    the [Raise] branch of [result].  The numpy / OpenCV calls the program
    makes are kept as the constructors of [Image], with the shape rules
    and the failure conditions of the library written out. *)

From Stdlib Require Import ZArith QArith Qminmax Qround Lia Lqa Ascii.
From stdpp Require Import gmap strings list fin_maps pretty sorting.

Open Scope Z_scope.

(** ** Exceptions and fallible computations *)

Inductive Exn : Type :=
| TypeError
| ValueError
| ZeroDivisionError
| OverflowError
| CvError.

Inductive result (A : Type) : Type :=
| Ok (a : A)
| Raise (e : Exn).
Arguments Ok {A} a.
Arguments Raise {A} e.

Definition rbind {A B : Type} (m : result A) (k : A -> result B) : result B :=
  match m with
  | Ok a => k a
  | Raise e => Raise e
  end.

Declare Scope result_scope.
Delimit Scope result_scope with result.
Notation "x <~ m ;; k" := (rbind m (fun x => k))
  (at level 100, m at next level, right associativity) : result_scope.
Open Scope result_scope.

(** Left-to-right loop whose body may raise: [for b in l: acc = f(acc, b)]. *)
Fixpoint foldM {A B : Type} (f : A -> B -> result A) (l : list B) (a : A)
  : result A :=
  match l with
  | [] => Ok a
  | b :: l' => a' <~ f a b ;; foldM f l' a'
  end.

(** List comprehension whose element expression may raise. *)
Fixpoint mapM {A B : Type} (f : A -> result B) (l : list A) : result (list B) :=
  match l with
  | [] => Ok []
  | a :: l' => b <~ f a ;; bs <~ mapM f l' ;; Ok (b :: bs)
  end.

(** [enumerate(l)], counting from [k]. *)
Fixpoint enumerate_from {A : Type} (k : Z) (l : list A) : list (Z * A) :=
  match l with
  | [] => []
  | a :: l' => (k, a) :: enumerate_from (k + 1) l'
  end.

Definition enumerate {A : Type} (l : list A) : list (Z * A) := enumerate_from 0 l.

(** [len(l)] as a Python integer. *)
Definition len {A : Type} (l : list A) : Z := Z.of_nat (length l).

(** ** Images

    A BGR [uint8] array of shape [(rows, cols, 3)], recorded as the
    sequence of library calls that built it.  [Decoded] is a frame that
    came from outside the program (a decoded camera frame), identified by
    [src].  In-place operations ([cv2.putText], slice assignment) wrap the
    image they mutate. *)

Inductive Image : Type :=
| Decoded (src : N) (h w : N)
| Zeros (h w : N)
| PutText (img : Image) (text : string) (org : Z * Z) (scale : Q)
          (color : Z * Z * Z) (thickness : Z)
| Resized (img : Image) (w h : N)
| SetSlice (canvas : Image) (y1 y2 x1 x2 : Z) (src : Image).

(** [img.shape[:2]] *)
Fixpoint shape (img : Image) : Z * Z :=
  match img with
  | Decoded _ h w => (Z.of_N h, Z.of_N w)
  | Zeros h w => (Z.of_N h, Z.of_N w)
  | PutText img' _ _ _ _ _ => shape img'
  | Resized _ w h => (Z.of_N h, Z.of_N w)
  | SetSlice canvas _ _ _ _ _ => shape canvas
  end.

Definition rows_of (img : Image) : Z := fst (shape img).
Definition cols_of (img : Image) : Z := snd (shape img).

(** What a canvas position shows: black (from [np.zeros]) or position
    [(y, x)] of an image the program did not compose itself. *)
Inductive Pixel : Type :=
| Black
| PxOf (img : Image) (y x : Z).

Definition in_range (lo hi v : Z) : bool := (lo <=? v) && (v <? hi).

Fixpoint pixel_at (img : Image) (y x : Z) : Pixel :=
  match img with
  | Zeros _ _ => Black
  | SetSlice canvas y1 y2 x1 x2 src =>
      if in_range y1 y2 y && in_range x1 x2 x
      then pixel_at src (if rows_of src =? 1 then 0 else y - y1)
                        (if cols_of src =? 1 then 0 else x - x1)
      else pixel_at canvas y x
  | _ => PxOf img y x
  end.

(** [np.zeros((h, w, 3), np.uint8)]: negative dimensions are refused. *)
Definition np_zeros (h w : Z) : result Image :=
  if (h <? 0) || (w <? 0) then Raise ValueError
  else Ok (Zeros (Z.to_N h) (Z.to_N w)).

(** [cv2.resize(img, (w, h), interpolation=cv2.INTER_AREA)]: an empty
    source or an empty target size fails OpenCV's assertions. *)
Definition cv_resize (img : Image) (w h : Z) : result Image :=
  if (rows_of img <=? 0) || (cols_of img <=? 0) || (w <=? 0) || (h <=? 0)
  then Raise CvError
  else Ok (Resized img (Z.to_N w) (Z.to_N h)).

(** [cv2.putText(img, text, org, FONT_HERSHEY_SIMPLEX, scale, color,
    thickness, LINE_AA)] draws in place. *)
Definition cv_putText (img : Image) (text : string) (org : Z * Z) (scale : Q)
  (color : Z * Z * Z) (thickness : Z) : Image :=
  PutText img text org scale color thickness.

(** A slice bound [i] on an axis of length [n], as Python normalises it. *)
Definition slice_bound (i n : Z) : Z :=
  if i <? 0 then Z.max 0 (i + n) else Z.min i n.

(** numpy broadcasting of one source axis onto one target axis. *)
Definition broadcasts (s r : Z) : bool := (s =? r) || (s =? 1).

(** [canvas[y1:y2, x1:x2] = src] *)
Definition set_slice (canvas : Image) (y1 y2 x1 x2 : Z) (src : Image)
  : result Image :=
  let a1 := slice_bound y1 (rows_of canvas) in
  let a2 := slice_bound y2 (rows_of canvas) in
  let b1 := slice_bound x1 (cols_of canvas) in
  let b2 := slice_bound x2 (cols_of canvas) in
  let rh := Z.max 0 (a2 - a1) in
  let rw := Z.max 0 (b2 - b1) in
  if broadcasts (rows_of src) rh && broadcasts (cols_of src) rw
  then Ok (SetSlice canvas a1 (a1 + rh) b1 (b1 + rw) src)
  else Raise ValueError.

(** ** Frame accessors

    A zero-argument callable returning the current frame or [None]. *)
Definition getter : Type := unit -> option Image.

(** [max(...)] over a non-empty sequence and [sum(...)]. *)
Definition py_max (l : list Z) : Z :=
  match l with
  | [] => 0
  | z :: l' => fold_left Z.max l' z
  end.

Definition py_sum (l : list Z) : Z := fold_left Z.add l 0.

(** [int(x)] of a float: truncation towards zero. *)
Definition Qtrunc (q : Q) : Z := Z.quot (Qnum q) (Zpos (Qden q)).

(** Division of [num] by [den > 0] rounded to the nearest integer, ties to
    the even one. *)
Definition round_half_even (num den : Z) : Z :=
  let q := num / den in
  let r := num mod den in
  if 2 * r <? den then q
  else if den <? 2 * r then q + 1
  else if Z.even q then q else q + 1.

(** The binary64 value next to a rational, as float arithmetic delivers
    it: round to nearest, ties to even, on 53 significant bits above
    2^-1022 and in steps of 2^-1074 below; a result of 2^1024 or more is
    an overflow. *)
Definition float_magnitude (n : Z) (d : positive) : Z * Z :=
  let k := Z.log2 n - Z.log2 (Zpos d) in
  let e0 := if n * 2 ^ Z.max 0 (- k) <? Zpos d * 2 ^ Z.max 0 k then k - 1 else k in
  let e := Z.max (e0 - 52) (-1074) in
  (round_half_even (n * 2 ^ Z.max 0 (- e)) (Zpos d * 2 ^ Z.max 0 e), e).

Definition float_of (q : Q) : option Q :=
  if Qnum q =? 0 then Some 0%Q
  else
    let '(m, e) := float_magnitude (Z.abs (Qnum q)) (Qden q) in
    if 2 ^ (1024 + Z.max 0 (- e)) <=? m * 2 ^ Z.max 0 e then None
    else Some (Qmake (Z.sgn (Qnum q) * m * 2 ^ Z.max 0 e) (Z.to_pos (2 ^ Z.max 0 (- e)))).

(** Float operations of the program: the true division of two integers,
    the conversion of an integer, and the product of two floats.  Python
    raises [OverflowError] when the division or the conversion leaves the
    range; a product that leaves it is infinite and raises when [int]
    reads it, which every use here does next. *)
Definition float_op (q : Q) : result Q :=
  match float_of q with
  | Some x => Ok x
  | None => Raise OverflowError
  end.

(** [math.ceil(n / d)] *)
Definition ceil_div (n d : Z) : result Z :=
  if d =? 0 then Raise ZeroDivisionError else Ok (- ((- n) / d)).

(** ** Compositor *)

(** One turn of the paste loop of [mosaic_getter_row]. *)
Definition row_paste (acc : Image * Z) (f : Image) : result (Image * Z) :=
  let '(canvas, x) := acc in
  let '(hh, ww) := shape f in
  canvas' <~ set_slice canvas 0 hh x (x + ww) f ;;
  Ok (canvas', x + ww).

Definition mosaic_getter_row (getters : list getter) : unit -> result (option Image) :=
  fun _ =>
    let frames := map (fun g : getter => g tt) getters in
    let frames := omap id frames in
    match frames with
    | [] => Ok None
    | _ =>
        let h := py_max (map rows_of frames) in
        let w := py_sum (map cols_of frames) in
        canvas <~ np_zeros h w ;;
        acc <~ foldM row_paste frames (canvas, 0) ;;
        Ok (Some (fst acc))
    end.

(** The cell width of the grid: [int(cell_h * 16/9)], a true division
    followed by truncation towards zero.  The quotient is taken exactly;
    the float quotient has the same integer part for every height below
    2^49. *)
Definition grid_cell_w (cell_h : Z) : Z :=
  Qtrunc (inject_Z cell_h * 16 / 9).

(** One turn of the paste loop of [mosaic_getter_grid]. *)
Definition grid_paste (cols cell_h cell_w : Z) (canvas : Image) (e : Z * Image)
  : result Image :=
  let '(i, f) := e in
  let r := i / cols in
  let c := i mod cols in
  fr <~ cv_resize f cell_w cell_h ;;
  let '(y1, y2) := (r * cell_h, (r + 1) * cell_h) in
  let '(x1, x2) := (c * cell_w, (c + 1) * cell_w) in
  set_slice canvas y1 y2 x1 x2 fr.

(** The replacement of a missing frame by a blank cell. *)
Definition grid_fill (cell_h cell_w : Z) (f : option Image) : result Image :=
  match f with
  | Some f => Ok f
  | None => np_zeros cell_h cell_w
  end.

(** In the source [cols] defaults to 2 and [cell_h] to 360. *)
Definition mosaic_getter_grid (getters : list getter) (cols cell_h : Z)
  : unit -> result (option Image) :=
  let cell_w := grid_cell_w cell_h in
  fun _ =>
    let frames := map (fun g : getter => g tt) getters in
    frames <~ mapM (grid_fill cell_h cell_w) frames ;;
    match frames with
    | [] => Ok None
    | _ =>
        rows <~ ceil_div (len frames) cols ;;
        canvas <~ np_zeros (rows * cell_h) (cols * cell_w) ;;
        canvas <~ foldM (grid_paste cols cell_h cell_w) (enumerate frames) canvas ;;
        Ok (Some canvas)
    end.

(** ** Utilities *)

(** The values [start_streams] may receive as its [channels] argument:
    integers, text, [None], and lists, tuples and sets of such values.  A
    [PySet] lists its members in iteration order. *)
#[warnings="-register-all"]
Inductive PyVal : Type :=
| PyInt (z : Z)
| PyStr (s : string)
| PyNone
| PyList (l : list PyVal)
| PyTuple (l : list PyVal)
| PySet (l : list PyVal).

Definition is_space (a : ascii) : bool :=
  let n := Ascii.N_of_ascii a in
  ((9 <=? n) && (n <=? 13))%N || ((28 <=? n) && (n <=? 32))%N.

Definition digit_of (a : ascii) : option Z :=
  let n := Ascii.N_of_ascii a in
  if ((48 <=? n) && (n <=? 57))%N then Some (Z.of_N n - 48) else None.

Fixpoint lstrip (s : string) : string :=
  match s with
  | String a s' => if is_space a then lstrip s' else s
  | EmptyString => s
  end.

Definition strip (s : string) : string :=
  String.rev (lstrip (String.rev (lstrip s))).

(** Decimal digits, single underscores allowed between digits.  [acc] is
    [None] until the first digit; [us] tells that the previous character
    was an underscore. *)
Fixpoint parse_digits (s : string) (acc : option Z) (us : bool) : option Z :=
  match s with
  | EmptyString => if us then None else acc
  | String a s' =>
      match digit_of a with
      | Some d => parse_digits s' (Some (10 * default 0 acc + d)) false
      | None =>
          if (Ascii.N_of_ascii a =? 95)%N
          then match acc with
               | Some _ => if us then None else parse_digits s' acc true
               | None => None
               end
          else None
      end
  end.

(** The white space [int] skips around a number: the six characters of
    the C locale (tab, line feed, vertical tab, form feed, carriage return,
    space).  The separators 28 to 31, which [str.strip] removes, are not
    among them. *)
Definition is_c_space (a : ascii) : bool :=
  let n := Ascii.N_of_ascii a in
  ((9 <=? n) && (n <=? 13))%N || (n =? 32)%N.

Fixpoint skip_c_space (s : string) : string :=
  match s with
  | String a s' => if is_c_space a then skip_c_space s' else s
  | EmptyString => s
  end.

(** [int(s)] on ASCII text, base 10: white space around the number, an
    optional sign, then digits with single underscores between them, and
    nothing else.  A text holding a byte above 127 is refused here; for
    such a text [int] consults the Unicode database (digits and spaces of
    other scripts), which is outside this development. *)
Definition int_of_str (s : string) : option Z :=
  match String.rev (skip_c_space (String.rev (skip_c_space s))) with
  | String "-" s' => Z.opp <$> parse_digits s' None false
  | String "+" s' => parse_digits s' None false
  | s' => parse_digits s' None false
  end.

(** The builtin [int(x)]. *)
Definition py_int (x : PyVal) : result Z :=
  match x with
  | PyInt z => Ok z
  | PyStr s => match int_of_str s with Some z => Ok z | None => Raise ValueError end
  | _ => Raise TypeError
  end.

Definition _coerce_channels (chs : PyVal) : result (list Z) :=
  match chs with
  | PyInt z => Ok [z]
  | PyList l | PyTuple l | PySet l => mapM py_int l
  | _ => Raise TypeError
  end.

Definition hex_digit (n : N) : ascii :=
  Ascii.ascii_of_N (if (n <? 10)%N then 48 + n else 55 + n)%N.

Definition is_unreserved (a : ascii) : bool :=
  let n := Ascii.N_of_ascii a in
  (((65 <=? n) && (n <=? 90)) || ((97 <=? n) && (n <=? 122))
   || ((48 <=? n) && (n <=? 57))
   || (n =? 95) || (n =? 46) || (n =? 45) || (n =? 126))%N.

(** [urllib.parse.quote(s, safe="")] on the bytes of [s]. *)
Fixpoint quote (s : string) : string :=
  match s with
  | EmptyString => EmptyString
  | String a s' =>
      if is_unreserved a then String a (quote s')
      else let n := Ascii.N_of_ascii a in
           String "%" (String (hex_digit (n / 16)) (String (hex_digit (n mod 16)) (quote s')))
  end.

Definition make_rtsp_url (ip user password : string) (channel subtype : Z) : string :=
  let user_enc := quote user in
  let pwd_enc := quote password in
  "rtsp://" +:+ user_enc +:+ ":" +:+ pwd_enc +:+ "@" +:+ ip
    +:+ ":554/cam/realmonitor?channel=" +:+ pretty channel
    +:+ "&subtype=" +:+ pretty subtype.

(** ** Per-channel capture ([class CaptureThread]) *)

(** A [cv2.VideoCapture] object; [cap_opened] is its [isOpened()]. *)
Record VideoCapture : Type := { cap_url : string; cap_opened : bool }.

(** What the outside world answers to [cv2.VideoCapture(url, CAP_FFMPEG)]
    followed by [cap.set(...)]: an opened capture, a capture object that
    is not opened, or an exception. *)
Inductive OpenResult : Type := Connected | NotOpened | OpenRaised.

(** The [threading.Thread] life cycle. *)
Inductive ThreadStatus : Type := Created | Running | Finished.

(** What the outside world supplies to one turn of the read loop: the
    answer of [cap.read()], the clock at the cool-down test, the outcome
    of a reopen and the clock after it. *)
Record IterIO : Type := {
  io_read : bool * option Image;
  io_now : Q;
  io_open : OpenResult;
  io_now' : Q
}.

(** What a capture thread does, in order: the release of a capture object,
    an [_open] call with its outcome, the store of a frame, a sleep. *)
Inductive ActorEvent : Type :=
| ARelease (c : VideoCapture)
| AOpen (r : OpenResult)
| AStore (img : Image)
| ASleep (d : Q).


Module CaptureThread.

(** The attributes of the object, the local [last_try] of [run], the
    thread status, and the record of what the thread has done. *)
Record t : Type := {
  name : string;
  url : string;
  label : string;
  target_h : Z;
  ffmpeg_timeout_ms : Z;
  reconnect_delay_s : Q;
  frame : option Image;
  stop_flag : bool;
  cap : option VideoCapture;
  status : ThreadStatus;
  last_try : Q;
  events : list ActorEvent
}.

Definition set_frame (f : option Image) (self : t) : t :=
  {| name := name self; url := url self; label := label self;
     target_h := target_h self; ffmpeg_timeout_ms := ffmpeg_timeout_ms self;
     reconnect_delay_s := reconnect_delay_s self; frame := f;
     stop_flag := stop_flag self; cap := cap self; status := status self;
     last_try := last_try self; events := events self |}.

Definition set_stop_flag (b : bool) (self : t) : t :=
  {| name := name self; url := url self; label := label self;
     target_h := target_h self; ffmpeg_timeout_ms := ffmpeg_timeout_ms self;
     reconnect_delay_s := reconnect_delay_s self; frame := frame self;
     stop_flag := b; cap := cap self; status := status self;
     last_try := last_try self; events := events self |}.

Definition set_cap (c : option VideoCapture) (self : t) : t :=
  {| name := name self; url := url self; label := label self;
     target_h := target_h self; ffmpeg_timeout_ms := ffmpeg_timeout_ms self;
     reconnect_delay_s := reconnect_delay_s self; frame := frame self;
     stop_flag := stop_flag self; cap := c; status := status self;
     last_try := last_try self; events := events self |}.

Definition set_status (s : ThreadStatus) (self : t) : t :=
  {| name := name self; url := url self; label := label self;
     target_h := target_h self; ffmpeg_timeout_ms := ffmpeg_timeout_ms self;
     reconnect_delay_s := reconnect_delay_s self; frame := frame self;
     stop_flag := stop_flag self; cap := cap self; status := s;
     last_try := last_try self; events := events self |}.

Definition set_last_try (q : Q) (self : t) : t :=
  {| name := name self; url := url self; label := label self;
     target_h := target_h self; ffmpeg_timeout_ms := ffmpeg_timeout_ms self;
     reconnect_delay_s := reconnect_delay_s self; frame := frame self;
     stop_flag := stop_flag self; cap := cap self; status := status self;
     last_try := q; events := events self |}.

Definition emit (e : ActorEvent) (self : t) : t :=
  {| name := name self; url := url self; label := label self;
     target_h := target_h self; ffmpeg_timeout_ms := ffmpeg_timeout_ms self;
     reconnect_delay_s := reconnect_delay_s self; frame := frame self;
     stop_flag := stop_flag self; cap := cap self; status := status self;
     last_try := last_try self; events := events self ++ [e] |}.

(** The value [__init__] gives to [OPENCV_FFMPEG_CAPTURE_OPTIONS], if any. *)
Definition capture_options (tcp : bool) (timeout : Z) : option string :=
  let opts := if tcp then ["rtsp_transport;tcp"] else [] in
  let opts :=
    if timeout >? 0
    then opts ++ ["stimeout;" +:+ pretty timeout; "max_delay;" +:+ pretty timeout]
    else opts in
  match opts with
  | [] => None
  | o :: os => Some (fold_left (fun acc s => acc +:+ "|" +:+ s) os o)
  end.

(** [__init__] with its keyword arguments spelled out. *)
Definition init_with (name url label : string) (target_h : Z)
  (ffmpeg_timeout_ms : Z) (reconnect_delay_s : Q) : t :=
  {| name := name; url := url; label := label; target_h := target_h;
     ffmpeg_timeout_ms := ffmpeg_timeout_ms;
     reconnect_delay_s := reconnect_delay_s;
     frame := None; stop_flag := false; cap := None; status := Created;
     last_try := 0; events := [] |}.

(** [__init__] with the defaults [ffmpeg_timeout_ms=5_000_000] and
    [reconnect_delay_s=2.0]. *)
Definition init (name url label : string) (target_h : Z) : t :=
  init_with name url label target_h 5000000 2.

(** [cap.release()] *)
Definition release (c : VideoCapture) : VideoCapture :=
  {| cap_url := cap_url c; cap_opened := false |}.

(** [_open]: the previous capture is released, and the new one is kept
    unless creating it raised. *)
Definition _open (r : OpenResult) (self : t) : t :=
  let self :=
    match cap self with
    | Some c => emit (ARelease c) (set_cap (Some (release c)) self)
    | None => self
    end in
  let self :=
    match r with
    | Connected => set_cap (Some {| cap_url := url self; cap_opened := true |}) self
    | NotOpened => set_cap (Some {| cap_url := url self; cap_opened := false |}) self
    | OpenRaised => set_cap None self
    end in
  emit (AOpen r) self.

(** [_resize_h]: [r = h / max(1, rows)], target size [(int(cols*r), h)].
    The quotient and the product are binary64 floats. *)
Definition _resize_h (img : Image) (h : Z) : result Image :=
  r <~ float_op (inject_Z h / inject_Z (Z.max 1 (rows_of img))) ;;
  c <~ float_op (inject_Z (cols_of img)) ;;
  x <~ float_op (c * r) ;;
  cv_resize img (Qtrunc x) h.

(** [cap.read()] when there is a capture object: a capture that is not
    opened has nothing to deliver. *)
Definition read (io : IterIO) (self : t) : bool * option Image :=
  match cap self with
  | Some c => if cap_opened c then io_read io else (false, None)
  | None => (false, None)
  end.

(** The text drawn on the placeholder frame. *)
Definition placeholder_text (self : t) : string :=
  label self +:+ " (reconectando...)".

(** The statements of [run] before the loop. *)
Definition run_enter (r : OpenResult) (self : t) : t :=
  set_last_try 0 (_open r self).

(** One turn of [while not self.stop_flag].  An exception, or a set
    stop flag seen at the loop test, ends the thread. *)
Definition run_iter (io : IterIO) (self : t) : t :=
  if stop_flag self then set_status Finished self
  else
    match read io self with
    | (true, Some frame) =>
        match _resize_h frame (target_h self) with
        | Ok fr =>
            let fr := cv_putText fr (label self) (10, 30) (8 # 10) (0, 255, 0) 2 in
            emit (AStore fr) (set_frame (Some fr) self)
        | Raise _ => set_status Finished self
        end
    | _ =>
        let self :=
          if Qle_bool (reconnect_delay_s self) (io_now io - last_try self)
          then set_last_try (io_now' io) (_open (io_open io) self)
          else self in
        match np_zeros (target_h self) (target_h self) with
        | Ok ph =>
            let ph := cv_putText ph (placeholder_text self) (10, 30) (8 # 10)
                        (0, 0, 255) 2 in
            let self := emit (AStore ph) (set_frame (Some ph) self) in
            emit (ASleep (5 # 100)) self
        | Raise _ => set_status Finished self
        end
    end.

(** The loop over the answers of the outside world, while the thread runs. *)
Fixpoint run_loop (ios : list IterIO) (self : t) : t :=
  match ios with
  | [] => self
  | io :: ios' =>
      match status self with
      | Running => run_loop ios' (run_iter io self)
      | _ => self
      end
  end.

Definition get_frame (self : t) : option Image := frame self.

(** [stop], called from the controller's thread. *)
Definition stop (self : t) : t :=
  let self := set_stop_flag true self in
  set_cap (release <$> cap self) self.

(** [run], driven through a finite sequence of turns. *)
Definition run (r : OpenResult) (ios : list IterIO) (self : t) : t :=
  run_loop ios (run_enter r self).



(** [Thread.start()]: the thread is running; its body [run] executes on
    its own, not in the caller. *)
Definition start (self : t) : t := set_status Running self.

End CaptureThread.

(** The number of [_open] calls in a thread's record. *)
Definition is_open_event (e : ActorEvent) : bool :=
  match e with
  | AOpen _ => true
  | _ => false
  end.

Definition count_opens (evs : list ActorEvent) : nat :=
  length (List.filter is_open_event evs).

(** The entries of the record that act on a capture object. *)
Definition touches_capture (e : ActorEvent) : bool :=
  match e with
  | ARelease _ | AOpen _ => true
  | _ => false
  end.

(** A [cap.read()] answer that sends the loop into its failure branch. *)
Definition read_failed (r : bool * option Image) : Prop :=
  fst r = false \/ snd r = None.

(** ** Global stream state ([class StreamState], the global [STATE]) *)

Record Config : Type := {
  ip : string;
  user : string;
  password : string;
  channels : list Z;
  subtype : Z;
  target_height : Z
}.

(** What the controller does, in order. *)
Inductive SysEvent : Type :=
| LockAcquire
| LockRelease
| StopCalled (tid : nat)
| ThreadStarted (tid : nat).

Module StreamState.

(** The two registries hold references to thread objects: a bound
    [t.get_frame] is the reference to [t].  A Python dictionary keeps its
    keys in the order of their first insertion; [rank] holds, for the keys
    of [threads], the number of keys the dictionary held when the key was
    inserted. *)
Record t : Type := {
  threads : gmap Z nat;
  getters : gmap Z nat;
  config : Config;
  rank : gmap Z nat
}.

(** [__init__] *)
Definition init : t :=
  {| threads := ∅; getters := ∅;
     config := {| ip := "192.168.0.18"; user := "admin";
                  password := "arenna@123"; channels := [1; 2];
                  subtype := 0; target_height := 360 |};
     rank := ∅ |}.

(** The order of two entries of [threads] in the dictionary. *)
Definition rank_le (s : t) (a b : Z * nat) : Prop :=
  (default 0%nat (rank s !! a.1) <= default 0%nat (rank s !! b.1))%nat.

#[global] Instance rank_le_dec (s : t) (a b : Z * nat) : Decision (rank_le s a b).
Proof. unfold rank_le. apply _. Defined.

(** [self.threads.values()]: the registered references in insertion order
    of their keys. *)
Definition thread_values (s : t) : list nat :=
  map snd (merge_sort (rank_le s) (map_to_list (threads s))).

End StreamState.

(** The process: the global [STATE], every [CaptureThread] object created
    so far (a reference is an index into [objects]), the environment
    variable written by [CaptureThread.__init__], and the controller's
    record of events. *)
Record Process : Type := {
  STATE : StreamState.t;
  objects : list CaptureThread.t;
  ffmpeg_capture_options : option string;
  trace : list SysEvent
}.

Definition set_STATE (s : StreamState.t) (p : Process) : Process :=
  {| STATE := s; objects := objects p;
     ffmpeg_capture_options := ffmpeg_capture_options p; trace := trace p |}.

Definition set_objects (o : list CaptureThread.t) (p : Process) : Process :=
  {| STATE := STATE p; objects := o;
     ffmpeg_capture_options := ffmpeg_capture_options p; trace := trace p |}.

Definition set_options (o : option string) (p : Process) : Process :=
  {| STATE := STATE p; objects := objects p;
     ffmpeg_capture_options := o; trace := trace p |}.

Definition record (e : SysEvent) (p : Process) : Process :=
  {| STATE := STATE p; objects := objects p;
     ffmpeg_capture_options := ffmpeg_capture_options p;
     trace := trace p ++ [e] |}.

Definition process_init : Process :=
  {| STATE := StreamState.init; objects := []; ffmpeg_capture_options := None;
     trace := [] |}.

(** [t.stop()] on the object behind a reference; nothing waits for the
    thread. *)
Definition stop_thread (p : Process) (tid : nat) : Process :=
  record (StopCalled tid) (set_objects (alter CaptureThread.stop tid (objects p)) p).

(** [for t in list(self.threads.values()): t.stop()] *)
Definition stop_all_locked (p : Process) : Process :=
  fold_left stop_thread (StreamState.thread_values (STATE p)) p.

Definition stop_all (p : Process) : Process :=
  record LockRelease (stop_all_locked (record LockAcquire p)).

(** The body of [for ch in channels] in [start_streams]. *)
Definition start_channel (ip user password : string) (subtype target_height : Z)
  (p : Process) (ch : Z) : Process :=
  let url := make_rtsp_url ip user password ch subtype in
  let t := CaptureThread.init ("CH" +:+ pretty ch) url ("CH" +:+ pretty ch)
             target_height in
  let p := match CaptureThread.capture_options true (CaptureThread.ffmpeg_timeout_ms t) with
           | Some o => set_options (Some o) p
           | None => p
           end in
  let tid := length (objects p) in
  let p := set_objects (objects p ++ [CaptureThread.start t]) p in
  let p := record (ThreadStarted tid) p in
  let s := STATE p in
  set_STATE {| StreamState.threads := <[ch := tid]> (StreamState.threads s);
               StreamState.getters := <[ch := tid]> (StreamState.getters s);
               StreamState.config := StreamState.config s;
               StreamState.rank :=
                 match StreamState.threads s !! ch with
                 | Some _ => StreamState.rank s
                 | None => <[ch := size (StreamState.threads s)]> (StreamState.rank s)
                 end |} p.

(** [STATE.start_streams(ip, user, password, channels, subtype,
    target_height)]: the outcome for the caller and the process after it. *)
Definition start_streams (ip user password : string) (chs : PyVal)
  (subtype target_height : Z) (p : Process) : result unit * Process :=
  match _coerce_channels chs with
  | Raise e => (Raise e, p)
  | Ok channels =>
      let p := record LockAcquire p in
      let p := stop_all_locked p in
      let p := set_STATE {| StreamState.threads := ∅;
                            StreamState.getters := StreamState.getters (STATE p);
                            StreamState.config := StreamState.config (STATE p);
                            StreamState.rank := ∅ |} p in
      let p := set_STATE {| StreamState.threads := StreamState.threads (STATE p);
                            StreamState.getters := ∅;
                            StreamState.config := StreamState.config (STATE p);
                            StreamState.rank := StreamState.rank (STATE p) |} p in
      let p := set_STATE {| StreamState.threads := StreamState.threads (STATE p);
                            StreamState.getters := StreamState.getters (STATE p);
                            StreamState.config :=
                              {| ip := ip; user := user; password := password;
                                 channels := channels; subtype := subtype;
                                 target_height := target_height |};
                            StreamState.rank := StreamState.rank (STATE p) |} p in
      let p := fold_left (start_channel ip user password subtype target_height)
                 channels p in
      (Ok tt, record LockRelease p)
  end.

(** [STATE.getters.get(ch)] *)
Definition get_accessor (ch : Z) (p : Process) : option nat :=
  StreamState.getters (STATE p) !! ch.

(** Calling an accessor obtained from the registry. *)
Definition call_accessor (tid : nat) (p : Process) : option Image :=
  t ← objects p !! tid; CaptureThread.get_frame t.

(** A sequence of [start_streams] calls, and the channels of the last one
    that did not raise. *)
Record Call : Type := {
  c_ip : string; c_user : string; c_password : string;
  c_channels : PyVal; c_subtype : Z; c_target_height : Z
}.

Definition do_call (p : Process) (c : Call) : Process :=
  snd (start_streams (c_ip c) (c_user c) (c_password c) (c_channels c)
         (c_subtype c) (c_target_height c) p).

Definition do_calls (cs : list Call) (p : Process) : Process :=
  fold_left do_call cs p.

Definition last_requested (cs : list Call) : option (list Z) :=
  fold_left (fun acc c => match _coerce_channels (c_channels c) with
                          | Ok l => Some l
                          | Raise _ => acc
                          end) cs None.

(** A [channels] argument that is not an [int], [list], [tuple] or [set],
    or one of whose members [int(x)] refuses. *)
Definition channels_rejected (chs : PyVal) : Prop :=
  match chs with
  | PyInt _ => False
  | PyList l | PyTuple l | PySet l => exists x e, x ∈ l /\ py_int x = Raise e
  | PyStr _ | PyNone => True
  end.

(** The thread object [start_streams] creates and starts for [ch]. *)
Definition new_thread (ip user password : string) (subtype target_height ch : Z)
  : CaptureThread.t :=
  CaptureThread.start
    (CaptureThread.init ("CH" +:+ pretty ch)
       (make_rtsp_url ip user password ch subtype) ("CH" +:+ pretty ch)
       target_height).

(** The registry holds exactly the channels [l], each bound to a running
    thread object labelled for it. *)
Definition registry_serves (l : list Z) (p : Process) : Prop :=
  dom (StreamState.getters (STATE p)) = list_to_set l
  /\ dom (StreamState.threads (STATE p)) = list_to_set l
  /\ (forall ch, ch ∈ l ->
        exists tid t,
          get_accessor ch p = Some tid
          /\ StreamState.threads (STATE p) !! ch = Some tid
          /\ objects p !! tid = Some t
          /\ CaptureThread.status t = Running
          /\ CaptureThread.stop_flag t = false
          /\ CaptureThread.label t = "CH" +:+ pretty ch)
  /\ (forall ch, ch ∉ l -> get_accessor ch p = None).

(** ** MJPEG encoder ([mjpeg_generator]) *)

Definition CRLF : string := String "013" (String "010" EmptyString).

(** Python's [round(x)]: to the nearest integer, ties to even. *)
Definition py_round (q : Q) : Z :=
  let f := Qfloor q in
  match (q - inject_Z f ?= 1 # 2)%Q with
  | Lt => f
  | Gt => f + 1
  | Eq => if Z.even f then f else f + 1
  end.

(** [f"{x:0.1f}"], on the exact value (a binary float next to a tie may
    print the neighbouring digit). *)
Definition fmt_1f (q : Q) : string :=
  let t := py_round (q * 10) in
  let a := Z.abs t in
  (if t <? 0 then "-" else "") +:+ pretty (a / 10) +:+ "." +:+ pretty (a mod 10).

(** One multipart chunk: the boundary and header, the JPEG encoding of
    [chunk_frame] at [chunk_quality], and the closing line break. *)
Record Chunk : Type := {
  chunk_head : string;
  chunk_frame : Image;
  chunk_quality : Z;
  chunk_tail : string
}.

Inductive GenEvent : Type :=
| GYield (at_time : Q) (c : Chunk)
| GSleep (d : Q).

(** What the outside world supplies to one turn of the encoder loop: the
    frame the accessor returns, the formatted date, the seconds that pass
    from the top of the loop to the [time.time()] reading, the seconds from
    that reading to the [yield], whether [cv2.imencode] succeeded, and the
    seconds the consumer keeps the generator suspended at the [yield]. *)
Record Tick : Type := {
  tk_frame : option Image;
  tk_stamp : string;
  tk_fetch : Q;
  tk_encode : Q;
  tk_ok : bool;
  tk_consume : Q
}.

(** The wall clock at the top of the loop and the locals [last], [ema]. *)
Record GenState : Type := {
  g_clock : Q;
  g_last : Q;
  g_ema : Q
}.

(** The state after the statements before [while True], entered at
    wall-clock time [t0]. *)
Definition mjpeg_enter (t0 : Q) : GenState :=
  {| g_clock := t0; g_last := t0; g_ema := 0 |}.

Definition alpha : Q := 12 # 100.

(** One turn of [while True] in [mjpeg_generator]: what it emits, and the
    state at the next loop top or the exception that ends the generator. *)
Definition mjpeg_iter (fps : Q) (show_stamp show_fps : bool) (jpeg_quality : Z)
  (tk : Tick) (st : GenState) : list GenEvent * result GenState :=
  match tk_frame tk with
  | None =>
      ([GSleep (3 # 100)],
       Ok {| g_clock := g_clock st + tk_fetch tk + (3 # 100);
             g_last := g_last st; g_ema := g_ema st |})
  | Some frame =>
      let frame :=
        if show_stamp
        then cv_putText frame (tk_stamp tk) (10, rows_of frame - 12) (6 # 10)
               (255, 255, 255) 2
        else frame in
      let now := (g_clock st + tk_fetch tk)%Q in
      let inst := (1 / Qmax (1 # 1000000) (now - g_last st))%Q in
      let last := now in
      let ema := if Qlt_le_dec 0 (g_ema st)
                 then ((1 - alpha) * g_ema st + alpha * inst)%Q
                 else inst in
      let frame :=
        if show_fps
        then cv_putText frame ("FPS ~ " +:+ fmt_1f ema)
               (cols_of frame - 180, rows_of frame - 12) (6 # 10)
               (255, 255, 255) 2
        else frame in
      let t_yield := (now + tk_encode tk)%Q in
      if negb (tk_ok tk)
      then ([], Ok {| g_clock := t_yield; g_last := last; g_ema := ema |})
      else
        let chunk := {| chunk_head := "--frame" +:+ CRLF +:+ "Content-Type: image/jpeg"
                                        +:+ CRLF +:+ CRLF;
                        chunk_frame := frame; chunk_quality := jpeg_quality;
                        chunk_tail := CRLF |} in
        if Qeq_bool fps 0
        then ([GYield t_yield chunk], Raise ZeroDivisionError)
        else
          let d := Qmax 0 (1 / fps) in
          ([GYield t_yield chunk; GSleep d],
           Ok {| g_clock := t_yield + tk_consume tk + d; g_last := last;
                 g_ema := ema |})
  end.

(** The generator driven through a finite sequence of turns. *)
Fixpoint mjpeg_run (fps : Q) (show_stamp show_fps : bool) (jpeg_quality : Z)
  (tks : list Tick) (st : GenState) : list GenEvent :=
  match tks with
  | [] => []
  | tk :: tks' =>
      match mjpeg_iter fps show_stamp show_fps jpeg_quality tk st with
      | (evs, Ok st') => evs ++ mjpeg_run fps show_stamp show_fps jpeg_quality tks' st'
      | (evs, Raise _) => evs
      end
  end.

(** [mjpeg_generator(get_bgr_frame_fn, fps, show_stamp, show_fps,
    jpeg_quality)], entered at wall-clock time [t0]: what it emits during
    the given turns.  In the source [fps] defaults to 12, both flags to
    [True] and [jpeg_quality] to 80. *)
Definition mjpeg_generator (fps : Q) (show_stamp show_fps : bool) (jpeg_quality : Z)
  (t0 : Q) (tks : list Tick) : list GenEvent :=
  mjpeg_run fps show_stamp show_fps jpeg_quality tks (mjpeg_enter t0).

(** The time a turn spends producing its frame, from the top of the loop
    to the [yield]. *)
Definition elapsed (tk : Tick) : Q := tk_fetch tk + tk_encode tk.

(** The wall-clock times at which chunks were emitted. *)
Fixpoint yield_times (evs : list GenEvent) : list Q :=
  match evs with
  | [] => []
  | GYield t _ :: evs' => t :: yield_times evs'
  | GSleep _ :: evs' => yield_times evs'
  end.

(** Successive times at least [d] apart. *)
Fixpoint paced (d : Q) (ts : list Q) : Prop :=
  match ts with
  | [] => True
  | t1 :: ts' =>
      match ts' with
      | [] => True
      | t2 :: _ => (t1 + d <= t2)%Q
      end /\ paced d ts'
  end.

(** Time does not run backwards during a turn. *)
Definition tick_nonneg (tk : Tick) : Prop :=
  (0 <= tk_fetch tk /\ 0 <= tk_encode tk /\ 0 <= tk_consume tk)%Q.

(** ** Statements of the specification, for comparison with the code *)

(** The pacing sleep as the specification words it:
    [max(0, 1/fps - elapsed)]. *)
Definition spec_pacing_sleep (fps el : Q) : Q := Qmax 0 (1 / fps - el).

(** The grid cell width as the specification words it:
    [round(cell_height * 16/9)]. *)
Definition spec_cell_w (cell_h : Z) : Z := py_round (inject_Z cell_h * 16 / 9).

(** The placeholder text as the specification words it. *)
Definition spec_placeholder_text (label : string) : string :=
  label +:+ " (reconnecting...)".

(** ** Web routes

    A submitted form or a query string is the list of its fields in order;
    a field may occur several times. *)
Definition Form : Type := list (string * string).

(** [form.getlist(key)] *)
Definition form_getlist (form : Form) (key : string) : list string :=
  omap (fun kv : string * string =>
          if String.eqb (fst kv) key then Some (snd kv) else None) form.

(** [form.get(key, default)] *)
Definition form_get (form : Form) (key default : string) : string :=
  match form_getlist form key with
  | v :: _ => v
  | [] => default
  end.

(** [int(s)] on a text field. *)
Definition int_field (s : string) : result Z :=
  match int_of_str s with
  | Some z => Ok z
  | None => Raise ValueError
  end.

(** Insertion into a strictly increasing list. *)
Fixpoint insert_sorted (z : Z) (l : list Z) : list Z :=
  match l with
  | [] => [z]
  | y :: l' =>
      if z <? y then z :: l
      else if z =? y then l
      else y :: insert_sorted z l'
  end.

(** [sorted({z for z in l})]: the members of [l], each once, increasing. *)
Definition sorted_set (l : list Z) : list Z := foldr insert_sorted [] l.

(** What a frame stream is fed from: one accessor, or a mosaic of
    accessors.  An accessor is the reference held by [STATE.getters]. *)
Inductive Source : Type :=
| Single (tid : nat)
| RowOf (tids : list nat)
| GridOf (tids : list nat) (cols cell_h : Z).

Inductive Response : Type :=
| Redirect (target : string)
| NotFound (message : string)
| MjpegStream (src : Source).

(** The accessor behind a reference, called in process [p]. *)
Definition getter_of (p : Process) (tid : nat) : getter :=
  fun _ => call_accessor tid p.

(** One call of the frame function an MJPEG stream is built on. *)
Definition source_frame (src : Source) (p : Process) : result (option Image) :=
  match src with
  | Single tid => Ok (getter_of p tid tt)
  | RowOf tids => mosaic_getter_row (map (getter_of p) tids) tt
  | GridOf tids cols cell_h => mosaic_getter_grid (map (getter_of p) tids) cols cell_h tt
  end.

(** [POST /connect] *)
Definition connect (form : Form) (p : Process) : result Response * Process :=
  let ip := strip (form_get form "ip" "") in
  let user := strip (form_get form "user" "") in
  let password := form_get form "password" "" in
  match int_field (form_get form "subtype" "0") with
  | Raise e => (Raise e, p)
  | Ok subtype =>
      match int_field (form_get form "target_height" "360") with
      | Raise e => (Raise e, p)
      | Ok target_height =>
          let vals := form_getlist form "channels" in
          match match vals with
                | [] => Ok [1]
                | _ => zs <~ mapM int_field vals ;; Ok (sorted_set zs)
                end with
          | Raise e => (Raise e, p)
          | Ok channels =>
              match start_streams ip user password (PyTuple (map PyInt channels))
                      subtype target_height p with
              | (Raise e, p') => (Raise e, p')
              | (Ok _, p') => (Ok (Redirect "/view"), p')
              end
          end
      end
  end.

(** [GET /ch<int:ch>.mjpg] *)
Definition channel_mjpg (ch : Z) (p : Process) : Response :=
  match get_accessor ch p with
  | None => NotFound "Canal não está ativo. Vá em Reconfigurar e selecione este canal."
  | Some g => MjpegStream (Single g)
  end.

(** [GET /mosaic.mjpg] *)
Definition mosaic_mjpg (args : Form) (p : Process) : result Response :=
  let mode := form_get args "mode" "row" in
  cols <~ int_field (form_get args "cols" "2") ;;
  let subset := form_get args "subset" "all" in
  let chans := channels (StreamState.config (STATE p)) in
  let chans := if String.eqb subset "first4" then take 4 chans else chans in
  let getters := omap (fun c => StreamState.getters (STATE p) !! c) chans in
  match getters with
  | [] => Ok (NotFound "Nenhum canal ativo.")
  | _ =>
      if String.eqb mode "grid"
      then Ok (MjpegStream
                 (GridOf getters cols (target_height (StreamState.config (STATE p)))))
      else Ok (MjpegStream (RowOf getters))
  end.

(** The [connected] flag of the index page: [len(STATE.getters) > 0]. *)
Definition connected (p : Process) : bool :=
  negb (Nat.eqb (size (StreamState.getters (STATE p))) 0).

(** Every character of a text satisfies [f]. *)
Fixpoint string_forall (f : ascii -> bool) (s : string) : bool :=
  match s with
  | EmptyString => true
  | String a s' => f a && string_forall f s'
  end.

(** The characters [quote] lets through or produces: the unreserved ones
    and the percent sign. *)
Definition is_quoted_char (a : ascii) : bool :=
  is_unreserved a || (Ascii.N_of_ascii a =? 37)%N.

(** The texts on which [int_of_str] is the builtin [int]: ASCII characters
    only, and no longer than 4300 characters, the interpreter's default
    limit on the digits of a decimal literal. *)
Definition short_ascii (s : string) : bool :=
  string_forall (fun a => (Ascii.N_of_ascii a <? 128)%N) s
  && (String.length s <=? 4300)%nat.

(** A [channels] argument whose text members are such texts. *)
Definition py_plain (x : PyVal) : Prop :=
  match x with
  | PyStr s => short_ascii s = true
  | _ => True
  end.

Definition channels_plain (chs : PyVal) : Prop :=
  match chs with
  | PyList l | PyTuple l | PySet l => Forall py_plain l
  | _ => True
  end.

(** The characters that structure an RTSP URL. *)
Definition is_url_delimiter (a : ascii) : bool :=
  existsb (fun n => (Ascii.N_of_ascii a =? n)%N) [58; 64; 47; 63; 35; 38; 61; 32]%N.

(** A turn of the encoder that has a frame and encodes it. *)
Definition tick_emits (tk : Tick) : bool :=
  match tk_frame tk with
  | Some _ => tk_ok tk
  | None => false
  end.

(** Strictly increasing: every member is below all the members after it. *)
Fixpoint increasing (l : list Z) : Prop :=
  match l with
  | [] => True
  | x :: l' => Forall (Z.lt x) l' /\ increasing l'
  end.

(** * Properties *)

(** ** Arithmetic of the layouts *)

Lemma grid_cell_w_quot (cell_h : Z) : grid_cell_w cell_h = Z.quot (cell_h * 16) 9.
Proof.
  unfold grid_cell_w, Qtrunc. cbn. rewrite Z.mul_1_r. reflexivity.
Qed.

Lemma spec_cell_w_floor (cell_h : Z) :
  spec_cell_w cell_h
  = (cell_h * 16) / 9 + (if (cell_h * 16) mod 9 <? 5 then 0 else 1).
Proof.
  unfold spec_cell_w, py_round.
  assert (Hf : Qfloor (inject_Z cell_h * 16 / 9) = cell_h * 16 / 9).
  { unfold Qfloor. cbn. rewrite Z.mul_1_r. reflexivity. }
  rewrite Hf.
  pose proof (Z.div_mod (cell_h * 16) 9 ltac:(lia)) as Hdm.
  pose proof (Z.mod_pos_bound (cell_h * 16) 9 ltac:(lia)) as Hb.
  set (f := cell_h * 16 / 9) in *. set (m := (cell_h * 16) mod 9) in *.
  unfold Qcompare. cbn.
  change (Z.pos (1 * 1 * 9)) with 9. change (Z.pos (1 * 1 * 9 * 1)) with 9.
  destruct (Z.compare_spec ((cell_h * 16 * 1 * 1 + - f * 9) * 2) (1 * 9));
    destruct (Z.ltb_spec m 5); lia.
Qed.

Lemma grid_cell_w_pos (cell_h : Z) : 1 <= cell_h -> 1 <= grid_cell_w cell_h.
Proof.
  intros H. rewrite grid_cell_w_quot.
  rewrite Z.quot_div_nonneg by lia.
  apply Z.div_le_lower_bound; lia.
Qed.

Lemma py_sum_cons (z : Z) (l : list Z) : py_sum (z :: l) = z + py_sum l.
Proof.
  unfold py_sum. cbn.
  assert (G : forall l a b, fold_left Z.add l (a + b) = a + fold_left Z.add l b).
  { clear. induction l as [|c l IH]; intros a b; cbn; [reflexivity|].
    rewrite <- Z.add_assoc. apply IH. }
  replace (0 + z) with (z + 0) by lia. apply G.
Qed.

Lemma fold_max_ge (l : list Z) (a : Z) :
  a <= fold_left Z.max l a /\ Forall (fun z => z <= fold_left Z.max l a) l.
Proof.
  revert a. induction l as [|b l IH]; intros a; cbn.
  - split; [lia | constructor].
  - destruct (IH (Z.max a b)) as [H1 H2]. split; [lia|].
    constructor; [lia | exact H2].
Qed.

Lemma fold_max_in (l : list Z) (a : Z) :
  fold_left Z.max l a = a \/ fold_left Z.max l a ∈ l.
Proof.
  revert a. induction l as [|b l IH]; intros a; cbn.
  - left; reflexivity.
  - destruct (IH (Z.max a b)) as [H | H].
    + rewrite H. destruct (Z.max_spec a b) as [[_ ->] | [_ ->]];
        [right; left | left; reflexivity].
    + right; right; exact H.
Qed.

(** [py_max] of a non-empty list is its greatest member. *)
Lemma py_max_spec (l : list Z) :
  l <> [] -> Forall (fun z => z <= py_max l) l /\ py_max l ∈ l.
Proof.
  destruct l as [|a l]; [congruence | intros _]. unfold py_max.
  destruct (fold_max_ge l a) as [H1 H2]. split.
  - constructor; assumption.
  - destruct (fold_max_in l a) as [-> | H]; [left | right; exact H].
Qed.

Lemma shape_nonneg (img : Image) : 0 <= rows_of img /\ 0 <= cols_of img.
Proof.
  unfold rows_of, cols_of. induction img; cbn; try lia; assumption.
Qed.

Lemma shape_eta (img : Image) : shape img = (rows_of img, cols_of img).
Proof. unfold rows_of, cols_of. destruct (shape img); reflexivity. Qed.

(** A slice that lies inside the axis is taken as written. *)
Lemma slice_bound_inside (i n : Z) : 0 <= i <= n -> slice_bound i n = i.
Proof. intros H. unfold slice_bound. destruct (Z.ltb_spec i 0); lia. Qed.

(** Assigning an image to a slice of its own size, inside the canvas. *)
Lemma set_slice_exact (canvas src : Image) (y1 x1 : Z) :
  0 <= y1 -> y1 + rows_of src <= rows_of canvas ->
  0 <= x1 -> x1 + cols_of src <= cols_of canvas ->
  set_slice canvas y1 (y1 + rows_of src) x1 (x1 + cols_of src) src
  = Ok (SetSlice canvas y1 (y1 + rows_of src) x1 (x1 + cols_of src) src).
Proof.
  intros Hy1 Hy2 Hx1 Hx2.
  destruct (shape_nonneg src) as [Hr Hc].
  unfold set_slice.
  rewrite !slice_bound_inside by lia.
  replace (Z.max 0 (y1 + rows_of src - y1)) with (rows_of src) by lia.
  replace (Z.max 0 (x1 + cols_of src - x1)) with (cols_of src) by lia.
  unfold broadcasts. rewrite !Z.eqb_refl. reflexivity.
Qed.

(** Reading a pasted image back: inside the pasted block the canvas shows
    the source, elsewhere what it showed before. *)
Lemma pixel_at_set_slice (canvas src : Image) (y1 x1 y x : Z) :
  pixel_at (SetSlice canvas y1 (y1 + rows_of src) x1 (x1 + cols_of src) src) y x
  = if in_range y1 (y1 + rows_of src) y && in_range x1 (x1 + cols_of src) x
    then pixel_at src (y - y1) (x - x1)
    else pixel_at canvas y x.
Proof.
  cbn [pixel_at].
  destruct (in_range y1 (y1 + rows_of src) y) eqn:Ey; [|reflexivity].
  destruct (in_range x1 (x1 + cols_of src) x) eqn:Ex; [|reflexivity].
  cbn. unfold in_range in *.
  apply andb_prop in Ey as [Ey1 Ey2]. apply andb_prop in Ex as [Ex1 Ex2].
  apply Z.leb_le in Ey1, Ex1. apply Z.ltb_lt in Ey2, Ex2.
  f_equal.
  - destruct (Z.eqb_spec (rows_of src) 1); lia.
  - destruct (Z.eqb_spec (cols_of src) 1); lia.
Qed.

(** ** The row layout *)

Lemma row_paste_ok (canvas f : Image) (x0 : Z) :
  0 <= x0 -> x0 + cols_of f <= cols_of canvas -> rows_of f <= rows_of canvas ->
  row_paste (canvas, x0) f
  = Ok (SetSlice canvas 0 (0 + rows_of f) x0 (x0 + cols_of f) f, x0 + cols_of f).
Proof.
  intros Hx Hw Hh. unfold row_paste. rewrite (shape_eta f).
  replace (set_slice canvas 0 (rows_of f) x0 (x0 + cols_of f) f)
    with (set_slice canvas 0 (0 + rows_of f) x0 (x0 + cols_of f) f)
    by (f_equal; lia).
  rewrite set_slice_exact by lia. reflexivity.
Qed.

(** The paste loop of the row layout, started at column [x0]: it succeeds,
    leaves everything left of [x0] and right of the last frame alone, and
    shows frame [i] from the column where the frames before it end. *)
Lemma foldM_row_paste (frames : list Image) :
  forall (canvas : Image) (x0 : Z),
    0 <= x0 ->
    x0 + py_sum (map cols_of frames) <= cols_of canvas ->
    Forall (fun f => rows_of f <= rows_of canvas) frames ->
    exists canvas',
      foldM row_paste frames (canvas, x0)
      = Ok (canvas', x0 + py_sum (map cols_of frames))
      /\ shape canvas' = shape canvas
      /\ (forall y x, x < x0 -> pixel_at canvas' y x = pixel_at canvas y x)
      /\ (forall y x, x0 + py_sum (map cols_of frames) <= x ->
            pixel_at canvas' y x = pixel_at canvas y x)
      /\ (forall (i : nat) f, frames !! i = Some f ->
            forall y x, 0 <= x < cols_of f ->
              pixel_at canvas' y (x0 + py_sum (map cols_of (take i frames)) + x)
              = if in_range 0 (rows_of f) y then pixel_at f y x
                else pixel_at canvas y (x0 + py_sum (map cols_of (take i frames)) + x)).
Proof.
  induction frames as [|f frames IH]; intros canvas x0 Hx0 Hw Hrows.
  - exists canvas. cbn. unfold py_sum; cbn. rewrite Z.add_0_r.
    repeat split; try reflexivity. intros i f Hi. discriminate.
  - cbn [map] in Hw. rewrite py_sum_cons in Hw.
    apply Forall_cons in Hrows as [Hf Hrows].
    destruct (shape_nonneg f) as [Hfr Hfc].
    assert (Hsum : 0 <= py_sum (map cols_of frames)).
    { clear. induction frames as [|g l IHl]; [unfold py_sum; cbn; lia|].
      cbn [map]. rewrite py_sum_cons. destruct (shape_nonneg g). lia. }
    set (canvas1 := SetSlice canvas 0 (0 + rows_of f) x0 (x0 + cols_of f) f).
    destruct (IH canvas1 (x0 + cols_of f)) as (canvas' & Hrun & Hshape & Hleft & Hright & Hcell).
    + lia.
    + change (cols_of canvas1) with (cols_of canvas). lia.
    + exact Hrows.
    + exists canvas'. cbn [foldM map]. rewrite row_paste_ok by lia. cbn [rbind].
      fold canvas1. rewrite py_sum_cons. rewrite Hrun.
      split; [f_equal; f_equal; lia|].
      split; [exact Hshape|].
      split; [|split].
      * intros y x Hlt. rewrite Hleft by lia. unfold canvas1.
        rewrite pixel_at_set_slice.
        replace (in_range x0 (x0 + cols_of f) x) with false
          by (unfold in_range; destruct (Z.leb_spec x0 x); [lia | reflexivity]).
        rewrite andb_false_r. reflexivity.
      * intros y x Hge. rewrite Hright by lia. unfold canvas1.
        rewrite pixel_at_set_slice.
        replace (in_range x0 (x0 + cols_of f) x) with false.
        { rewrite andb_false_r. reflexivity. }
        unfold in_range. destruct (Z.ltb_spec x (x0 + cols_of f)); [lia|].
        rewrite andb_false_r. reflexivity.
      * intros [|i] g Hi y x Hxr.
        -- cbn in Hi. injection Hi as <-. cbn [take map].
           change (py_sum []) with 0. rewrite Z.add_0_r.
           rewrite Hleft by lia. unfold canvas1. rewrite pixel_at_set_slice.
           replace (in_range x0 (x0 + cols_of f) (x0 + x)) with true.
           2:{ unfold in_range. symmetry. apply andb_true_intro. split;
               [apply Z.leb_le | apply Z.ltb_lt]; lia. }
           rewrite andb_true_r. rewrite Z.add_0_l.
           replace (y - 0) with y by lia. replace (x0 + x - x0) with x by lia.
           reflexivity.
        -- cbn in Hi. cbn [take map]. rewrite py_sum_cons.
           specialize (Hcell i g Hi y x Hxr).
           replace (x0 + (cols_of f + py_sum (map cols_of (take i frames))) + x)
             with (x0 + cols_of f + py_sum (map cols_of (take i frames)) + x) by lia.
           rewrite Hcell.
           destruct (in_range 0 (rows_of g) y); [reflexivity|].
           unfold canvas1. rewrite pixel_at_set_slice.
           assert (Hoff : 0 <= py_sum (map cols_of (take i frames))).
           { clear. generalize (take i frames). intros l.
             induction l as [|h l IHl]; [unfold py_sum; cbn; lia|].
             cbn [map]. rewrite py_sum_cons. destruct (shape_nonneg h). lia. }
           replace (in_range x0 (x0 + cols_of f)
                      (x0 + cols_of f + py_sum (map cols_of (take i frames)) + x))
             with false.
           { rewrite andb_false_r. reflexivity. }
           unfold in_range.
           destruct (Z.ltb_spec (x0 + cols_of f + py_sum (map cols_of (take i frames)) + x)
                       (x0 + cols_of f)); [lia|].
           rewrite andb_false_r. reflexivity.
Qed.

Lemma omap_id_map {A B : Type} (f : A -> option B) (l : list A) :
  omap id (map f l) = omap f l.
Proof.
  induction l as [|a l IH]; [reflexivity|]. cbn. rewrite IH. reflexivity.
Qed.

Lemma omap_nonempty {A B : Type} (f : A -> option B) (l : list A) :
  (exists a b, a ∈ l /\ f a = Some b) -> omap f l <> [].
Proof.
  intros (a & b & Hin & Hb). induction Hin as [a l | a a' l Hin IH]; cbn.
  - rewrite Hb. discriminate.
  - destruct (f a'); [discriminate | exact (IH Hb)].
Qed.

Lemma omap_all_none {A B : Type} (f : A -> option B) (l : list A) :
  Forall (fun a => f a = None) l -> omap f l = [].
Proof.
  induction 1 as [|a l Ha _ IH]; [reflexivity|]. cbn. rewrite Ha. exact IH.
Qed.

(** C5. When at least one accessor returns a frame, the row compositor
    returns a canvas whose height is the greatest height among the
    available frames and whose width is the sum of their widths; the
    available frames, in list order and at their native sizes, start where
    the frames before them end, accessors without a frame take no room, and
    the canvas is black below a frame shorter than the canvas. *)
Theorem mosaic_getter_row_layout (getters : list getter) :
  (exists g f, g ∈ getters /\ g tt = Some f) ->
  let frames := omap (fun g : getter => g tt) getters in
  exists canvas,
    mosaic_getter_row getters tt = Ok (Some canvas)
    /\ Forall (fun f => rows_of f <= rows_of canvas) frames
    /\ (exists f, f ∈ frames /\ rows_of f = rows_of canvas)
    /\ cols_of canvas = py_sum (map cols_of frames)
    /\ (forall (i : nat) f, frames !! i = Some f ->
          forall y x, 0 <= x < cols_of f ->
            pixel_at canvas y (py_sum (map cols_of (take i frames)) + x)
            = if in_range 0 (rows_of f) y then pixel_at f y x else Black).
Proof.
  intros Hsome frames.
  assert (Hne : frames <> []) by (apply omap_nonempty; exact Hsome).
  unfold mosaic_getter_row. rewrite omap_id_map. fold frames.
  destruct (py_max_spec (map rows_of frames)) as [Hub Hatt].
  { destruct frames; [congruence | discriminate]. }
  set (h := py_max (map rows_of frames)) in *.
  set (w := py_sum (map cols_of frames)) in *.
  assert (Hh : 0 <= h).
  { apply list_elem_of_fmap in Hatt as (f & -> & _). apply shape_nonneg. }
  assert (Hw : 0 <= w).
  { subst w. clear. induction frames as [|g l IHl]; [unfold py_sum; cbn; lia|].
    cbn [map]. rewrite py_sum_cons. destruct (shape_nonneg g). lia. }
  assert (Hz : np_zeros h w = Ok (Zeros (Z.to_N h) (Z.to_N w))).
  { unfold np_zeros. destruct (Z.ltb_spec h 0); [lia|].
    destruct (Z.ltb_spec w 0); [lia | reflexivity]. }
  set (canvas0 := Zeros (Z.to_N h) (Z.to_N w)) in *.
  assert (Hs0 : rows_of canvas0 = h /\ cols_of canvas0 = w).
  { unfold rows_of, cols_of; cbn. rewrite !Z2N.id by lia. split; reflexivity. }
  destruct Hs0 as [Hr0 Hc0].
  destruct (foldM_row_paste frames canvas0 0) as (canvas & Hrun & Hshape & _ & _ & Hcell).
  - lia.
  - rewrite Hc0. fold w. lia.
  - rewrite Hr0. rewrite Forall_fmap in Hub. exact Hub.
  - exists canvas.
    assert (Hrc : rows_of canvas = h) by (unfold rows_of; rewrite Hshape; exact Hr0).
    assert (Hcc : cols_of canvas = w) by (unfold cols_of; rewrite Hshape; exact Hc0).
    split.
    { destruct frames as [|f0 fs]; [congruence|].
      rewrite Hz. cbn [rbind]. rewrite Hrun. reflexivity. }
    split; [rewrite Hrc; rewrite Forall_fmap in Hub; exact Hub|].
    split.
    { apply list_elem_of_fmap in Hatt as (f & Hf & Hin). exists f.
      split; [exact Hin | rewrite Hrc; symmetry; exact Hf]. }
    split; [exact Hcc|].
    intros i f Hi y x Hx. specialize (Hcell i f Hi y x Hx).
    rewrite Z.add_0_l in Hcell. exact Hcell.
Qed.

(** C5, the example of the specification: heights 200 and 300, widths 100
    and 150, one accessor without a frame between them. *)
Lemma mosaic_getter_row_layout_witness :
  exists canvas,
    mosaic_getter_row [(fun _ => Some (Decoded 1 200 100)); (fun _ => None);
                       (fun _ => Some (Decoded 2 300 150))] tt = Ok (Some canvas)
    /\ rows_of canvas = 300 /\ cols_of canvas = 250.
Proof.
  destruct (mosaic_getter_row_layout
              [(fun _ => Some (Decoded 1 200 100)); (fun _ => None);
               (fun _ => Some (Decoded 2 300 150))])
    as (canvas & Hrun & _ & (f & Hf & Hmax) & Hw & _).
  - exists (fun _ => Some (Decoded 1 200 100)), (Decoded 1 200 100).
    split; [left | reflexivity].
  - exists canvas. split; [exact Hrun|].
    pose proof Hrun as Hc. vm_compute in Hc. injection Hc as <-.
    split; reflexivity.
Defined.

(** ** The grid layout *)

Lemma in_range_block (a b h y : Z) :
  0 <= y < h -> in_range (a * h) (a * h + h) (b * h + y) = (a =? b).
Proof.
  intros Hy. unfold in_range.
  destruct (Z.eqb_spec a b) as [-> | Hne].
  - apply andb_true_intro. split; [apply Z.leb_le | apply Z.ltb_lt]; lia.
  - apply andb_false_iff.
    destruct (Z.lt_ge_cases a b).
    + right. apply Z.ltb_ge. nia.
    + left. apply Z.leb_gt. nia.
Qed.

Lemma same_cell (cols j k : Z) :
  0 < cols -> (j / cols =? k / cols) && (j mod cols =? k mod cols) = (j =? k).
Proof.
  intros Hc.
  pose proof (Z.div_mod j cols ltac:(lia)). pose proof (Z.div_mod k cols ltac:(lia)).
  destruct (Z.eqb_spec j k) as [-> | Hne].
  - rewrite !Z.eqb_refl. reflexivity.
  - apply andb_false_iff.
    destruct (Z.eqb_spec (j / cols) (k / cols)) as [E1|]; [|left; reflexivity].
    destruct (Z.eqb_spec (j mod cols) (k mod cols)) as [E2|]; [|right; reflexivity].
    exfalso. apply Hne. rewrite E1, E2 in *. lia.
Qed.

Section GridLoop.

Variables cols cell_h : Z.
Hypothesis Hcols : 1 <= cols.
Hypothesis Hcell_h : 1 <= cell_h.

#[local, warnings="-notation-for-abbreviation"]
Notation cell_w := (grid_cell_w cell_h).

#[local, warnings="-notation-for-abbreviation"]
Notation resized f := (Resized f (Z.to_N cell_w) (Z.to_N cell_h)).

Lemma cell_w_pos : 1 <= cell_w.
Proof. apply grid_cell_w_pos, Hcell_h. Qed.

Lemma resized_shape (f : Image) :
  rows_of (resized f) = cell_h /\ cols_of (resized f) = cell_w.
Proof.
  pose proof cell_w_pos. unfold rows_of, cols_of; cbn.
  rewrite !Z2N.id by lia. split; reflexivity.
Qed.

Lemma cv_resize_cell (f : Image) :
  0 < rows_of f -> 0 < cols_of f -> cv_resize f cell_w cell_h = Ok (resized f).
Proof.
  intros Hr Hc. pose proof cell_w_pos. unfold cv_resize.
  destruct (Z.leb_spec (rows_of f) 0); [lia|].
  destruct (Z.leb_spec (cols_of f) 0); [lia|].
  destruct (Z.leb_spec cell_w 0); [lia|].
  destruct (Z.leb_spec cell_h 0); [lia|]. reflexivity.
Qed.

(** One paste of the grid loop, for a cell index inside the canvas. *)
Lemma grid_paste_ok (canvas f : Image) (k R : Z) :
  rows_of canvas = R * cell_h -> cols_of canvas = cols * cell_w ->
  0 <= k < R * cols -> 0 < rows_of f -> 0 < cols_of f ->
  grid_paste cols cell_h cell_w canvas (k, f)
  = Ok (SetSlice canvas (k / cols * cell_h) (k / cols * cell_h + rows_of (resized f))
          (k mod cols * cell_w) (k mod cols * cell_w + cols_of (resized f))
          (resized f)).
Proof.
  intros HR HC Hk Hfr Hfc. pose proof cell_w_pos as Hw.
  destruct (resized_shape f) as [Hrs Hcs].
  unfold grid_paste. rewrite cv_resize_cell by assumption. cbn [rbind].
  pose proof (Z.mod_pos_bound k cols ltac:(lia)) as Hm.
  assert (Hq : 0 <= k / cols < R).
  { split; [apply Z.div_pos; lia|]. apply Z.div_lt_upper_bound; lia. }
  replace ((k / cols + 1) * cell_h) with (k / cols * cell_h + rows_of (resized f))
    by (rewrite Hrs; lia).
  replace ((k mod cols + 1) * cell_w) with (k mod cols * cell_w + cols_of (resized f))
    by (rewrite Hcs; lia).
  apply set_slice_exact; rewrite ?Hrs, ?Hcs, ?HR, ?HC; nia.
Qed.

(** The paste loop of the grid, started at cell index [k]: it succeeds,
    cell [k + i] shows frame [i] resized to the cell size, and the cells
    with other indices are left alone. *)
Lemma foldM_grid_paste (frames : list Image) :
  forall (canvas : Image) (k R : Z),
    rows_of canvas = R * cell_h -> cols_of canvas = cols * cell_w ->
    0 <= k -> k + len frames <= R * cols ->
    Forall (fun f => 0 < rows_of f /\ 0 < cols_of f) frames ->
    exists canvas',
      foldM (grid_paste cols cell_h cell_w) (enumerate_from k frames) canvas
      = Ok canvas'
      /\ shape canvas' = shape canvas
      /\ (forall j y x, j < k \/ k + len frames <= j ->
            0 <= y < cell_h -> 0 <= x < cell_w ->
            pixel_at canvas' (j / cols * cell_h + y) (j mod cols * cell_w + x)
            = pixel_at canvas (j / cols * cell_h + y) (j mod cols * cell_w + x))
      /\ (forall (i : nat) f, frames !! i = Some f ->
            forall y x, 0 <= y < cell_h -> 0 <= x < cell_w ->
              pixel_at canvas' ((k + Z.of_nat i) / cols * cell_h + y)
                               ((k + Z.of_nat i) mod cols * cell_w + x)
              = PxOf (resized f) y x).
Proof.
  induction frames as [|f frames IH]; intros canvas k R HR HC Hk Hlen Hne.
  - exists canvas. cbn. repeat split; try reflexivity. intros i f Hi. discriminate.
  - apply Forall_cons in Hne as [[Hfr Hfc] Hne].
    unfold len in Hlen. cbn [length] in Hlen.
    destruct (resized_shape f) as [Hrs Hcs].
    set (canvas1 := SetSlice canvas (k / cols * cell_h)
                      (k / cols * cell_h + rows_of (resized f))
                      (k mod cols * cell_w)
                      (k mod cols * cell_w + cols_of (resized f)) (resized f)).
    assert (Hpix1 : forall j y x, 0 <= y < cell_h -> 0 <= x < cell_w ->
              pixel_at canvas1 (j / cols * cell_h + y) (j mod cols * cell_w + x)
              = if j =? k then PxOf (resized f) y x
                else pixel_at canvas (j / cols * cell_h + y) (j mod cols * cell_w + x)).
    { intros j y x Hy Hx. unfold canvas1. rewrite pixel_at_set_slice.
      rewrite Hrs, Hcs. rewrite !in_range_block by lia.
      rewrite Z.eqb_sym, (Z.eqb_sym (k mod cols)). rewrite same_cell by lia.
      destruct (Z.eqb_spec j k) as [-> | _]; [|reflexivity].
      cbn [pixel_at]. f_equal; lia. }
    destruct (IH canvas1 (k + 1) R) as (canvas' & Hrun & Hshape & Hframe & Hcell).
    + exact HR.
    + exact HC.
    + lia.
    + unfold len. lia.
    + exact Hne.
    + exists canvas'. cbn [enumerate_from foldM].
      rewrite (grid_paste_ok canvas f k R) by (try assumption; lia).
      cbn [rbind]. fold canvas1.
      split; [exact Hrun|]. split; [exact Hshape|]. split.
      * intros j y x Hj Hy Hx. unfold len in Hj. cbn [length] in Hj.
        rewrite Hframe by (try assumption; unfold len; lia).
        rewrite Hpix1 by assumption.
        destruct (Z.eqb_spec j k); [lia | reflexivity].
      * intros [|i] g Hi y x Hy Hx.
        -- cbn in Hi. injection Hi as <-. rewrite Z.add_0_r.
           rewrite Hframe by (try assumption; lia).
           rewrite Hpix1 by assumption. rewrite Z.eqb_refl. reflexivity.
        -- cbn in Hi.
           replace (k + Z.of_nat (S i)) with (k + 1 + Z.of_nat i) by lia.
           apply Hcell; assumption.
Qed.

End GridLoop.

Lemma lookup_map {A B : Type} (f : A -> B) (l : list A) (i : nat) :
  map f l !! i = f <$> (l !! i).
Proof. exact (list_lookup_fmap f l i). Qed.

Lemma lookup_map_Some {A B : Type} (f : A -> B) (l : list A) (i : nat) (a : A) :
  l !! i = Some a -> map f l !! i = Some (f a).
Proof. intros H. rewrite lookup_map, H. reflexivity. Qed.

Lemma np_zeros_ok (h w : Z) :
  0 <= h -> 0 <= w ->
  np_zeros h w = Ok (Zeros (Z.to_N h) (Z.to_N w))
  /\ shape (Zeros (Z.to_N h) (Z.to_N w)) = (h, w).
Proof.
  intros Hh Hw. unfold np_zeros.
  destruct (Z.ltb_spec h 0); [lia|]. destruct (Z.ltb_spec w 0); [lia|].
  cbn. rewrite !Z2N.id by lia. split; reflexivity.
Qed.

(** The frames of the grid after the missing ones were replaced. *)
Lemma mapM_grid_fill (cell_h cell_w : Z) (os : list (option Image)) :
  0 <= cell_h -> 0 <= cell_w ->
  mapM (grid_fill cell_h cell_w) os
  = Ok (map (fun o => default (Zeros (Z.to_N cell_h) (Z.to_N cell_w)) o) os).
Proof.
  intros Hh Hw. induction os as [|o os IH]; [reflexivity|].
  cbn [mapM map]. rewrite IH.
  destruct o as [f|]; cbn; [reflexivity|].
  destruct (np_zeros_ok cell_h cell_w Hh Hw) as [-> _]. reflexivity.
Qed.

(** The least number of rows that hold [n] cells, [cols] to a row. *)
Lemma ceil_div_spec (n cols : Z) :
  1 <= cols ->
  exists R, ceil_div n cols = Ok R /\ (R - 1) * cols < n <= R * cols.
Proof.
  intros Hc. unfold ceil_div. destruct (Z.eqb_spec cols 0); [lia|].
  eexists; split; [reflexivity|].
  pose proof (Z.div_mod (- n) cols ltac:(lia)).
  pose proof (Z.mod_pos_bound (- n) cols ltac:(lia)). nia.
Qed.

(** The grid compositor on a non-empty accessor list, for a positive
    column count and cell height and non-empty source frames. *)
Lemma mosaic_getter_grid_ok (getters : list getter) (cols cell_h : Z) :
  getters <> [] -> 1 <= cols -> 1 <= cell_h ->
  (forall g f, g ∈ getters -> g tt = Some f -> 0 < rows_of f /\ 0 < cols_of f) ->
  exists canvas R,
    mosaic_getter_grid getters cols cell_h tt = Ok (Some canvas)
    /\ shape canvas = (R * cell_h, cols * grid_cell_w cell_h)
    /\ (R - 1) * cols < len getters <= R * cols
    /\ (forall (i : nat) g, getters !! i = Some g ->
          exists src cell,
            grid_fill cell_h (grid_cell_w cell_h) (g tt) = Ok src
            /\ cv_resize src (grid_cell_w cell_h) cell_h = Ok cell
            /\ shape cell = (cell_h, grid_cell_w cell_h)
            /\ forall y x, 0 <= y < cell_h -> 0 <= x < grid_cell_w cell_h ->
                 pixel_at canvas (Z.of_nat i / cols * cell_h + y)
                                 (Z.of_nat i mod cols * grid_cell_w cell_h + x)
                 = PxOf cell y x)
    /\ (forall j y x, len getters <= j ->
          0 <= y < cell_h -> 0 <= x < grid_cell_w cell_h ->
          pixel_at canvas (j / cols * cell_h + y) (j mod cols * grid_cell_w cell_h + x)
          = Black).
Proof.
  intros Hne Hcols Hh Hsrc.
  pose proof (grid_cell_w_pos cell_h Hh) as Hw.
  set (cell_w := grid_cell_w cell_h) in *.
  set (blank := Zeros (Z.to_N cell_h) (Z.to_N cell_w)).
  set (frames := map (fun o => default blank o) (map (fun g : getter => g tt) getters)).
  assert (Hlen : len frames = len getters).
  { unfold len, frames. rewrite !length_map. reflexivity. }
  assert (Hpos : 1 <= len getters).
  { unfold len. destruct getters; [congruence | cbn [length]; lia]. }
  assert (Hblank : rows_of blank = cell_h /\ cols_of blank = cell_w).
  { unfold rows_of, cols_of, blank; cbn. rewrite !Z2N.id by lia. split; reflexivity. }
  assert (Hall : Forall (fun f => 0 < rows_of f /\ 0 < cols_of f) frames).
  { unfold frames. rewrite !Forall_fmap. apply Forall_forall. intros g Hg.
    unfold compose. destruct (g tt) as [f|] eqn:Eg.
    - apply (Hsrc g f Hg Eg).
    - change (default blank None) with blank. destruct Hblank as [-> ->]. lia. }
  destruct (ceil_div_spec (len frames) cols Hcols) as (R & HR & Hlo & Hhi).
  assert (HRpos : 1 <= R) by nia.
  destruct (np_zeros_ok (R * cell_h) (cols * cell_w)) as [Hz Hzs]; [nia | nia |].
  set (canvas0 := Zeros (Z.to_N (R * cell_h)) (Z.to_N (cols * cell_w))) in *.
  destruct (foldM_grid_paste cols cell_h Hcols Hh frames canvas0 0 R)
    as (canvas & Hrun & Hshape & Hframe & Hcell).
  { unfold rows_of. rewrite Hzs. reflexivity. }
  { unfold cols_of. rewrite Hzs. reflexivity. }
  { lia. }
  { lia. }
  { exact Hall. }
  exists canvas, R. split.
  { unfold mosaic_getter_grid. fold cell_w.
    rewrite mapM_grid_fill by lia. cbn [rbind]. fold blank. fold frames.
    destruct frames as [|f0 fs] eqn:Ef.
    { unfold len in Hlen, Hpos. cbn in Hlen. lia. }
    rewrite <- Ef in *. rewrite HR. cbn [rbind]. rewrite Hz. cbn [rbind].
    unfold enumerate. fold cell_w in Hrun. rewrite Hrun. reflexivity. }
  split; [rewrite Hshape; exact Hzs|].
  split; [rewrite <- Hlen; lia|].
  split.
  - intros i g Hi.
    assert (Hfi : frames !! i = Some (default blank (g tt))).
    { unfold frames.
      apply (lookup_map_Some (fun o => default blank o)).
      apply (lookup_map_Some (fun g0 : getter => g0 tt)). exact Hi. }
    assert (Hin : g ∈ getters) by (apply list_elem_of_lookup; eauto).
    exists (default blank (g tt)),
           (Resized (default blank (g tt)) (Z.to_N cell_w) (Z.to_N cell_h)).
    split.
    { destruct (g tt); cbn; [reflexivity|].
      destruct (np_zeros_ok cell_h cell_w) as [-> _]; [lia | lia | reflexivity]. }
    split.
    { apply (cv_resize_cell cell_h Hh).
      - destruct (g tt) as [f|] eqn:Eg;
          [apply (Hsrc g f Hin Eg)
          | change (default blank None) with blank; destruct Hblank as [-> _]; lia].
      - destruct (g tt) as [f|] eqn:Eg;
          [apply (Hsrc g f Hin Eg)
          | change (default blank None) with blank; destruct Hblank as [_ ->]; lia]. }
    split; [cbn; rewrite !Z2N.id by lia; reflexivity|].
    intros y x Hy Hx.
    specialize (Hcell i _ Hfi y x Hy Hx). rewrite Z.add_0_l in Hcell. exact Hcell.
  - intros j y x Hj Hy Hx.
    rewrite Hframe by (try assumption; right; lia). reflexivity.
Qed.

(** C3, as stated, fails on the empty accessor list: the compositor
    returns no canvas at all.  (It also fails for a cell height of 0, where
    resizing to an empty size raises.) *)
Lemma mosaic_getter_grid_empty_no_canvas :
  mosaic_getter_grid [] 2 360 tt = Ok None
  /\ ~ (exists canvas, mosaic_getter_grid [] 2 360 tt = Ok (Some canvas))
  /\ mosaic_getter_grid [fun _ => Some (Decoded 1 480 640)] 2 0 tt = Raise CvError.
Proof.
  split; [reflexivity|]. split; [|reflexivity].
  intros [canvas H]. vm_compute in H. discriminate.
Qed.

(** C3, amended.  For a non-empty accessor list, a column count of at
    least 1, a cell height of at least 1 and non-empty source frames, the
    grid compositor returns a canvas of [R * cell_h] rows by
    [cols * cell_w] columns, [R] being the least row count that holds all
    cells; a missing frame is replaced by a blank image of exactly
    [(cell_h, cell_w)]; every frame is resized to exactly [(cell_w, cell_h)];
    frame [i] fills the cell at row [i / cols], column [i mod cols]; the
    cells past the last frame stay black. *)
Theorem mosaic_getter_grid_layout (getters : list getter) (cols cell_h : Z) :
  getters <> [] -> 1 <= cols -> 1 <= cell_h ->
  (forall g f, g ∈ getters -> g tt = Some f -> 0 < rows_of f /\ 0 < cols_of f) ->
  exists canvas R,
    mosaic_getter_grid getters cols cell_h tt = Ok (Some canvas)
    /\ shape canvas = (R * cell_h, cols * grid_cell_w cell_h)
    /\ (R - 1) * cols < len getters <= R * cols
    /\ (forall (i : nat) g, getters !! i = Some g ->
          exists src cell,
            match g tt with
            | Some f => src = f
            | None => np_zeros cell_h (grid_cell_w cell_h) = Ok src
                      /\ shape src = (cell_h, grid_cell_w cell_h)
            end
            /\ cv_resize src (grid_cell_w cell_h) cell_h = Ok cell
            /\ shape cell = (cell_h, grid_cell_w cell_h)
            /\ forall y x, 0 <= y < cell_h -> 0 <= x < grid_cell_w cell_h ->
                 pixel_at canvas (Z.of_nat i / cols * cell_h + y)
                                 (Z.of_nat i mod cols * grid_cell_w cell_h + x)
                 = PxOf cell y x)
    /\ (forall j y x, len getters <= j < R * cols ->
          0 <= y < cell_h -> 0 <= x < grid_cell_w cell_h ->
          pixel_at canvas (j / cols * cell_h + y) (j mod cols * grid_cell_w cell_h + x)
          = Black).
Proof.
  intros Hne Hcols Hh Hsrc.
  destruct (mosaic_getter_grid_ok getters cols cell_h Hne Hcols Hh Hsrc)
    as (canvas & R & Hrun & Hshape & HR & Hcell & Hblank).
  exists canvas, R. repeat (split; [assumption|]). split.
  - intros i g Hi. destruct (Hcell i g Hi) as (src & cell & Hfill & Hres & Hcs & Hpix).
    exists src, cell. split; [|auto].
    destruct (g tt) as [f|]; cbn in Hfill.
    + injection Hfill as <-. reflexivity.
    + split; [exact Hfill|].
      pose proof (grid_cell_w_pos cell_h Hh).
      destruct (np_zeros_ok cell_h (grid_cell_w cell_h)) as [Hz Hs]; [lia | lia |].
      rewrite Hz in Hfill. injection Hfill as <-. exact Hs.
  - intros j y x Hj Hy Hx. apply Hblank; [lia | assumption | assumption].
Qed.

(** C3, the example of the specification: five accessors in two columns. *)
Lemma mosaic_getter_grid_layout_witness :
  exists canvas,
    mosaic_getter_grid
      [(fun _ => Some (Decoded 1 480 640)); (fun _ => None);
       (fun _ => Some (Decoded 3 360 480)); (fun _ => Some (Decoded 4 720 1280));
       (fun _ => Some (Decoded 5 200 100))] 2 360 tt = Ok (Some canvas)
    /\ shape canvas = (3 * 360, 2 * 640)
    /\ pixel_at canvas (2 * 360 + 11) (0 * 640 + 7)
       = PxOf (Resized (Decoded 5 200 100) 640 360) 11 7
    /\ pixel_at canvas (2 * 360 + 11) (1 * 640 + 7) = Black.
Proof.
  destruct (mosaic_getter_grid_layout
              [(fun _ => Some (Decoded 1 480 640)); (fun _ => None);
               (fun _ => Some (Decoded 3 360 480)); (fun _ => Some (Decoded 4 720 1280));
               (fun _ => Some (Decoded 5 200 100))] 2 360)
    as (canvas & R & Hrun & Hshape & HR & Hcell & Hblank).
  - discriminate.
  - lia.
  - lia.
  - intros g f Hg Hf.
    repeat (apply elem_of_cons in Hg as [-> | Hg];
            [cbn in Hf; try discriminate; injection Hf as <-; cbn; lia|]).
    apply elem_of_nil in Hg as [].
  - change (grid_cell_w 360) with 640 in *. change (len _) with 5 in *.
    assert (R = 3) as -> by lia.
    exists canvas. split; [exact Hrun|]. split; [exact Hshape|]. split.
    + destruct (Hcell 4%nat _ eq_refl) as (src & cell & Hsrc & Hres & _ & Hpix).
      cbn in Hsrc. subst src. vm_compute in Hres. injection Hres as <-.
      apply (Hpix 11 7); lia.
    + apply (Hblank 5 11 7); lia.
Defined.

(** C6, as stated, fails for the grid: with one accessor that returns no
    frame the grid compositor returns a canvas, while the row compositor
    returns no frame. *)
Lemma mosaic_getter_grid_all_missing_canvas :
  mosaic_getter_row [fun _ => None] tt = Ok None
  /\ mosaic_getter_grid [fun _ => None] 2 360 tt
     = Ok (Some (SetSlice (Zeros 360 1280) 0 360 0 640
                   (Resized (Zeros 360 640) 640 360)))
  /\ mosaic_getter_grid [fun _ => None] 2 360 tt <> Ok None.
Proof.
  split; [reflexivity|]. split; [reflexivity|]. vm_compute. discriminate.
Qed.

(** C6, amended.  For a non-empty accessor list whose accessors all return
    no frame, the row compositor returns no frame; the grid compositor (for
    a column count and a cell height of at least 1) returns a canvas of
    [R * cell_h] by [cols * cell_w] whose cell [i], for each accessor [i],
    shows the resized blank image; the grid compositor returns no frame for
    the empty accessor list. *)
Theorem layouts_all_missing (getters : list getter) :
  getters <> [] -> Forall (fun g : getter => g tt = None) getters ->
  mosaic_getter_row getters tt = Ok None
  /\ (forall cols cell_h, 1 <= cols -> 1 <= cell_h ->
        exists canvas R,
          mosaic_getter_grid getters cols cell_h tt = Ok (Some canvas)
          /\ shape canvas = (R * cell_h, cols * grid_cell_w cell_h)
          /\ (R - 1) * cols < len getters <= R * cols
          /\ forall (i : nat) y x, (i < length getters)%nat ->
               0 <= y < cell_h -> 0 <= x < grid_cell_w cell_h ->
               pixel_at canvas (Z.of_nat i / cols * cell_h + y)
                               (Z.of_nat i mod cols * grid_cell_w cell_h + x)
               = PxOf (Resized (Zeros (Z.to_N cell_h) (Z.to_N (grid_cell_w cell_h)))
                         (Z.to_N (grid_cell_w cell_h)) (Z.to_N cell_h)) y x)
  /\ (forall cols cell_h, mosaic_getter_grid [] cols cell_h tt = Ok None).
Proof.
  intros Hne Hnone. split; [|split].
  - unfold mosaic_getter_row. rewrite omap_id_map.
    rewrite (omap_all_none (fun g : getter => g tt) getters Hnone). reflexivity.
  - intros cols cell_h Hcols Hh.
    destruct (mosaic_getter_grid_ok getters cols cell_h Hne Hcols Hh)
      as (canvas & R & Hrun & Hshape & HR & Hcell & _).
    { intros g f Hg Hf. rewrite Forall_forall in Hnone.
      rewrite (Hnone g Hg) in Hf. discriminate. }
    exists canvas, R. repeat (split; [assumption|]).
    intros i y x Hi Hy Hx.
    destruct (lookup_lt_is_Some_2 getters i Hi) as [g Hg].
    destruct (Hcell i g Hg) as (src & cell & Hfill & Hres & _ & Hpix).
    rewrite Forall_forall in Hnone.
    rewrite (Hnone g) in Hfill by (apply list_elem_of_lookup; eauto).
    cbn in Hfill. pose proof (grid_cell_w_pos cell_h Hh).
    destruct (np_zeros_ok cell_h (grid_cell_w cell_h)) as [Hz _]; [lia | lia |].
    rewrite Hz in Hfill. injection Hfill as <-.
    unfold cv_resize in Hres.
    destruct (_ || _) in Hres; [discriminate|]. injection Hres as <-.
    apply Hpix; assumption.
  - intros cols cell_h. reflexivity.
Qed.

(** C6 on three accessors without a frame. *)
Lemma layouts_all_missing_witness :
  mosaic_getter_row [(fun _ => None); (fun _ => None); (fun _ => None)] tt = Ok None
  /\ exists canvas,
       mosaic_getter_grid [(fun _ => None); (fun _ => None); (fun _ => None)] 2 90 tt
       = Ok (Some canvas)
       /\ shape canvas = (2 * 90, 2 * 160).
Proof.
  destruct (layouts_all_missing [(fun _ => None); (fun _ => None); (fun _ => None)])
    as (Hrow & Hgrid & _).
  - discriminate.
  - repeat constructor.
  - split; [exact Hrow|].
    destruct (Hgrid 2 90) as (canvas & R & Hrun & Hshape & HR & _); [lia | lia |].
    change (len _) with 3 in HR. assert (R = 2) as -> by lia.
    exists canvas. split; [exact Hrun | exact Hshape].
Defined.

(** C4, as stated, fails at cell height 100: the cell is 177 wide, while
    the nearest integer to [100 * 16/9] is 178. *)
Lemma grid_cell_w_not_round :
  grid_cell_w 100 = 177 /\ spec_cell_w 100 = 178
  /\ exists canvas,
       mosaic_getter_grid [fun _ => Some (Decoded 1 480 640)] 1 100 tt = Ok (Some canvas)
       /\ cols_of canvas = 177.
Proof.
  split; [reflexivity|]. split; [reflexivity|].
  eexists. split; [vm_compute; reflexivity | reflexivity].
Qed.

(** C4, amended.  The cell width is [cell_h * 16/9] truncated towards
    zero; it is the nearest integer exactly when the remainder of
    [cell_h * 16] by 9 is at most 4 in absolute value, and one less (for a
    non-negative height) otherwise.  The canvas of a one-cell grid is that
    wide. *)
Theorem grid_cell_w_truncates (cell_h : Z) :
  grid_cell_w cell_h = Z.quot (cell_h * 16) 9
  /\ (grid_cell_w cell_h = spec_cell_w cell_h <-> Z.abs (Z.rem (cell_h * 16) 9) <= 4)
  /\ (0 <= cell_h -> spec_cell_w cell_h - 1 <= grid_cell_w cell_h <= spec_cell_w cell_h)
  /\ (1 <= cell_h ->
      forall f, 0 < rows_of f -> 0 < cols_of f ->
        exists canvas,
          mosaic_getter_grid [fun _ => Some f] 1 cell_h tt = Ok (Some canvas)
          /\ cols_of canvas = Z.quot (cell_h * 16) 9).
Proof.
  rewrite spec_cell_w_floor, grid_cell_w_quot.
  split; [reflexivity|].
  split; [|split].
  - destruct (Z.ltb_spec ((cell_h * 16) mod 9) 5);
      Z.to_euclidean_division_equations; lia.
  - intros Hh. destruct (Z.ltb_spec ((cell_h * 16) mod 9) 5);
      Z.to_euclidean_division_equations; lia.
  - intros Hh f Hr Hc.
    destruct (mosaic_getter_grid_ok [fun _ => Some f] 1 cell_h)
      as (canvas & R & Hrun & Hshape & _); [discriminate | lia | lia | |].
    { intros g f' Hg Hf. apply list_elem_of_singleton in Hg as ->.
      injection Hf as <-. split; assumption. }
    exists canvas. split; [exact Hrun|].
    unfold cols_of. rewrite Hshape. cbn [snd]. rewrite grid_cell_w_quot. lia.
Qed.

(** C4 at cell heights 360 (exact) and 100 (truncated). *)
Lemma grid_cell_w_truncates_witness :
  grid_cell_w 360 = spec_cell_w 360
  /\ spec_cell_w 100 - 1 <= grid_cell_w 100 <= spec_cell_w 100
  /\ exists canvas,
       mosaic_getter_grid [fun _ => Some (Decoded 1 480 640)] 1 100 tt = Ok (Some canvas)
       /\ cols_of canvas = Z.quot (100 * 16) 9.
Proof.
  destruct (grid_cell_w_truncates 360) as (_ & Hiff & _).
  destruct (grid_cell_w_truncates 100) as (_ & _ & Hnear & Hgrid).
  split; [apply Hiff; vm_compute; discriminate|].
  split; [apply Hnear; lia|].
  apply Hgrid; cbn; lia.
Defined.

(** ** The capture thread *)

(** [_resize_h] gives an image of the height asked for, which is then
    positive, and raises for any other height. *)
Lemma resize_h_ok (img fr : Image) (h : Z) :
  CaptureThread._resize_h img h = Ok fr -> rows_of fr = h /\ 0 < h.
Proof.
  unfold CaptureThread._resize_h.
  destruct (float_op _) as [r|]; cbn [rbind]; [|discriminate].
  destruct (float_op _) as [c|]; cbn [rbind]; [|discriminate].
  destruct (float_op _) as [x|]; cbn [rbind]; [|discriminate].
  unfold cv_resize. destruct (_ || _) eqn:E; [discriminate|].
  intros H. injection H as <-.
  apply orb_false_elim in E as [_ E]. apply Z.leb_gt in E.
  unfold rows_of; cbn. rewrite Z2N.id by lia. split; [reflexivity | exact E].
Qed.

Lemma resize_h_nonpos (img : Image) (h : Z) :
  h <= 0 -> exists e, CaptureThread._resize_h img h = Raise e.
Proof.
  intros Hh. destruct (CaptureThread._resize_h img h) as [fr|e] eqn:E; [|eauto].
  apply resize_h_ok in E. lia.
Qed.

(** [_open] touches the capture and the record only. *)
Lemma open_keeps (r : OpenResult) (self : CaptureThread.t) :
  CaptureThread.target_h (CaptureThread._open r self) = CaptureThread.target_h self
  /\ CaptureThread.frame (CaptureThread._open r self) = CaptureThread.frame self
  /\ CaptureThread.label (CaptureThread._open r self) = CaptureThread.label self
  /\ CaptureThread.stop_flag (CaptureThread._open r self) = CaptureThread.stop_flag self
  /\ CaptureThread.status (CaptureThread._open r self) = CaptureThread.status self
  /\ CaptureThread.reconnect_delay_s (CaptureThread._open r self)
     = CaptureThread.reconnect_delay_s self.
Proof.
  unfold CaptureThread._open.
  destruct (CaptureThread.cap self); destruct r; repeat split; reflexivity.
Qed.

(** What [_open] adds to the record: the release of the capture held, if
    any, then the attempt. *)
Lemma open_events (r : OpenResult) (self : CaptureThread.t) :
  CaptureThread.events (CaptureThread._open r self)
  = CaptureThread.events self
      ++ match CaptureThread.cap self with
         | Some c => [ARelease c]
         | None => []
         end
      ++ [AOpen r].
Proof.
  unfold CaptureThread._open.
  destruct (CaptureThread.cap self); destruct r; cbn; rewrite <- ?app_assoc; reflexivity.
Qed.

Lemma read_failed_cases (r : bool * option Image) :
  read_failed r ->
  match r with
  | (true, Some _) => False
  | _ => True
  end.
Proof.
  destruct r as [[|] [f|]]; unfold read_failed; cbn; intros [H | H];
    try discriminate; exact I.
Qed.

(** Whatever the capture object is, a failing answer of the outside world
    makes [read] fail. *)
Lemma read_failed_read (io : IterIO) (self : CaptureThread.t) :
  read_failed (io_read io) -> read_failed (CaptureThread.read io self).
Proof.
  intros H. unfold CaptureThread.read.
  destruct (CaptureThread.cap self) as [c|]; [|left; reflexivity].
  destruct (cap_opened c); [exact H | left; reflexivity].
Qed.

(** The failure branch of [run_iter], spelled out. *)
Lemma run_iter_failed (io : IterIO) (self : CaptureThread.t) :
  CaptureThread.stop_flag self = false ->
  read_failed (CaptureThread.read io self) ->
  CaptureThread.run_iter io self
  = let self1 :=
      if Qle_bool (CaptureThread.reconnect_delay_s self)
           (io_now io - CaptureThread.last_try self)
      then CaptureThread.set_last_try (io_now' io)
             (CaptureThread._open (io_open io) self)
      else self in
    match np_zeros (CaptureThread.target_h self1) (CaptureThread.target_h self1) with
    | Ok ph =>
        let ph := cv_putText ph (CaptureThread.placeholder_text self1) (10, 30)
                    (8 # 10) (0, 0, 255) 2 in
        CaptureThread.emit (ASleep (5 # 100))
          (CaptureThread.emit (AStore ph) (CaptureThread.set_frame (Some ph) self1))
    | Raise _ => CaptureThread.set_status Finished self1
    end.
Proof.
  intros Hstop Hfail. unfold CaptureThread.run_iter. rewrite Hstop.
  apply read_failed_cases in Hfail.
  destruct (CaptureThread.read io self) as [[|] [f|]]; [contradiction | | |];
    reflexivity.
Qed.

(** C8.  On a failed read the thread calls [_open] exactly once when the
    cool-down [reconnect_delay_s] has elapsed since [last_try], and not at
    all otherwise; the decision looks at the clock, [last_try] and the
    delay only, whatever the thread did before.  A reopen releases the
    capture the thread held, if it held one, and then installs a capture
    for the thread's own URL, opened or not as the attempt went, or no
    capture when the attempt raised; nothing else in the turn acts on a
    capture.  After a reopen [last_try] is the clock reading taken after
    the attempt, whatever its outcome; without one, [last_try] and the
    capture object are untouched and the turn acts on no capture.  The
    delay of a thread built with the defaults is 2 seconds. *)
Theorem reconnect_is_time_based (io : IterIO) (self : CaptureThread.t) :
  CaptureThread.stop_flag self = false ->
  read_failed (CaptureThread.read io self) ->
  let self' := CaptureThread.run_iter io self in
  ((CaptureThread.reconnect_delay_s self <= io_now io - CaptureThread.last_try self)%Q ->
     count_opens (CaptureThread.events self')
     = S (count_opens (CaptureThread.events self))
     /\ CaptureThread.last_try self' = io_now' io
     /\ (exists rest,
          CaptureThread.events self'
          = CaptureThread.events self
              ++ match CaptureThread.cap self with
                 | Some c => [ARelease c]
                 | None => []
                 end
              ++ AOpen (io_open io) :: rest
          /\ Forall (fun e => touches_capture e = false) rest)
     /\ CaptureThread.cap self'
        = match io_open io with
          | Connected =>
              Some {| cap_url := CaptureThread.url self; cap_opened := true |}
          | NotOpened =>
              Some {| cap_url := CaptureThread.url self; cap_opened := false |}
          | OpenRaised => None
          end)
  /\ (~ (CaptureThread.reconnect_delay_s self <= io_now io - CaptureThread.last_try self)%Q ->
        count_opens (CaptureThread.events self') = count_opens (CaptureThread.events self)
        /\ CaptureThread.last_try self' = CaptureThread.last_try self
        /\ CaptureThread.cap self' = CaptureThread.cap self
        /\ exists rest,
             CaptureThread.events self' = CaptureThread.events self ++ rest
             /\ Forall (fun e => touches_capture e = false) rest)
  /\ (forall name url label target_h,
        CaptureThread.reconnect_delay_s (CaptureThread.init name url label target_h) = 2%Q).
Proof.
  intros Hstop Hfail self'. subst self'. rewrite run_iter_failed by assumption.
  split; [|split].
  - intros Hle. apply Qle_bool_iff in Hle. rewrite Hle. cbn zeta.
    unfold count_opens, CaptureThread._open.
    destruct (CaptureThread.cap self) as [c|]; destruct (io_open io);
      destruct (np_zeros _ _); cbn;
      rewrite ?List.filter_app, ?length_app; cbn;
      (split; [lia|]); (split; [reflexivity|]);
      (split; [|reflexivity]); eexists;
      (split; [rewrite <- ?app_assoc; cbn; reflexivity | repeat constructor]).
  - intros Hnle.
    destruct (Qle_bool _ _) eqn:E; [apply Qle_bool_iff in E; contradiction|].
    cbn zeta. unfold count_opens. destruct (np_zeros _ _); cbn;
      rewrite ?List.filter_app, ?length_app; cbn;
      (split; [lia|]); (split; [reflexivity|]); (split; [reflexivity|]); eexists;
      (split; [rewrite <- ?app_assoc; cbn; first [reflexivity | symmetry; apply app_nil_r]
              | repeat constructor]).
  - reflexivity.
Qed.

(** C8 on a thread that has failed before: 1.5 s after the last attempt
    nothing is reopened, 2 s after it the held capture is released, one
    reopen is made for the thread's URL and its time recorded. *)
Lemma reconnect_is_time_based_witness :
  let self := CaptureThread.set_last_try 1000
                (CaptureThread._open NotOpened
                   (CaptureThread.start (CaptureThread.init "CH1" "rtsp://dvr/1" "CH1" 360))) in
  let early := {| io_read := (false, None); io_now := 1001 + (1 # 2);
                  io_open := NotOpened; io_now' := 1003 |} in
  let late := {| io_read := (false, None); io_now := 1002;
                 io_open := Connected; io_now' := 1007 |} in
  count_opens (CaptureThread.events (CaptureThread.run_iter early self)) = 1%nat
  /\ CaptureThread.last_try (CaptureThread.run_iter early self) = 1000%Q
  /\ CaptureThread.cap (CaptureThread.run_iter early self)
     = Some {| cap_url := "rtsp://dvr/1"; cap_opened := false |}
  /\ count_opens (CaptureThread.events (CaptureThread.run_iter late self)) = 2%nat
  /\ CaptureThread.last_try (CaptureThread.run_iter late self) = 1007%Q
  /\ CaptureThread.cap (CaptureThread.run_iter late self)
     = Some {| cap_url := "rtsp://dvr/1"; cap_opened := true |}.
Proof.
  intros self early late.
  destruct (reconnect_is_time_based early self) as (_ & Hno & _);
    [reflexivity | left; reflexivity |].
  destruct (reconnect_is_time_based late self) as (Hyes & _ & _);
    [reflexivity | left; reflexivity |].
  destruct Hno as (H1 & H2 & H3 & _); [vm_compute; intros H; apply H; reflexivity|].
  destruct Hyes as (H4 & H5 & _ & H6); [vm_compute; discriminate|].
  repeat split; assumption.
Defined.

(** What a failed turn leaves behind, for a non-negative target height. *)
Lemma run_iter_failed_fields (io : IterIO) (self : CaptureThread.t) :
  CaptureThread.stop_flag self = false ->
  read_failed (CaptureThread.read io self) ->
  0 <= CaptureThread.target_h self ->
  let self' := CaptureThread.run_iter io self in
  CaptureThread.target_h self' = CaptureThread.target_h self
  /\ CaptureThread.label self' = CaptureThread.label self
  /\ CaptureThread.stop_flag self' = false
  /\ CaptureThread.status self' = CaptureThread.status self
  /\ CaptureThread.frame self'
     = Some (PutText (Zeros (Z.to_N (CaptureThread.target_h self))
                            (Z.to_N (CaptureThread.target_h self)))
               (CaptureThread.label self +:+ " (reconectando...)")
               (10, 30) (8 # 10) (0, 0, 255) 2).
Proof.
  intros Hstop Hfail Hth self'. subst self'. rewrite run_iter_failed by assumption.
  assert (Hz : np_zeros (CaptureThread.target_h self) (CaptureThread.target_h self)
               = Ok (Zeros (Z.to_N (CaptureThread.target_h self))
                           (Z.to_N (CaptureThread.target_h self))))
    by (apply np_zeros_ok; assumption).
  destruct (Qle_bool _ _);
    [unfold CaptureThread._open; destruct (CaptureThread.cap self); destruct (io_open io)|];
    cbn; rewrite Hz; cbn; rewrite ?Hstop; repeat split; reflexivity.
Qed.

(** A run of turns whose reads all fail. *)
Lemma run_loop_failed (ios : list IterIO) :
  forall self : CaptureThread.t,
    0 <= CaptureThread.target_h self ->
    CaptureThread.stop_flag self = false ->
    CaptureThread.status self = Running ->
    Forall (fun io => read_failed (io_read io)) ios ->
    let self' := CaptureThread.run_loop ios self in
    CaptureThread.target_h self' = CaptureThread.target_h self
    /\ CaptureThread.label self' = CaptureThread.label self
    /\ CaptureThread.status self' = Running
    /\ (ios <> [] ->
        CaptureThread.frame self'
        = Some (PutText (Zeros (Z.to_N (CaptureThread.target_h self))
                               (Z.to_N (CaptureThread.target_h self)))
                  (CaptureThread.label self +:+ " (reconectando...)")
                  (10, 30) (8 # 10) (0, 0, 255) 2)).
Proof.
  induction ios as [|io ios IH]; intros self Hth Hstop Hrun Hall; cbn zeta.
  - cbn. repeat split; try assumption. congruence.
  - apply Forall_cons in Hall as [Hio Hall].
    cbn [CaptureThread.run_loop]. rewrite Hrun.
    destruct (run_iter_failed_fields io self Hstop (read_failed_read io self Hio) Hth)
      as (Eth & Elab & Estop & Est & Efr).
    destruct (IH (CaptureThread.run_iter io self)) as (Ith & Ilab & Ist & Ifr);
      [rewrite Eth; exact Hth | exact Estop | rewrite Est; exact Hrun | exact Hall |].
    rewrite Eth in Ith, Ifr. rewrite Elab in Ilab, Ifr.
    repeat split; try assumption.
    intros _. destruct ios as [|io' ios'].
    + cbn. exact Efr.
    + apply Ifr. discriminate.
Qed.

(** C7, as stated, fails twice.  On the text: the placeholder of a thread
    labelled [CH1] carries ["CH1 (reconectando...)"].  On the time: a
    thread built with the defaults (cool-down 2 s) serves nothing after
    the open attempt of its entry, and its first turn, whose cool-down
    test reads the clock at 1700000000, stores the first placeholder only
    after a second open attempt, which returns when the clock reads
    1700000005: more than one cool-down period after a reading that was
    itself taken after the start. *)
Lemma placeholder_not_as_stated :
  let self := CaptureThread.start (CaptureThread.init "CH1" "rtsp://dvr" "CH1" 360) in
  let io := {| io_read := (false, None); io_now := 1700000000;
               io_open := NotOpened; io_now' := 1700000005 |} in
  let ph := PutText (Zeros 360 360) "CH1 (reconectando...)" (10, 30) (8 # 10) (0, 0, 255) 2 in
  (CaptureThread.get_frame (CaptureThread.run NotOpened [io] self) = Some ph
   /\ CaptureThread.get_frame (CaptureThread.run NotOpened [io] self)
      <> Some (PutText (Zeros 360 360) (spec_placeholder_text "CH1") (10, 30) (8 # 10)
                 (0, 0, 255) 2))
  /\ (CaptureThread.get_frame (CaptureThread.run_enter NotOpened self) = None
      /\ CaptureThread.events (CaptureThread.run NotOpened [io] self)
         = [AOpen NotOpened;
            ARelease {| cap_url := "rtsp://dvr"; cap_opened := false |};
            AOpen NotOpened; AStore ph; ASleep (5 # 100)]
      /\ CaptureThread.last_try (CaptureThread.run NotOpened [io] self) = io_now' io
      /\ (CaptureThread.reconnect_delay_s self < io_now' io - io_now io)%Q).
Proof.
  cbn zeta. split; [split|].
  - reflexivity.
  - vm_compute. discriminate.
  - repeat split; reflexivity.
Qed.

(** C7, amended.  For a positive target height, every turn of the read
    loop whose read fails stores as latest frame a black image of exactly
    [(target_h, target_h)] with the text ["<label> (reconectando...)"]
    drawn on it, whether or not a reopen was tried and whatever it gave;
    so a running thread whose reads all fail serves that placeholder from
    its first turn on and keeps running.  Before that turn it serves what
    it held at the start, for a new thread nothing: the entry of [run]
    stores no frame.  The first turn of a run, when its read fails and
    the clock reads at least the cool-down, stores the placeholder after
    two open attempts, the one of the entry and a reopen, and after the
    clock reading taken when the reopen returned; no bound on that
    reading follows from the cool-down. *)
Theorem placeholder_on_failed_read (self : CaptureThread.t) :
  0 < CaptureThread.target_h self ->
  CaptureThread.stop_flag self = false ->
  exists blank,
    let ph := cv_putText blank (CaptureThread.label self +:+ " (reconectando...)")
                (10, 30) (8 # 10) (0, 0, 255) 2 in
    np_zeros (CaptureThread.target_h self) (CaptureThread.target_h self) = Ok blank
    /\ shape ph = (CaptureThread.target_h self, CaptureThread.target_h self)
    /\ (forall io, read_failed (CaptureThread.read io self) ->
          CaptureThread.get_frame (CaptureThread.run_iter io self) = Some ph)
    /\ (CaptureThread.status self = Running ->
        forall ios, ios <> [] -> Forall (fun io => read_failed (io_read io)) ios ->
          CaptureThread.get_frame (CaptureThread.run_loop ios self) = Some ph
          /\ CaptureThread.status (CaptureThread.run_loop ios self) = Running)
    /\ (forall r, CaptureThread.get_frame (CaptureThread.run_enter r self)
                  = CaptureThread.get_frame self)
    /\ (CaptureThread.status self = Running ->
        forall r io,
          read_failed (io_read io) ->
          (CaptureThread.reconnect_delay_s self <= io_now io)%Q ->
          let self' := CaptureThread.run r [io] self in
          CaptureThread.get_frame self' = Some ph
          /\ CaptureThread.last_try self' = io_now' io
          /\ exists opens,
               CaptureThread.events self'
               = CaptureThread.events self ++ opens ++ [AStore ph; ASleep (5 # 100)]
               /\ count_opens opens = 2%nat
               /\ Forall (fun e => touches_capture e = true) opens).
Proof.
  intros Hth Hstop.
  destruct (np_zeros_ok (CaptureThread.target_h self) (CaptureThread.target_h self))
    as [Hz Hs]; [lia | lia |].
  eexists. cbn zeta. split; [exact Hz|]. split; [exact Hs|]. split; [|split; [|split]].
  - intros io Hfail.
    destruct (run_iter_failed_fields io self Hstop Hfail) as (_ & _ & _ & _ & Hfr);
      [lia | exact Hfr].
  - intros Hrun ios Hne Hall.
    destruct (run_loop_failed ios self) as (_ & _ & Hst & Hfr);
      [lia | assumption | assumption | assumption |].
    split; [exact (Hfr Hne) | exact Hst].
  - intros r. exact (proj1 (proj2 (open_keeps r self))).
  - intros Hrun r io Hio Hclock.
    set (s1 := CaptureThread.run_enter r self).
    destruct (open_keeps r self) as (Kth & _ & Klab & Kstop & Kst & Kdel).
    assert (Hs1 : CaptureThread.status s1 = Running) by (rewrite <- Hrun; exact Kst).
    assert (Hf1 : CaptureThread.stop_flag s1 = false) by (rewrite <- Hstop; exact Kstop).
    assert (Hq : Qle_bool (CaptureThread.reconnect_delay_s s1)
                   (io_now io - CaptureThread.last_try s1) = true).
    { apply Qle_bool_iff.
      change (CaptureThread.reconnect_delay_s s1)
        with (CaptureThread.reconnect_delay_s (CaptureThread._open r self)).
      change (CaptureThread.last_try s1) with 0%Q. rewrite Kdel. lra. }
    set (s2 := CaptureThread.set_last_try (io_now' io)
                 (CaptureThread._open (io_open io) s1)).
    destruct (open_keeps (io_open io) s1) as (Lth & _ & Llab & _).
    assert (Hth2 : CaptureThread.target_h s2 = CaptureThread.target_h self).
    { change (CaptureThread.target_h s2)
        with (CaptureThread.target_h (CaptureThread._open (io_open io) s1)).
      rewrite Lth. exact Kth. }
    assert (Hlab2 : CaptureThread.label s2 = CaptureThread.label self).
    { change (CaptureThread.label s2)
        with (CaptureThread.label (CaptureThread._open (io_open io) s1)).
      rewrite Llab. exact Klab. }
    assert (Hrun1 : CaptureThread.run r [io] self
                    = CaptureThread.emit (ASleep (5 # 100))
                        (CaptureThread.emit
                           (AStore (cv_putText (Zeros (Z.to_N (CaptureThread.target_h self))
                                                  (Z.to_N (CaptureThread.target_h self)))
                                      (CaptureThread.label self +:+ " (reconectando...)")
                                      (10, 30) (8 # 10) (0, 0, 255) 2))
                           (CaptureThread.set_frame
                              (Some (cv_putText (Zeros (Z.to_N (CaptureThread.target_h self))
                                                   (Z.to_N (CaptureThread.target_h self)))
                                       (CaptureThread.label self +:+ " (reconectando...)")
                                       (10, 30) (8 # 10) (0, 0, 255) 2))
                              s2))).
    { unfold CaptureThread.run. fold s1. cbn [CaptureThread.run_loop]. rewrite Hs1.
      rewrite (run_iter_failed io s1 Hf1 (read_failed_read io s1 Hio)).
      rewrite Hq. cbn zeta. fold s2. rewrite Hth2, Hz.
      unfold CaptureThread.placeholder_text. rewrite Hlab2. reflexivity. }
    rewrite Hrun1. split; [reflexivity|]. split; [reflexivity|].
    exists (match CaptureThread.cap self with Some c => [ARelease c] | None => [] end
            ++ [AOpen r]
            ++ match CaptureThread.cap s1 with Some c => [ARelease c] | None => [] end
            ++ [AOpen (io_open io)]).
    split; [|split].
    + cbn [CaptureThread.events CaptureThread.emit CaptureThread.set_frame].
      change (CaptureThread.events s2)
        with (CaptureThread.events (CaptureThread._open (io_open io) s1)).
      rewrite open_events.
      change (CaptureThread.events s1)
        with (CaptureThread.events (CaptureThread._open r self)).
      rewrite open_events. rewrite <- !app_assoc. reflexivity.
    + unfold count_opens.
      destruct (CaptureThread.cap self), (CaptureThread.cap s1); reflexivity.
    + destruct (CaptureThread.cap self), (CaptureThread.cap s1); repeat constructor.
Qed.

(** C7 on a thread that never connects: nothing is served before the first
    turn; then three failed turns, with reopens that fail in three
    different ways, all serve the placeholder. *)
Lemma placeholder_on_failed_read_witness :
  let self0 := CaptureThread.start (CaptureThread.init "CH7" "rtsp://dvr" "CH7" 240) in
  let self := CaptureThread.run_enter OpenRaised self0 in
  let ios := [ {| io_read := (false, None); io_now := 1700000000;
                  io_open := NotOpened; io_now' := 1700000005 |};
               {| io_read := (true, None); io_now := 1700000006;
                  io_open := Connected; io_now' := 1700000006 |};
               {| io_read := (false, None); io_now := 1700000008;
                  io_open := OpenRaised; io_now' := 1700000009 |} ] in
  CaptureThread.get_frame (CaptureThread.run_loop ios self)
  = Some (PutText (Zeros 240 240) "CH7 (reconectando...)" (10, 30) (8 # 10) (0, 0, 255) 2)
  /\ shape (PutText (Zeros 240 240) "CH7 (reconectando...)" (10, 30) (8 # 10) (0, 0, 255) 2)
     = (240, 240)
  /\ CaptureThread.get_frame self = CaptureThread.get_frame self0.
Proof.
  intros self0 self ios.
  destruct (placeholder_on_failed_read self) as (blank & Hz & Hs & _ & Hrun & _);
    [cbn; lia | reflexivity |].
  destruct (placeholder_on_failed_read self0) as (_ & _ & _ & _ & _ & Henter & _);
    [cbn; lia | reflexivity |].
  vm_compute in Hz. injection Hz as <-.
  destruct (Hrun eq_refl ios) as [Hfr _].
  - discriminate.
  - constructor; [left; reflexivity|]. constructor; [right; reflexivity|].
    constructor; [left; reflexivity|]. constructor.
  - split; [exact Hfr|]. split; [exact Hs | exact (Henter OpenRaised)].
Defined.

(** ** The stream registry *)

(** The references [threads.values()] lists are those registered. *)
Lemma elem_of_thread_values (s : StreamState.t) (tid : nat) :
  tid ∈ StreamState.thread_values s
  <-> exists ch, StreamState.threads s !! ch = Some tid.
Proof.
  unfold StreamState.thread_values. split.
  - intros H. apply list_elem_of_fmap in H as ([ch tid'] & -> & Hm).
    rewrite merge_sort_Permutation in Hm. apply elem_of_map_to_list in Hm. eauto.
  - intros [ch H]. apply list_elem_of_fmap. exists (ch, tid). split; [reflexivity|].
    rewrite merge_sort_Permutation. apply elem_of_map_to_list. exact H.
Qed.

Lemma mapM_raise {A B : Type} (f : A -> result B) (l : list A) :
  (exists x e, x ∈ l /\ f x = Raise e) -> exists e, mapM f l = Raise e.
Proof.
  intros (x & e & Hin & Hx). induction Hin as [x l | x y l Hin IH]; cbn.
  - rewrite Hx. eauto.
  - destruct (f y) as [b | e']; cbn; [|eauto].
    destruct (IH Hx) as [e'' ->]. eauto.
Qed.

Lemma coerce_rejected (chs : PyVal) :
  channels_rejected chs -> exists e, _coerce_channels chs = Raise e.
Proof.
  destruct chs; cbn; intros H; try contradiction; eauto using mapM_raise.
Qed.

(** [stop] twice is [stop] once. *)
Lemma stop_idempotent (t : CaptureThread.t) :
  CaptureThread.stop (CaptureThread.stop t) = CaptureThread.stop t.
Proof.
  unfold CaptureThread.stop. cbn. destruct (CaptureThread.cap t); reflexivity.
Qed.

(** The loop of [stop_all_locked] over a list of references: it touches
    the thread objects only, stopping exactly the referenced ones, and
    records one call per reference. *)
Lemma fold_stop_thread (tids : list nat) :
  forall p : Process,
    let p' := fold_left stop_thread tids p in
    STATE p' = STATE p
    /\ ffmpeg_capture_options p' = ffmpeg_capture_options p
    /\ trace p' = trace p ++ map StopCalled tids
    /\ length (objects p') = length (objects p)
    /\ forall i, objects p' !! i
                 = (if bool_decide (i ∈ tids) then CaptureThread.stop else id)
                     <$> objects p !! i.
Proof.
  induction tids as [|a tids IH]; intros p; cbn zeta.
  - cbn. rewrite app_nil_r. repeat split; try reflexivity.
    intros i. destruct (objects p !! i); reflexivity.
  - cbn [fold_left]. destruct (IH (stop_thread p a)) as (HS & Ho & Ht & Hl & Hobj).
    rewrite HS, Ho, Ht, Hl. cbn. rewrite <- app_assoc. cbn.
    split; [reflexivity|]. split; [reflexivity|]. split; [reflexivity|].
    split; [apply length_alter|].
    intros i. rewrite Hobj. cbn.
    destruct (decide (i = a)) as [-> | Hne].
    + rewrite list_lookup_alter_eq.
      rewrite (bool_decide_eq_true_2 (a ∈ a :: tids)) by left.
      destruct (objects p !! a) as [t|]; cbn; [|reflexivity].
      destruct (bool_decide (a ∈ tids)); cbn; [rewrite stop_idempotent|]; reflexivity.
    + rewrite list_lookup_alter_ne by congruence.
      destruct (bool_decide (i ∈ tids)) eqn:E.
      * rewrite (bool_decide_eq_true_2 (i ∈ a :: tids)); [reflexivity|].
        right. apply bool_decide_eq_true in E. exact E.
      * rewrite (bool_decide_eq_false_2 (i ∈ a :: tids)); [reflexivity|].
        apply bool_decide_eq_false in E. intros Hin.
        apply elem_of_cons in Hin as [? | ?]; [congruence | contradiction].
Qed.

Section StartStreams.

Variables v_ip v_user v_password : string.
Variables v_subtype v_height : Z.

#[local, warnings="-notation-for-abbreviation"]
Notation start_one := (start_channel v_ip v_user v_password v_subtype v_height).
#[local, warnings="-notation-for-abbreviation"]
Notation fresh := (new_thread v_ip v_user v_password v_subtype v_height).

Lemma start_channel_fields (p : Process) (ch : Z) :
  let p' := start_one p ch in
  objects p' = objects p ++ [fresh ch]
  /\ trace p' = trace p ++ [ThreadStarted (length (objects p))]
  /\ StreamState.getters (STATE p')
     = <[ch := length (objects p)]> (StreamState.getters (STATE p))
  /\ StreamState.threads (STATE p')
     = <[ch := length (objects p)]> (StreamState.threads (STATE p))
  /\ StreamState.config (STATE p') = StreamState.config (STATE p).
Proof.
  unfold start_one, start_channel.
  destruct (CaptureThread.capture_options _ _); cbn; repeat split; reflexivity.
Qed.

(** The loop [for ch in channels] of [start_streams]: one fresh running
    thread object per channel, in order; a channel of the list ends up
    registered to a thread started for it, any other channel keeps its
    entry. *)
Lemma fold_start_channel (chs : list Z) :
  forall p : Process,
    let p' := fold_left start_one chs p in
    objects p' = objects p ++ map fresh chs
    /\ trace p'
       = trace p ++ map ThreadStarted (seq (length (objects p)) (length chs))
    /\ StreamState.config (STATE p') = StreamState.config (STATE p)
    /\ (forall ch, ch ∉ chs ->
          StreamState.getters (STATE p') !! ch = StreamState.getters (STATE p) !! ch
          /\ StreamState.threads (STATE p') !! ch
             = StreamState.threads (STATE p) !! ch)
    /\ (forall ch, ch ∈ chs ->
          exists i : nat,
            chs !! i = Some ch
            /\ StreamState.getters (STATE p') !! ch
               = Some (length (objects p) + i)%nat
            /\ StreamState.threads (STATE p') !! ch
               = Some (length (objects p) + i)%nat).
Proof.
  induction chs as [|c chs IH]; intros p; cbn zeta.
  - cbn. rewrite !app_nil_r. repeat split; try reflexivity.
    intros ch Hin. apply elem_of_nil in Hin as [].
  - cbn [fold_left].
    destruct (start_channel_fields p c) as (Eo & Et & Eg & Eth & Ec).
    destruct (IH (start_one p c)) as (Ho & Ht & Hc & Hout & Hin).
    rewrite Eo in Ho, Ht, Hin. rewrite length_app in Ht, Hin. cbn [length] in Ht, Hin.
    split; [rewrite Ho, <- app_assoc; reflexivity|].
    split.
    { rewrite Ht, Et, <- app_assoc. cbn [map seq length app].
      rewrite Nat.add_1_r. reflexivity. }
    split; [rewrite Hc; exact Ec|].
    split.
    + intros ch Hch. apply not_elem_of_cons in Hch as [Hne Hch].
      destruct (Hout ch Hch) as [-> ->]. rewrite Eg, Eth.
      rewrite !lookup_insert_ne by congruence. split; reflexivity.
    + intros ch Hch. destruct (decide (ch ∈ chs)) as [Hc' | Hc'].
      * destruct (Hin ch Hc') as (i & Hi & Hg & Hth). exists (S i).
        split; [exact Hi|]. rewrite Hg, Hth. split; f_equal; lia.
      * apply elem_of_cons in Hch as [-> | ?]; [|contradiction].
        exists 0%nat. split; [reflexivity|].
        destruct (Hout c Hc') as [-> ->]. rewrite Eg, Eth.
        rewrite !lookup_insert_eq, Nat.add_0_r. split; reflexivity.
Qed.

(** A call of [start_streams] whose channels are accepted. *)
Lemma start_streams_ok (chs : PyVal) (l : list Z) (p : Process) :
  _coerce_channels chs = Ok l ->
  let olds := StreamState.thread_values (STATE p) in
  let r := start_streams v_ip v_user v_password chs v_subtype v_height p in
  fst r = Ok tt
  /\ objects (snd r)
     = map (fun it => (if bool_decide (fst it ∈ olds) then CaptureThread.stop else id)
                        (snd it))
           (zip (seq 0 (length (objects p))) (objects p))
       ++ map fresh l
  /\ trace (snd r)
     = trace p ++ [LockAcquire] ++ map StopCalled olds
         ++ map ThreadStarted (seq (length (objects p)) (length l))
         ++ [LockRelease]
  /\ StreamState.config (STATE (snd r))
     = {| ip := v_ip; user := v_user; password := v_password; channels := l;
          subtype := v_subtype; target_height := v_height |}
  /\ (forall ch, ch ∉ l ->
        StreamState.getters (STATE (snd r)) !! ch = None
        /\ StreamState.threads (STATE (snd r)) !! ch = None)
  /\ (forall ch, ch ∈ l ->
        exists i : nat,
          l !! i = Some ch
          /\ StreamState.getters (STATE (snd r)) !! ch
             = Some (length (objects p) + i)%nat
          /\ StreamState.threads (STATE (snd r)) !! ch
             = Some (length (objects p) + i)%nat).
Proof.
  intros Hco olds r. subst r. unfold start_streams. rewrite Hco. cbn [fst snd].
  destruct (fold_stop_thread olds (record LockAcquire p)) as (HS & _ & Ht & Hl & Hobj).
  fold olds. unfold stop_all_locked. cbn [STATE record]. fold olds.
  set (p1 := fold_left stop_thread olds (record LockAcquire p)) in *.
  match goal with
  | |- context [fold_left ?f l ?q] =>
      change f with start_one; set (p2 := q)
  end.
  destruct (fold_start_channel l p2) as (Ho & Htr & Hc & Hout & Hin).
  cbn [trace record objects STATE] in *.
  change (objects p2) with (objects p1) in *. change (trace p2) with (trace p1) in *.
  rewrite Hl in *. cbn [objects record] in Hl, Htr, Hin.
  split; [reflexivity|]. split.
  { rewrite Ho. f_equal. apply list_eq. intros i.
    rewrite Hobj. cbn [objects record]. rewrite lookup_map.
    rewrite lookup_zip_with.
    destruct (decide (i < length (objects p))%nat) as [Hlt | Hge].
    - rewrite lookup_seq_lt by lia.
      destruct (lookup_lt_is_Some_2 (objects p) i Hlt) as [t Ei].
      rewrite Ei. reflexivity.
    - rewrite lookup_seq_ge by lia.
      rewrite (lookup_ge_None_2 (objects p) i) by lia. reflexivity. }
  split.
  { rewrite Htr, Ht. cbn [trace record]. rewrite <- !app_assoc. reflexivity. }
  split; [rewrite Hc; reflexivity|].
  split.
  - intros ch Hch. destruct (Hout ch Hch) as [-> ->]. cbn.
    rewrite !lookup_empty. split; reflexivity.
  - exact Hin.
Qed.

End StartStreams.

(** The registry after one accepted call. *)
Lemma registry_after_call (c : Call) (l : list Z) (p : Process) :
  _coerce_channels (c_channels c) = Ok l -> registry_serves l (do_call p c).
Proof.
  intros Hco. unfold do_call.
  destruct (start_streams_ok (c_ip c) (c_user c) (c_password c) (c_subtype c)
              (c_target_height c) (c_channels c) l p Hco)
    as (_ & Hobj & _ & _ & Hout & Hin).
  set (p' := snd (start_streams _ _ _ _ _ _ p)) in *.
  assert (Hdom : forall m : gmap Z nat,
             (forall ch, ch ∉ l -> m !! ch = None) ->
             (forall ch, ch ∈ l -> is_Some (m !! ch)) ->
             dom m = list_to_set l).
  { intros m Hn Hs. apply set_eq. intros ch.
    rewrite elem_of_dom, elem_of_list_to_set. split.
    - intros Hsome. destruct (decide (ch ∈ l)) as [|Hni]; [assumption|].
      rewrite (Hn ch Hni) in Hsome. destruct Hsome; discriminate.
    - apply Hs. }
  split; [|split; [|split]].
  - apply Hdom; [intros ch Hch; apply (Hout ch Hch)|].
    intros ch Hch. destruct (Hin ch Hch) as (i & _ & -> & _). eauto.
  - apply Hdom; [intros ch Hch; apply (Hout ch Hch)|].
    intros ch Hch. destruct (Hin ch Hch) as (i & _ & _ & ->). eauto.
  - intros ch Hch. destruct (Hin ch Hch) as (i & Hi & Hg & Ht).
    exists (length (objects p) + i)%nat,
           (new_thread (c_ip c) (c_user c) (c_password c) (c_subtype c)
              (c_target_height c) ch).
    split; [exact Hg|]. split; [exact Ht|]. split.
    + rewrite Hobj. rewrite lookup_app_r;
        rewrite length_map, length_zip, length_seq, Nat.min_id; [|lia].
      replace (length (objects p) + i - length (objects p))%nat with i by lia.
      apply lookup_map_Some. exact Hi.
    + repeat split; reflexivity.
  - intros ch Hch. apply (Hout ch Hch).
Qed.

(** A refused call leaves the process as it was. *)
Lemma do_call_rejected (c : Call) (e : Exn) (p : Process) :
  _coerce_channels (c_channels c) = Raise e -> do_call p c = p.
Proof. intros H. unfold do_call, start_streams. rewrite H. reflexivity. Qed.

(** C1.  After any sequence of [start_streams] calls of which at least one
    was accepted, the key sets of [STATE.getters] and [STATE.threads] are
    exactly the channels of the most recent accepted call: each of them
    looks up to an accessor bound to a running thread started for it, and
    every other channel looks up to nothing. *)
Theorem registry_matches_last_request (cs : list Call) (l : list Z) (p : Process) :
  last_requested cs = Some l ->
  let p' := do_calls cs p in
  dom (StreamState.getters (STATE p')) = list_to_set l
  /\ dom (StreamState.threads (STATE p')) = list_to_set l
  /\ (forall ch, ch ∈ l ->
        exists tid t,
          get_accessor ch p' = Some tid
          /\ StreamState.threads (STATE p') !! ch = Some tid
          /\ objects p' !! tid = Some t
          /\ CaptureThread.status t = Running
          /\ CaptureThread.stop_flag t = false
          /\ CaptureThread.label t = "CH" +:+ pretty ch)
  /\ (forall ch, ch ∉ l -> get_accessor ch p' = None).
Proof.
  intros Hl p'. subst p'. change (registry_serves l (do_calls cs p)).
  revert l Hl. induction cs as [|c cs IH] using rev_ind; intros l Hl.
  - discriminate.
  - unfold last_requested, do_calls in *. rewrite fold_left_app in *.
    cbn [fold_left] in *.
    destruct (_coerce_channels (c_channels c)) as [l' | e] eqn:Hco.
    + injection Hl as <-. apply registry_after_call. exact Hco.
    + rewrite (do_call_rejected c e _ Hco). apply IH. exact Hl.
Qed.

(** C1 on three calls: channels 1..4, then a refused call, then the
    channels 2 and 7 given as text and number. *)
Lemma registry_matches_last_request_witness :
  let cs := [ {| c_ip := "192.168.0.18"; c_user := "admin"; c_password := "pw";
                 c_channels := PyTuple [PyInt 1; PyInt 2; PyInt 3; PyInt 4];
                 c_subtype := 0; c_target_height := 360 |};
              {| c_ip := "192.168.0.18"; c_user := "admin"; c_password := "pw";
                 c_channels := PyList [PyInt 5; PyNone];
                 c_subtype := 0; c_target_height := 360 |};
              {| c_ip := "192.168.0.18"; c_user := "admin"; c_password := "pw";
                 c_channels := PyList [PyStr "2"; PyInt 7];
                 c_subtype := 1; c_target_height := 240 |} ] in
  last_requested cs = Some [2; 7]
  /\ dom (StreamState.getters (STATE (do_calls cs process_init))) = {[2; 7]}
  /\ is_Some (get_accessor 7 (do_calls cs process_init))
  /\ get_accessor 1 (do_calls cs process_init) = None.
Proof.
  intros cs.
  assert (Hl : last_requested cs = Some [2; 7]) by (vm_compute; reflexivity).
  destruct (registry_matches_last_request cs [2; 7] process_init Hl)
    as (Hdom & _ & Hin & Hout).
  split; [exact Hl|]. split; [|split].
  - rewrite Hdom. clear. cbn [list_to_set]. rewrite (right_id_L ∅ (∪)). reflexivity.
  - destruct (Hin 7) as (tid & t & Hg & _); [right; left | eauto].
  - apply Hout. clear. intros H.
    repeat (apply elem_of_cons in H as [H | H]; [discriminate|]).
    try (apply elem_of_nil in H as []).
Defined.

(** C10.  When the [channels] argument is of no accepted type, or one of
    its members cannot be converted to an integer, [start_streams] raises
    and the process is exactly as before the call: no lock event is
    recorded, no thread object is touched, and both registries and the
    stored configuration are unchanged. *)
Theorem start_streams_rejected_unchanged (ip user password : string) (chs : PyVal)
  (subtype target_height : Z) (p : Process) :
  channels_rejected chs ->
  exists e,
    start_streams ip user password chs subtype target_height p = (Raise e, p).
Proof.
  intros Hrej. destruct (coerce_rejected chs Hrej) as [e He].
  exists e. unfold start_streams. rewrite He. reflexivity.
Qed.

(** C10 on a running process: a text argument and a list holding [None]
    are refused and leave channels 1 and 2 running. *)
Lemma start_streams_rejected_unchanged_witness :
  let p := snd (start_streams "192.168.0.18" "admin" "pw"
                  (PyTuple [PyInt 1; PyInt 2]) 0 360 process_init) in
  start_streams "10.0.0.9" "root" "x" (PyStr "3") 1 240 p = (Raise TypeError, p)
  /\ start_streams "10.0.0.9" "root" "x" (PyList [PyInt 3; PyNone]) 1 240 p
     = (Raise TypeError, p)
  /\ start_streams "10.0.0.9" "root" "x" (PyList [PyInt 3; PyStr "x4"]) 1 240 p
     = (Raise ValueError, p).
Proof.
  intros p.
  destruct (start_streams_rejected_unchanged "10.0.0.9" "root" "x" (PyStr "3") 1 240 p)
    as [e1 H1]; [exact I|].
  destruct (start_streams_rejected_unchanged "10.0.0.9" "root" "x"
              (PyList [PyInt 3; PyNone]) 1 240 p) as [e2 H2].
  { exists PyNone, TypeError. split; [right; left | reflexivity]. }
  destruct (start_streams_rejected_unchanged "10.0.0.9" "root" "x"
              (PyList [PyInt 3; PyStr "x4"]) 1 240 p) as [e3 H3].
  { exists (PyStr "x4"), ValueError. split; [right; left | reflexivity]. }
  assert (E1 : e1 = TypeError).
  { pose proof H1 as H. unfold start_streams in H. cbn in H. congruence. }
  assert (E2 : e2 = TypeError).
  { pose proof H2 as H. unfold start_streams in H. cbn in H. congruence. }
  assert (E3 : e3 = ValueError).
  { pose proof H3 as H. unfold start_streams in H.
    change (_coerce_channels (PyList [PyInt 3; PyStr "x4"])) with
      (@Raise (list Z) ValueError) in H. congruence. }
  subst. repeat split; assumption.
Defined.

(** What a call does to a thread object that existed before it. *)
Lemma start_streams_old_object (ip user password : string) (chs : PyVal)
  (subtype target_height : Z) (p : Process) (l : list Z) (tid : nat)
  (t : CaptureThread.t) :
  _coerce_channels chs = Ok l ->
  objects p !! tid = Some t ->
  objects (snd (start_streams ip user password chs subtype target_height p)) !! tid
  = Some ((if bool_decide
                (tid ∈ StreamState.thread_values (STATE p))
           then CaptureThread.stop else id) t).
Proof.
  intros Hco Ht.
  destruct (start_streams_ok ip user password subtype target_height chs l p Hco)
    as (_ & -> & _).
  pose proof (lookup_lt_Some _ _ _ Ht) as Hlt.
  rewrite lookup_app_l
    by (rewrite length_map, length_zip, length_seq, Nat.min_id; exact Hlt).
  rewrite lookup_map, lookup_zip_with, lookup_seq_lt by exact Hlt.
  rewrite Ht. reflexivity.
Qed.

(** C9, as stated, fails: after channel 1 was started and channel 2 is
    requested, the call returns with the new thread started while the old
    one, whose stop flag is set and whose capture is released, is still
    running; the call only recorded a stop request for it. *)
Lemma start_streams_does_not_wait :
  let p1 := snd (start_streams "192.168.0.18" "admin" "pw" (PyTuple [PyInt 1]) 0 360
                   process_init) in
  let p1 := set_objects (alter (CaptureThread.run_enter Connected) 0%nat (objects p1)) p1 in
  let p2 := snd (start_streams "192.168.0.18" "admin" "pw" (PyTuple [PyInt 2]) 0 360 p1) in
  StreamState.threads (STATE p1) !! 1 = Some 0%nat
  /\ (CaptureThread.status <$> objects p2 !! 0%nat) = Some Running
  /\ (CaptureThread.stop_flag <$> objects p2 !! 0%nat) = Some true
  /\ (CaptureThread.status <$> objects p2 !! 1%nat) = Some Running
  /\ StreamState.threads (STATE p2) !! 2 = Some 1%nat
  /\ trace p2 = [LockAcquire; ThreadStarted 0; LockRelease;
                 LockAcquire; StopCalled 0; ThreadStarted 1; LockRelease]
  /\ ~ (forall tid t, objects p1 !! tid = Some t ->
          CaptureThread.status <$> objects p2 !! tid = Some Finished).
Proof.
  intros p1 p1' p2.
  assert (H0 : CaptureThread.status <$> objects p2 !! 0%nat = Some Running)
    by (vm_compute; reflexivity).
  repeat (split; [vm_compute; reflexivity|]).
  intros Hall.
  assert (Ht : is_Some (objects p1' !! 0%nat)) by (vm_compute; eauto).
  destruct Ht as [t Ht]. specialize (Hall 0%nat t Ht).
  rewrite H0 in Hall. discriminate.
Qed.

(** C9, amended.  A call of [start_streams] whose channels are accepted
    calls [stop] on every registered thread (setting its stop flag and
    releasing its capture) before it starts any new thread, and returns
    with the new threads running; it does not wait for the old threads:
    the status of every thread object that existed before the call is what
    it was. *)
Theorem start_streams_stops_then_starts (ip user password : string) (chs : PyVal)
  (subtype target_height : Z) (p : Process) (l : list Z) :
  _coerce_channels chs = Ok l ->
  let olds := StreamState.thread_values (STATE p) in
  let r := start_streams ip user password chs subtype target_height p in
  fst r = Ok tt
  /\ trace (snd r)
     = trace p ++ [LockAcquire] ++ map StopCalled olds
         ++ map ThreadStarted (seq (length (objects p)) (length l))
         ++ [LockRelease]
  /\ (forall ch tid t,
        StreamState.threads (STATE p) !! ch = Some tid -> objects p !! tid = Some t ->
        objects (snd r) !! tid = Some (CaptureThread.stop t)
        /\ CaptureThread.stop_flag (CaptureThread.stop t) = true
        /\ CaptureThread.cap (CaptureThread.stop t)
           = CaptureThread.release <$> CaptureThread.cap t)
  /\ (forall tid t, objects p !! tid = Some t ->
        exists t', objects (snd r) !! tid = Some t'
                   /\ CaptureThread.status t' = CaptureThread.status t)
  /\ (forall (i : nat) ch, l !! i = Some ch ->
        exists t, objects (snd r) !! (length (objects p) + i)%nat = Some t
                  /\ CaptureThread.status t = Running
                  /\ CaptureThread.stop_flag t = false
                  /\ StreamState.threads (STATE (snd r)) !! ch
                     = StreamState.getters (STATE (snd r)) !! ch).
Proof.
  intros Hco olds r.
  destruct (start_streams_ok ip user password subtype target_height chs l p Hco)
    as (Hfst & Hobj & Htr & _ & _ & Hin).
  fold olds in Hobj, Htr. fold r in Hfst, Hobj, Htr, Hin.
  split; [exact Hfst|]. split; [exact Htr|]. split; [|split].
  - intros ch tid t Hreg Ht.
    split; [|split; reflexivity].
    unfold r. rewrite (start_streams_old_object _ _ _ _ _ _ _ l tid t Hco Ht).
    rewrite bool_decide_eq_true_2; [reflexivity|].
    apply elem_of_thread_values. exists ch. exact Hreg.
  - intros tid t Ht. unfold r.
    rewrite (start_streams_old_object _ _ _ _ _ _ _ l tid t Hco Ht).
    eexists. split; [reflexivity|]. destruct (bool_decide _); reflexivity.
  - intros i ch Hi.
    exists (new_thread ip user password subtype target_height ch).
    split; [|split; [reflexivity | split; [reflexivity|]]].
    + rewrite Hobj. rewrite lookup_app_r;
        rewrite length_map, length_zip, length_seq, Nat.min_id; [|lia].
      replace (length (objects p) + i - length (objects p))%nat with i by lia.
      apply lookup_map_Some. exact Hi.
    + destruct (Hin ch) as (j & _ & -> & ->); [|reflexivity].
      apply list_elem_of_lookup. eauto.
Qed.

(** C9 on the process that runs channels 1 and 2 when channels 2 and 5 are
    requested. *)
Lemma start_streams_stops_then_starts_witness :
  let p := snd (start_streams "192.168.0.18" "admin" "pw"
                  (PyTuple [PyInt 1; PyInt 2]) 0 360 process_init) in
  let r := start_streams "192.168.0.18" "admin" "pw" (PySet [PyInt 2; PyInt 5]) 0 360 p in
  fst r = Ok tt
  /\ (CaptureThread.stop_flag <$> objects (snd r) !! 0%nat) = Some true
  /\ (CaptureThread.status <$> objects (snd r) !! 0%nat) = Some Running
  /\ (CaptureThread.status <$> objects (snd r) !! 3%nat) = Some Running.
Proof.
  intros p r.
  destruct (start_streams_stops_then_starts "192.168.0.18" "admin" "pw"
              (PySet [PyInt 2; PyInt 5]) 0 360 p [2; 5] eq_refl)
    as (Hfst & _ & Hstop & Hkeep & Hnew).
  fold r in Hfst, Hstop, Hkeep, Hnew.
  assert (Hobj : is_Some (objects p !! 0%nat)) by (vm_compute; eauto).
  destruct Hobj as [t Ht].
  assert (Hreg : StreamState.threads (STATE p) !! 1 = Some 0%nat)
    by (vm_compute; reflexivity).
  destruct (Hstop 1 0%nat t Hreg Ht) as (Hs & Hflag & _).
  destruct (Hnew 1%nat 5 eq_refl) as (t5 & H5 & Hrun & _).
  change (length (objects p) + 1)%nat with 3%nat in H5.
  split; [exact Hfst|]. split; [rewrite Hs; cbn; reflexivity|].
  split; [|rewrite H5; cbn; f_equal; exact Hrun].
  rewrite Hs. cbn. f_equal. vm_compute in Ht. injection Ht as <-. reflexivity.
Defined.

(** ** The encoder *)

Lemma yield_times_app (e1 e2 : list GenEvent) :
  yield_times (e1 ++ e2) = yield_times e1 ++ yield_times e2.
Proof.
  induction e1 as [|[t c | d] e1 IH]; cbn; [reflexivity | rewrite IH | exact IH];
    reflexivity.
Qed.

Lemma Qmax_0_pos (q : Q) : (0 <= q)%Q -> (Qmax 0 q == q)%Q.
Proof. intros H. apply Q.max_r. exact H. Qed.

Lemma Qeq_bool_pos (q : Q) : (0 < q)%Q -> Qeq_bool q 0 = false.
Proof.
  intros H. destruct (Qeq_bool q 0) eqn:E; [|reflexivity].
  apply Qeq_bool_iff in E. rewrite E in H. apply Qlt_irrefl in H. contradiction.
Qed.

Lemma Qinv_fps_pos (fps : Q) : (0 < fps)%Q -> (0 < 1 / fps)%Q.
Proof.
  intros H. unfold Qdiv. rewrite Qmult_1_l. apply Qinv_lt_0_compat. exact H.
Qed.

(** An emitting turn of the encoder, for a positive rate. *)
Lemma mjpeg_iter_emits (fps : Q) (show_stamp show_fps : bool) (jpeg_quality : Z)
  (tk : Tick) (st : GenState) (frame : Image) :
  (0 < fps)%Q -> tk_frame tk = Some frame -> tk_ok tk = true ->
  exists chunk st',
    mjpeg_iter fps show_stamp show_fps jpeg_quality tk st
    = ([GYield (g_clock st + tk_fetch tk + tk_encode tk) chunk;
        GSleep (Qmax 0 (1 / fps))], Ok st')
    /\ g_clock st'
       = (g_clock st + tk_fetch tk + tk_encode tk + tk_consume tk + Qmax 0 (1 / fps))%Q.
Proof.
  intros Hfps Hfr Hok. unfold mjpeg_iter. rewrite Hfr, Hok. cbn [negb].
  rewrite (Qeq_bool_pos fps Hfps). cbv zeta. eexists. eexists.
  split; reflexivity.
Qed.

(** Along a run, no chunk is emitted before the clock of the state the
    run starts in, and successive chunks are at least [1/fps] apart. *)
Lemma mjpeg_run_paced (fps : Q) (show_stamp show_fps : bool) (jpeg_quality : Z)
  (tks : list Tick) :
  (0 < fps)%Q ->
  forall st : GenState,
    Forall tick_nonneg tks ->
    let ts := yield_times (mjpeg_run fps show_stamp show_fps jpeg_quality tks st) in
    Forall (fun t => (g_clock st <= t)%Q) ts /\ paced (1 / fps) ts.
Proof.
  intros Hfps. pose proof (Qinv_fps_pos fps Hfps) as Hd.
  induction tks as [|tk tks IH]; intros st Hnn; cbn zeta.
  - cbn. split; [constructor | exact I].
  - apply Forall_cons in Hnn as [(Hf & He & Hc) Hnn].
    cbn [mjpeg_run].
    destruct (tk_frame tk) as [frame|] eqn:Hfr.
    + destruct (tk_ok tk) eqn:Hok.
      * destruct (mjpeg_iter_emits fps show_stamp show_fps jpeg_quality tk st frame
                    Hfps Hfr Hok) as (chunk & st' & -> & Hclk).
        destruct (IH st' Hnn) as [Hge Hp]. cbn [app yield_times].
        set (ts := yield_times (mjpeg_run fps show_stamp show_fps jpeg_quality tks st'))
          in *.
        pose proof (Qmax_0_pos (1 / fps) (Qlt_le_weak _ _ Hd)) as Hmax.
        rewrite Hclk in Hge. split.
        -- constructor; [lra|].
           eapply Forall_impl; [exact Hge|]. intros t Ht; cbn in Ht. lra.
        -- cbn [paced]. split; [|exact Hp].
           destruct ts as [|t2 ts']; [exact I|].
           apply Forall_cons in Hge as [Hge _]. lra.
      * unfold mjpeg_iter. rewrite Hfr, Hok. cbn [negb]. cbv zeta. cbn [app].
        match goal with |- context [mjpeg_run _ _ _ _ tks ?s] => destruct (IH s Hnn) as [Hge Hp] end.
        cbn [g_clock] in Hge. split; [|exact Hp].
        eapply Forall_impl; [exact Hge|]. intros t Ht; cbn in Ht. lra.
    + unfold mjpeg_iter. rewrite Hfr. cbn [app yield_times].
      match goal with |- context [mjpeg_run _ _ _ _ tks ?s] => destruct (IH s Hnn) as [Hge Hp] end.
      cbn [g_clock] in Hge. split; [|exact Hp].
      eapply Forall_impl; [exact Hge|]. intros t Ht; cbn in Ht. lra.
Qed.

(** C2, as stated, fails: at 12 frames per second a turn that spent 30 ms
    producing its frame still sleeps the full 1/12 s, not the remainder
    [1/12 - 3/100]. *)
Lemma pacing_sleep_ignores_elapsed :
  let tk := {| tk_frame := Some (Decoded 1 360 640); tk_stamp := "2024-01-01 00:00:00";
               tk_fetch := 1 # 100; tk_encode := 2 # 100; tk_ok := true;
               tk_consume := 0 |} in
  exists t c d,
    fst (mjpeg_iter 12 true true 80 tk (mjpeg_enter 1000)) = [GYield t c; GSleep d]
    /\ (elapsed tk == 3 # 100)%Q
    /\ (d == 1 # 12)%Q
    /\ (spec_pacing_sleep 12 (elapsed tk) == 4 # 75)%Q
    /\ ~ (d == spec_pacing_sleep 12 (elapsed tk))%Q.
Proof.
  intros tk. eexists. eexists. eexists.
  split; [vm_compute; reflexivity|].
  split; [reflexivity|]. split; [reflexivity|]. split; [reflexivity|].
  vm_compute. discriminate.
Qed.

(** C2, amended.  For a positive rate, every turn that emits a chunk
    sleeps [max(0, 1/fps)], that is the full frame interval [1/fps],
    whatever time the turn spent producing the frame; the next turn starts
    that interval after the chunk was taken.  Hence successive chunks are
    never less than [1/fps] apart (the rate is a ceiling), and a turn that
    takes longer to produce its frame lengthens the period by that time. *)
Theorem pacing_sleeps_full_interval (fps : Q) (show_stamp show_fps : bool)
  (jpeg_quality : Z) :
  (0 < fps)%Q ->
  (forall tk st frame, tk_frame tk = Some frame -> tk_ok tk = true ->
     exists chunk st',
       mjpeg_iter fps show_stamp show_fps jpeg_quality tk st
       = ([GYield (g_clock st + tk_fetch tk + tk_encode tk) chunk;
           GSleep (Qmax 0 (1 / fps))], Ok st')
       /\ (Qmax 0 (1 / fps) == 1 / fps)%Q
       /\ (g_clock st' == g_clock st + elapsed tk + tk_consume tk + 1 / fps)%Q)
  /\ (forall tks st, Forall tick_nonneg tks ->
        paced (1 / fps)
          (yield_times (mjpeg_run fps show_stamp show_fps jpeg_quality tks st))).
Proof.
  intros Hfps. pose proof (Qinv_fps_pos fps Hfps) as Hd.
  pose proof (Qmax_0_pos (1 / fps) (Qlt_le_weak _ _ Hd)) as Hmax.
  split.
  - intros tk st frame Hfr Hok.
    destruct (mjpeg_iter_emits fps show_stamp show_fps jpeg_quality tk st frame
                Hfps Hfr Hok) as (chunk & st' & Hrun & Hclk).
    exists chunk, st'. split; [exact Hrun|]. split; [exact Hmax|].
    rewrite Hclk. unfold elapsed. lra.
  - intros tks st Hnn.
    apply (mjpeg_run_paced fps show_stamp show_fps jpeg_quality tks Hfps st Hnn).
Qed.

(** C2 at 12 frames per second: three turns that cost nothing, with an
    empty turn between them, emit chunks at least 1/12 s apart. *)
Lemma pacing_sleeps_full_interval_witness :
  let tk := {| tk_frame := Some (Decoded 1 360 640); tk_stamp := "2024-01-01 00:00:00";
               tk_fetch := 0; tk_encode := 0; tk_ok := true; tk_consume := 0 |} in
  let gap := {| tk_frame := None; tk_stamp := ""; tk_fetch := 0; tk_encode := 0;
                tk_ok := true; tk_consume := 0 |} in
  (0 < 12)%Q
  /\ paced (1 / 12) (yield_times (mjpeg_generator 12 true true 80 1000 [tk; gap; tk; tk]))
  /\ length (yield_times (mjpeg_generator 12 true true 80 1000 [tk; gap; tk; tk]))
     = 3%nat.
Proof.
  intros tk gap.
  assert (Hfps : (0 < 12)%Q) by reflexivity.
  destruct (pacing_sleeps_full_interval 12 true true 80 Hfps) as [_ Hrun].
  split; [exact Hfps|]. split; [|vm_compute; reflexivity].
  apply Hrun. repeat constructor; cbn; discriminate.
Defined.

(** * Further properties of the code *)

(** ** Compositor *)

Lemma py_sum_nonneg (frames : list Image) : 0 <= py_sum (map cols_of frames).
Proof.
  induction frames as [|g l IHl]; [unfold py_sum; cbn; lia|].
  cbn [map]. rewrite py_sum_cons. destruct (shape_nonneg g). lia.
Qed.

(** The row layout on a non-empty list of frames. *)
Lemma row_compose_ok (frames : list Image) :
  frames <> [] ->
  exists canvas,
    (canvas0 <~ np_zeros (py_max (map rows_of frames)) (py_sum (map cols_of frames)) ;;
     acc <~ foldM row_paste frames (canvas0, 0) ;; Ok (Some (fst acc)))
    = Ok (Some canvas)
    /\ shape canvas = (py_max (map rows_of frames), py_sum (map cols_of frames))
    /\ (forall (i : nat) f, frames !! i = Some f ->
          forall y x, 0 <= x < cols_of f ->
            pixel_at canvas y (py_sum (map cols_of (take i frames)) + x)
            = if in_range 0 (rows_of f) y then pixel_at f y x else Black).
Proof.
  intros Hne.
  destruct (py_max_spec (map rows_of frames)) as [Hub Hatt].
  { destruct frames; [congruence | discriminate]. }
  set (h := py_max (map rows_of frames)) in *.
  set (w := py_sum (map cols_of frames)) in *.
  assert (Hh : 0 <= h).
  { apply list_elem_of_fmap in Hatt as (f & -> & _). apply shape_nonneg. }
  assert (Hw : 0 <= w) by apply py_sum_nonneg.
  destruct (np_zeros_ok h w Hh Hw) as [Hz Hzs].
  set (canvas0 := Zeros (Z.to_N h) (Z.to_N w)) in *.
  assert (Hc0 : cols_of canvas0 = w) by (unfold cols_of; rewrite Hzs; reflexivity).
  assert (Hr0 : rows_of canvas0 = h) by (unfold rows_of; rewrite Hzs; reflexivity).
  destruct (foldM_row_paste frames canvas0 0) as (canvas & Hrun & Hshape & _ & _ & Hcell).
  - lia.
  - rewrite Hc0. fold w. lia.
  - rewrite Hr0. rewrite Forall_fmap in Hub. exact Hub.
  - exists canvas. rewrite Hz. cbn [rbind]. rewrite Hrun. cbn [rbind fst].
    split; [reflexivity|]. split; [rewrite Hshape; exact Hzs|].
    intros i f Hi y x Hx. specialize (Hcell i f Hi y x Hx).
    rewrite Z.add_0_l in Hcell. exact Hcell.
Qed.

Lemma mosaic_getter_row_unfold (getters : list getter) :
  mosaic_getter_row getters tt
  = match omap (fun g : getter => g tt) getters with
    | [] => Ok None
    | frames =>
        canvas0 <~ np_zeros (py_max (map rows_of frames)) (py_sum (map cols_of frames)) ;;
        acc <~ foldM row_paste frames (canvas0, 0) ;; Ok (Some (fst acc))
    end.
Proof.
  unfold mosaic_getter_row. rewrite omap_id_map.
  destruct (omap (fun g : getter => g tt) getters); reflexivity.
Qed.

Lemma omap_nil_all_none {A B : Type} (f : A -> option B) (l : list A) :
  omap f l = [] -> Forall (fun a => f a = None) l.
Proof.
  induction l as [|a l IH]; cbn; [constructor|].
  destruct (f a) eqn:E; [discriminate|]. intros H. constructor; auto.
Qed.

(** X1.  The row compositor never raises, and it returns no frame exactly when
    no accessor has a frame (in particular for the empty list). *)
Theorem mosaic_getter_row_total (getters : list getter) :
  (forall e, mosaic_getter_row getters tt <> Raise e)
  /\ (mosaic_getter_row getters tt = Ok None
      <-> Forall (fun g : getter => g tt = None) getters).
Proof.
  destruct (omap (fun g : getter => g tt) getters) as [|f fs] eqn:E.
  - rewrite mosaic_getter_row_unfold, E.
    split; [discriminate|]. split; [|reflexivity].
    intros _. apply omap_nil_all_none. exact E.
  - destruct (row_compose_ok (f :: fs)) as (canvas & Hrun & _); [discriminate|].
    assert (Hm : mosaic_getter_row getters tt = Ok (Some canvas))
      by (rewrite mosaic_getter_row_unfold, E; exact Hrun).
    rewrite Hm. split; [discriminate|]. split; [discriminate|].
    intros Hall. rewrite (omap_all_none _ _ Hall) in E. discriminate.
Qed.

(** X2.  When every available frame has the same height [h] (the frames of
    capture threads with one target height), the row canvas is [h] high
    and every one of its columns shows a frame over the full height: there
    is no padding. *)
Theorem mosaic_getter_row_uniform (getters : list getter) (h : Z) :
  (exists g f, g ∈ getters /\ g tt = Some f) ->
  (forall g f, g ∈ getters -> g tt = Some f -> rows_of f = h) ->
  let frames := omap (fun g : getter => g tt) getters in
  exists canvas,
    mosaic_getter_row getters tt = Ok (Some canvas)
    /\ shape canvas = (h, py_sum (map cols_of frames))
    /\ (forall (i : nat) f, frames !! i = Some f ->
          forall y x, 0 <= y < h -> 0 <= x < cols_of f ->
            pixel_at canvas y (py_sum (map cols_of (take i frames)) + x)
            = pixel_at f y x).
Proof.
  intros Hsome Hh frames.
  assert (Hne : frames <> []) by (apply omap_nonempty; exact Hsome).
  assert (Hrows : Forall (fun f => rows_of f = h) frames).
  { apply Forall_forall. intros f Hf. apply list_elem_of_omap in Hf as (g & Hg & Hgf).
    exact (Hh g f Hg Hgf). }
  destruct (row_compose_ok frames Hne) as (canvas & Hrun & Hshape & Hcell).
  exists canvas. split.
  { rewrite mosaic_getter_row_unfold. fold frames.
    destruct frames; [congruence | exact Hrun]. }
  assert (Hmax : py_max (map rows_of frames) = h).
  { destruct (py_max_spec (map rows_of frames)) as [_ Hatt].
    { destruct frames; [congruence | discriminate]. }
    apply list_elem_of_fmap in Hatt as (f & -> & Hf).
    rewrite Forall_forall in Hrows. exact (Hrows f Hf). }
  split; [rewrite Hshape, Hmax; reflexivity|].
  intros i f Hi y x Hy Hx. rewrite (Hcell i f Hi y x Hx).
  rewrite Forall_forall in Hrows.
  rewrite (Hrows f) by (apply list_elem_of_lookup; eauto).
  unfold in_range. replace (0 <=? y) with true by (symmetry; apply Z.leb_le; lia).
  replace (y <? h) with true by (symmetry; apply Z.ltb_lt; lia). reflexivity.
Qed.

Lemma mosaic_getter_row_uniform_witness :
  exists canvas,
    mosaic_getter_row [(fun _ => Some (Decoded 1 360 640)); (fun _ => None);
                       (fun _ => Some (Decoded 2 360 480))] tt = Ok (Some canvas)
    /\ shape canvas = (360, 1120)
    /\ pixel_at canvas 359 (640 + 479) = PxOf (Decoded 2 360 480) 359 479.
Proof.
  destruct (mosaic_getter_row_uniform
              [(fun _ => Some (Decoded 1 360 640)); (fun _ => None);
               (fun _ => Some (Decoded 2 360 480))] 360)
    as (canvas & Hrun & Hshape & Hpix).
  - exists (fun _ => Some (Decoded 1 360 640)), (Decoded 1 360 640).
    split; [left | reflexivity].
  - intros g f Hg Hf.
    repeat (apply elem_of_cons in Hg as [-> | Hg];
            [cbn in Hf; try discriminate; injection Hf as <-; reflexivity|]).
    apply elem_of_nil in Hg as [].
  - exists canvas. split; [exact Hrun|]. split; [exact Hshape|].
    apply (Hpix 1%nat (Decoded 2 360 480) eq_refl 359 479); cbn; lia.
Defined.

Lemma mapM_length {A B : Type} (f : A -> result B) (l : list A) (l' : list B) :
  mapM f l = Ok l' -> length l' = length l.
Proof.
  revert l'. induction l as [|a l IH]; intros l' H; cbn in H.
  - injection H as <-. reflexivity.
  - destruct (f a) as [b|]; cbn in H; [|discriminate].
    destruct (mapM f l) as [bs|]; cbn in H; [|discriminate].
    injection H as <-. cbn. rewrite (IH bs eq_refl). reflexivity.
Qed.

(** X3.  The grid compositor returns no frame exactly for the empty accessor
    list, whatever the column count and the cell height are. *)
Theorem mosaic_getter_grid_none_iff_empty (getters : list getter) (cols cell_h : Z) :
  mosaic_getter_grid getters cols cell_h tt = Ok None <-> getters = [].
Proof.
  split; [|intros ->; reflexivity].
  destruct getters as [|g gs]; [reflexivity|]. intros H. exfalso.
  unfold mosaic_getter_grid in H.
  destruct (mapM _ _) as [frames|] eqn:E; cbn [rbind] in H; [|discriminate].
  apply mapM_length in E. destruct frames as [|f fs]; [discriminate|].
  destruct (ceil_div _ _); cbn [rbind] in H; [|discriminate].
  destruct (np_zeros _ _); cbn [rbind] in H; [|discriminate].
  destruct (foldM _ _ _); cbn [rbind] in H; discriminate.
Qed.

(** X4.  A column count that cannot lay out a grid makes the compositor raise
    on a non-empty accessor list: [ZeroDivisionError] for 0 columns (any
    non-negative cell height), [ValueError] for a negative count (cell
    height of at least 1). *)
Theorem mosaic_getter_grid_bad_cols (getters : list getter) (cols cell_h : Z) :
  getters <> [] ->
  (cols = 0 -> 0 <= cell_h ->
     mosaic_getter_grid getters cols cell_h tt = Raise ZeroDivisionError)
  /\ (cols < 0 -> 1 <= cell_h ->
        mosaic_getter_grid getters cols cell_h tt = Raise ValueError).
Proof.
  intros Hne.
  assert (Hfr : forall w, 0 <= cell_h -> 0 <= w ->
            exists f fs, mapM (grid_fill cell_h w) (map (fun g : getter => g tt) getters)
                         = Ok (f :: fs)).
  { intros w Hh Hw. rewrite mapM_grid_fill by assumption.
    destruct getters as [|g gs]; [congruence|]. cbn [map]. eauto. }
  split.
  - intros -> Hh. unfold mosaic_getter_grid.
    assert (Hw : 0 <= grid_cell_w cell_h).
    { rewrite grid_cell_w_quot. apply Z.quot_pos; lia. }
    destruct (Hfr _ Hh Hw) as (f & fs & ->). reflexivity.
  - intros Hc Hh. unfold mosaic_getter_grid.
    pose proof (grid_cell_w_pos cell_h Hh) as Hw.
    destruct (Hfr (grid_cell_w cell_h)) as (f & fs & ->); [lia | lia |].
    cbn [rbind]. unfold ceil_div. destruct (Z.eqb_spec cols 0); [lia|].
    cbn [rbind]. unfold np_zeros.
    replace (cols * grid_cell_w cell_h <? 0) with true by (symmetry; apply Z.ltb_lt; nia).
    rewrite orb_true_r. reflexivity.
Qed.

Lemma mosaic_getter_grid_bad_cols_witness :
  mosaic_getter_grid [fun _ => Some (Decoded 1 360 640)] 0 360 tt = Raise ZeroDivisionError
  /\ mosaic_getter_grid [fun _ => None] (-2) 360 tt = Raise ValueError.
Proof.
  split.
  - apply (mosaic_getter_grid_bad_cols [fun _ => Some (Decoded 1 360 640)] 0 360);
      [discriminate | reflexivity | lia].
  - apply (mosaic_getter_grid_bad_cols [fun _ => None] (-2) 360); [discriminate | lia | lia].
Defined.

(** X5.  The geometry of the grid does not depend on the frames: two accessor
    lists of the same length give canvases of the same shape, whichever
    frames are missing and whatever the native sizes are. *)
Theorem mosaic_getter_grid_geometry_stable (gs1 gs2 : list getter) (cols cell_h : Z) :
  gs1 <> [] -> length gs1 = length gs2 -> 1 <= cols -> 1 <= cell_h ->
  (forall g f, g ∈ gs1 ++ gs2 -> g tt = Some f -> 0 < rows_of f /\ 0 < cols_of f) ->
  exists c1 c2,
    mosaic_getter_grid gs1 cols cell_h tt = Ok (Some c1)
    /\ mosaic_getter_grid gs2 cols cell_h tt = Ok (Some c2)
    /\ shape c1 = shape c2.
Proof.
  intros Hne Hlen Hcols Hh Hsrc.
  assert (Hne2 : gs2 <> []) by (destruct gs1, gs2; cbn in Hlen; congruence).
  destruct (mosaic_getter_grid_ok gs1 cols cell_h Hne Hcols Hh)
    as (c1 & R1 & Hrun1 & Hs1 & HR1 & _).
  { intros g f Hg. apply Hsrc. apply elem_of_app. left; exact Hg. }
  destruct (mosaic_getter_grid_ok gs2 cols cell_h Hne2 Hcols Hh)
    as (c2 & R2 & Hrun2 & Hs2 & HR2 & _).
  { intros g f Hg. apply Hsrc. apply elem_of_app. right; exact Hg. }
  exists c1, c2. split; [exact Hrun1|]. split; [exact Hrun2|].
  rewrite Hs1, Hs2. unfold len in HR1, HR2. rewrite Hlen in HR1.
  assert (R1 = R2) as -> by nia. reflexivity.
Qed.

Lemma mosaic_getter_grid_geometry_stable_witness :
  exists c1 c2,
    mosaic_getter_grid [(fun _ => Some (Decoded 1 1080 1920)); (fun _ => Some (Decoded 2 10 7));
                        (fun _ => Some (Decoded 3 360 640))] 2 360 tt = Ok (Some c1)
    /\ mosaic_getter_grid [(fun _ => None); (fun _ => None); (fun _ => None)] 2 360 tt
       = Ok (Some c2)
    /\ shape c1 = shape c2.
Proof.
  apply mosaic_getter_grid_geometry_stable; [discriminate | reflexivity | lia | lia |].
  intros g f Hg Hf.
  repeat (apply elem_of_cons in Hg as [-> | Hg];
          [cbn in Hf; try discriminate; injection Hf as <-; cbn; lia|]).
  apply elem_of_nil in Hg as [].
Defined.

(** ** Capture thread *)

(** One turn keeps the target height and stores only frames of that
    height. *)
Lemma run_iter_frame_height (io : IterIO) (self : CaptureThread.t) :
  (forall f, CaptureThread.frame self = Some f -> rows_of f = CaptureThread.target_h self) ->
  CaptureThread.target_h (CaptureThread.run_iter io self) = CaptureThread.target_h self
  /\ forall f, CaptureThread.frame (CaptureThread.run_iter io self) = Some f ->
       rows_of f = CaptureThread.target_h self.
Proof.
  intros Hinv. unfold CaptureThread.run_iter.
  destruct (CaptureThread.stop_flag self); [split; [reflexivity | exact Hinv]|].
  assert (Hfail :
    let self1 :=
      if Qle_bool (CaptureThread.reconnect_delay_s self)
           (io_now io - CaptureThread.last_try self)
      then CaptureThread.set_last_try (io_now' io) (CaptureThread._open (io_open io) self)
      else self in
    CaptureThread.target_h self1 = CaptureThread.target_h self
    /\ CaptureThread.frame self1 = CaptureThread.frame self).
  { destruct (Qle_bool _ _); cbn zeta; [|split; reflexivity].
    destruct (open_keeps (io_open io) self) as (H1 & H2 & _). split; assumption. }
  cbn zeta in Hfail.
  assert (Hbranch :
    forall self1 : CaptureThread.t,
      CaptureThread.target_h self1 = CaptureThread.target_h self ->
      CaptureThread.frame self1 = CaptureThread.frame self ->
      let self' :=
        match np_zeros (CaptureThread.target_h self1) (CaptureThread.target_h self1) with
        | Ok ph =>
            let ph := cv_putText ph (CaptureThread.placeholder_text self1) (10, 30)
                        (8 # 10) (0, 0, 255) 2 in
            CaptureThread.emit (ASleep (5 # 100))
              (CaptureThread.emit (AStore ph) (CaptureThread.set_frame (Some ph) self1))
        | Raise _ => CaptureThread.set_status Finished self1
        end in
      CaptureThread.target_h self' = CaptureThread.target_h self
      /\ forall f, CaptureThread.frame self' = Some f ->
           rows_of f = CaptureThread.target_h self).
  { intros self1 Eth Efr. cbn zeta. unfold np_zeros.
    destruct (Z.ltb_spec (CaptureThread.target_h self1) 0) as [Hneg | Hpos]; cbn.
    - split; [exact Eth|]. rewrite Efr. exact Hinv.
    - split; [exact Eth|]. intros f Hf. injection Hf as <-.
      unfold rows_of; cbn. rewrite Z2N.id by lia. exact Eth. }
  destruct (CaptureThread.read io self) as [[|] [fr|]];
    try (apply Hbranch; apply Hfail).
  destruct (CaptureThread._resize_h fr (CaptureThread.target_h self)) as [fr'|e] eqn:E;
    cbn; [|split; [reflexivity | exact Hinv]].
  split; [reflexivity|]. intros f Hf. injection Hf as <-.
  apply resize_h_ok in E as [E _]. exact E.
Qed.

(** X6.  Every frame a capture thread serves has exactly the target height:
    whatever the camera delivers and however the reconnects go, after any
    number of turns [get_frame] gives no frame or a frame of height
    [target_h]. *)
Theorem served_frames_have_target_height (ios : list IterIO) (self : CaptureThread.t) :
  (forall f, CaptureThread.get_frame self = Some f ->
     rows_of f = CaptureThread.target_h self) ->
  forall f, CaptureThread.get_frame (CaptureThread.run_loop ios self) = Some f ->
    rows_of f = CaptureThread.target_h self.
Proof.
  revert self. induction ios as [|io ios IH]; intros self Hinv f Hf; cbn in Hf.
  - exact (Hinv f Hf).
  - destruct (CaptureThread.status self); try exact (Hinv f Hf).
    destruct (run_iter_frame_height io self Hinv) as [Eth Hinv'].
    rewrite <- Eth. apply (IH (CaptureThread.run_iter io self)); [|exact Hf].
    intros g Hg. rewrite Eth. exact (Hinv' g Hg).
Qed.

Lemma served_frames_have_target_height_witness :
  let ios := [ {| io_read := (false, None); io_now := 1700000000;
                  io_open := Connected; io_now' := 1700000001 |};
               {| io_read := (true, Some (Decoded 9 1080 1920)); io_now := 1700000002;
                  io_open := Connected; io_now' := 1700000002 |} ] in
  let t := CaptureThread.run NotOpened ios
             (CaptureThread.start (CaptureThread.init "CH3" "rtsp://dvr" "CH3" 360)) in
  exists f, CaptureThread.get_frame t = Some f /\ rows_of f = 360.
Proof.
  intros ios t. eexists. split; [vm_compute; reflexivity|].
  apply (served_frames_have_target_height ios
           (CaptureThread.run_enter NotOpened
              (CaptureThread.start (CaptureThread.init "CH3" "rtsp://dvr" "CH3" 360)))).
  - intros f Hf. discriminate Hf.
  - vm_compute. reflexivity.
Defined.

(** X7.  With a negative target height the thread cannot build any frame: its
    first turn ends it, whatever the read gave, and the frame slot keeps
    what it held. *)
Theorem negative_target_height_ends_thread (io : IterIO) (self : CaptureThread.t) :
  CaptureThread.target_h self < 0 ->
  CaptureThread.status (CaptureThread.run_iter io self) = Finished
  /\ CaptureThread.get_frame (CaptureThread.run_iter io self)
     = CaptureThread.get_frame self.
Proof.
  intros Hneg. unfold CaptureThread.run_iter.
  destruct (CaptureThread.stop_flag self); [split; reflexivity|].
  assert (Hz : forall self1 : CaptureThread.t,
             CaptureThread.target_h self1 = CaptureThread.target_h self ->
             np_zeros (CaptureThread.target_h self1) (CaptureThread.target_h self1)
             = Raise ValueError).
  { intros self1 ->. unfold np_zeros.
    destruct (Z.ltb_spec (CaptureThread.target_h self) 0); [reflexivity | lia]. }
  assert (Hfail :
    let self1 :=
      if Qle_bool (CaptureThread.reconnect_delay_s self)
           (io_now io - CaptureThread.last_try self)
      then CaptureThread.set_last_try (io_now' io) (CaptureThread._open (io_open io) self)
      else self in
    CaptureThread.status
      match np_zeros (CaptureThread.target_h self1) (CaptureThread.target_h self1) with
      | Ok ph =>
          let ph := cv_putText ph (CaptureThread.placeholder_text self1) (10, 30)
                      (8 # 10) (0, 0, 255) 2 in
          CaptureThread.emit (ASleep (5 # 100))
            (CaptureThread.emit (AStore ph) (CaptureThread.set_frame (Some ph) self1))
      | Raise _ => CaptureThread.set_status Finished self1
      end = Finished
    /\ CaptureThread.get_frame
         match np_zeros (CaptureThread.target_h self1) (CaptureThread.target_h self1) with
         | Ok ph =>
             let ph := cv_putText ph (CaptureThread.placeholder_text self1) (10, 30)
                         (8 # 10) (0, 0, 255) 2 in
             CaptureThread.emit (ASleep (5 # 100))
               (CaptureThread.emit (AStore ph) (CaptureThread.set_frame (Some ph) self1))
         | Raise _ => CaptureThread.set_status Finished self1
         end = CaptureThread.get_frame self).
  { destruct (Qle_bool _ _); cbn zeta.
    - rewrite Hz by exact (proj1 (open_keeps (io_open io) self)).
      split; [reflexivity|]. exact (proj1 (proj2 (open_keeps (io_open io) self))).
    - rewrite Hz by reflexivity. split; reflexivity. }
  cbn zeta in Hfail.
  destruct (CaptureThread.read io self) as [[|] [fr|]]; try exact Hfail.
  destruct (resize_h_nonpos fr (CaptureThread.target_h self)) as [e ->]; [lia|].
  split; reflexivity.
Qed.

Lemma negative_target_height_ends_thread_witness :
  let self := CaptureThread.run_enter Connected
                (CaptureThread.start (CaptureThread.init "CH1" "rtsp://dvr" "CH1" (-1))) in
  let io := {| io_read := (true, Some (Decoded 1 1080 1920)); io_now := 1700000000;
               io_open := Connected; io_now' := 1700000000 |} in
  CaptureThread.status (CaptureThread.run_iter io self) = Finished
  /\ CaptureThread.get_frame (CaptureThread.run_iter io self) = None.
Proof.
  intros self io.
  destruct (negative_target_height_ends_thread io self) as [H1 H2]; [cbn; lia|].
  split; [exact H1 | exact H2].
Defined.






(** One turn either makes no [_open] call and keeps [last_try], or makes
    exactly one, which the cool-down allowed, and records the clock read
    after it.  The delay never changes. *)
Lemma run_iter_opens (io : IterIO) (self : CaptureThread.t) :
  CaptureThread.reconnect_delay_s (CaptureThread.run_iter io self)
  = CaptureThread.reconnect_delay_s self
  /\ ((count_opens (CaptureThread.events (CaptureThread.run_iter io self))
       = count_opens (CaptureThread.events self)
       /\ CaptureThread.last_try (CaptureThread.run_iter io self)
          = CaptureThread.last_try self)
      \/ (count_opens (CaptureThread.events (CaptureThread.run_iter io self))
          = S (count_opens (CaptureThread.events self))
          /\ (CaptureThread.reconnect_delay_s self
              <= io_now io - CaptureThread.last_try self)%Q
          /\ CaptureThread.last_try (CaptureThread.run_iter io self) = io_now' io)).
Proof.
  unfold CaptureThread.run_iter.
  destruct (CaptureThread.stop_flag self); [split; [reflexivity | left; split; reflexivity]|].
  assert (Hfail :
    let self1 :=
      if Qle_bool (CaptureThread.reconnect_delay_s self)
           (io_now io - CaptureThread.last_try self)
      then CaptureThread.set_last_try (io_now' io) (CaptureThread._open (io_open io) self)
      else self in
    let self' :=
      match np_zeros (CaptureThread.target_h self1) (CaptureThread.target_h self1) with
      | Ok ph =>
          let ph := cv_putText ph (CaptureThread.placeholder_text self1) (10, 30)
                      (8 # 10) (0, 0, 255) 2 in
          CaptureThread.emit (ASleep (5 # 100))
            (CaptureThread.emit (AStore ph) (CaptureThread.set_frame (Some ph) self1))
      | Raise _ => CaptureThread.set_status Finished self1
      end in
    CaptureThread.reconnect_delay_s self' = CaptureThread.reconnect_delay_s self
    /\ ((count_opens (CaptureThread.events self') = count_opens (CaptureThread.events self)
         /\ CaptureThread.last_try self' = CaptureThread.last_try self)
        \/ (count_opens (CaptureThread.events self')
            = S (count_opens (CaptureThread.events self))
            /\ (CaptureThread.reconnect_delay_s self
                <= io_now io - CaptureThread.last_try self)%Q
            /\ CaptureThread.last_try self' = io_now' io))).
  { unfold count_opens. destruct (Qle_bool _ _) eqn:E; cbn zeta.
    - apply Qle_bool_iff in E. unfold CaptureThread._open.
      destruct (CaptureThread.cap self); destruct (io_open io); destruct (np_zeros _ _); cbn;
        rewrite ?List.filter_app, ?length_app; cbn;
        (split; [reflexivity | right; split; [lia | split; [exact E | reflexivity]]]).
    - destruct (np_zeros _ _); cbn; rewrite ?List.filter_app, ?length_app; cbn;
        (split; [reflexivity | left; split; [lia | reflexivity]]). }
  cbn zeta in Hfail.
  destruct (CaptureThread.read io self) as [[|] [fr|]]; try exact Hfail.
  unfold count_opens.
  destruct (CaptureThread._resize_h fr (CaptureThread.target_h self)); cbn;
    rewrite ?List.filter_app, ?length_app; cbn;
    (split; [reflexivity | left; split; [lia | reflexivity]]).
Qed.

Lemma inject_S_mul (m : nat) (d : Q) :
  (inject_Z (Z.of_nat (S m)) * d == inject_Z (Z.of_nat m) * d + d)%Q.
Proof.
  rewrite Nat2Z.inj_succ. unfold Z.succ. rewrite inject_Z_plus. ring.
Qed.

(** The run keeps this along its turns: after [S m] reopen attempts the
    recorded time of the last one is at least [m] delays after [t0]. *)
Lemma run_loop_opens (ios : list IterIO) (t0 T : Q) :
  forall (self : CaptureThread.t) (base k : nat),
    (0 < CaptureThread.reconnect_delay_s self)%Q ->
    Forall (fun io => (t0 <= io_now io /\ io_now io <= T /\ io_now io <= io_now' io)%Q) ios ->
    count_opens (CaptureThread.events self) = (base + k)%nat ->
    (forall m, k = S m ->
       (t0 + inject_Z (Z.of_nat m) * CaptureThread.reconnect_delay_s self
        <= CaptureThread.last_try self
        /\ inject_Z (Z.of_nat m) * CaptureThread.reconnect_delay_s self <= T - t0)%Q) ->
    exists k',
      count_opens (CaptureThread.events (CaptureThread.run_loop ios self))
      = (base + k')%nat
      /\ (k <= k')%nat
      /\ forall m, k' = S m ->
           (inject_Z (Z.of_nat m) * CaptureThread.reconnect_delay_s self <= T - t0)%Q.
Proof.
  induction ios as [|io ios IH]; intros self base k Hd Hall Hk Hinv.
  - exists k. cbn. split; [exact Hk|]. split; [lia|].
    intros m Hm. apply (Hinv m Hm).
  - apply Forall_cons in Hall as [(Hlo & Hhi & Hmono) Hall].
    cbn [CaptureThread.run_loop].
    destruct (CaptureThread.status self);
      try (exists k; split; [exact Hk|]; split; [lia|];
           intros m Hm; apply (Hinv m Hm)).
    destruct (run_iter_opens io self) as [Ed [[Ec El] | (Ec & Ecool & El)]].
    + destruct (IH (CaptureThread.run_iter io self) base k) as (k' & H1 & H2 & H3).
      * rewrite Ed. exact Hd.
      * exact Hall.
      * rewrite Ec. exact Hk.
      * intros m Hm. rewrite Ed, El. apply (Hinv m Hm).
      * exists k'. rewrite Ed in H3. auto.
    + destruct (IH (CaptureThread.run_iter io self) base (S k)) as (k' & H1 & H2 & H3).
      * rewrite Ed. exact Hd.
      * exact Hall.
      * rewrite Ec, Hk. lia.
      * intros m Hm. injection Hm as <-. rewrite Ed, El.
        destruct k as [|m].
        -- change (inject_Z (Z.of_nat 0)) with 0%Q. lra.
        -- destruct (Hinv m eq_refl) as [Hl Hb].
           pose proof (inject_S_mul m (CaptureThread.reconnect_delay_s self)) as Hs.
           lra.
      * exists k'. rewrite Ed in H3. split; [exact H1|]. split; [lia | exact H3].
Qed.

(** X9.  Reconnects are rate limited: in any run whose clock readings lie
    between [t0] and [T] (the clock not running backwards during a turn),
    [n + 1] reopen attempts by the loop need [n] cool-down delays to fit
    between [t0] and [T]. *)
Theorem reopen_attempts_rate_limited (ios : list IterIO) (t0 T : Q)
  (self : CaptureThread.t) (n : nat) :
  (0 < CaptureThread.reconnect_delay_s self)%Q ->
  Forall (fun io => (t0 <= io_now io /\ io_now io <= T /\ io_now io <= io_now' io)%Q) ios ->
  count_opens (CaptureThread.events (CaptureThread.run_loop ios self))
  = (count_opens (CaptureThread.events self) + S n)%nat ->
  (inject_Z (Z.of_nat n) * CaptureThread.reconnect_delay_s self <= T - t0)%Q.
Proof.
  intros Hd Hall Hn.
  destruct (run_loop_opens ios t0 T self (count_opens (CaptureThread.events self)) 0 Hd Hall)
    as (k' & Hk' & _ & Hb).
  - lia.
  - intros m Hm. discriminate Hm.
  - apply Hb. lia.
Qed.

Lemma reopen_attempts_rate_limited_witness :
  let fail (t : Q) := {| io_read := (false, None); io_now := t; io_open := NotOpened;
                         io_now' := t |} in
  let ios := [fail 1000%Q; fail (1000 + (5 # 100))%Q; fail 1001%Q; fail 1002%Q;
              fail 1003%Q; fail 1004%Q] in
  let self := CaptureThread.run_enter NotOpened
                (CaptureThread.start (CaptureThread.init "CH1" "rtsp://dvr" "CH1" 360)) in
  count_opens (CaptureThread.events (CaptureThread.run_loop ios self)) = 4%nat
  /\ (inject_Z (Z.of_nat 2) * 2 <= 1004 - 1000)%Q.
Proof.
  intros fail ios self.
  assert (Hc : count_opens (CaptureThread.events (CaptureThread.run_loop ios self))
               = (count_opens (CaptureThread.events self) + 3)%nat)
    by (vm_compute; reflexivity).
  split; [vm_compute; reflexivity|].
  apply (reopen_attempts_rate_limited ios 1000 1004 self 2); [reflexivity | | exact Hc].
  repeat constructor; cbn; discriminate.
Defined.

(** ** Channel coercion and the stream registry *)

Lemma mapM_Forall2 {A B : Type} (f : A -> result B) (l : list A) (l' : list B) :
  mapM f l = Ok l' <-> Forall2 (fun a b => f a = Ok b) l l'.
Proof.
  revert l'. induction l as [|a l IH]; intros l'; cbn.
  - split.
    + intros H. injection H as <-. constructor.
    + intros H. inversion H. reflexivity.
  - split.
    + destruct (f a) as [b|] eqn:Ea; cbn; [|discriminate].
      destruct (mapM f l) as [bs|] eqn:El; cbn; [|discriminate].
      intros H. injection H as <-. constructor; [exact Ea|]. apply IH. reflexivity.
    + intros H. inversion H as [|a' b l1 bs Ha Hl]; subst.
      rewrite Ha. cbn. apply IH in Hl. rewrite Hl. reflexivity.
Qed.

Lemma mapM_py_int_ints (l : list Z) : mapM py_int (map PyInt l) = Ok l.
Proof.
  induction l as [|z l IH]; [reflexivity|]. cbn [map mapM py_int rbind].
  rewrite IH. reflexivity.
Qed.

(** What [_coerce_channels] accepts, and as what: a list, tuple or set is
    accepted exactly when [int] accepts each member, and gives the
    converted members in the same order, repeated members kept; a single
    integer gives the one-member sequence; a sequence of integers is
    returned as it is. *)
Theorem coerce_channels_spec (l : list PyVal) (zs : list Z) (z : Z) :
  (_coerce_channels (PyList l) = Ok zs <-> Forall2 (fun x n => py_int x = Ok n) l zs)
  /\ _coerce_channels (PyTuple l) = _coerce_channels (PyList l)
  /\ _coerce_channels (PySet l) = _coerce_channels (PyList l)
  /\ _coerce_channels (PyInt z) = Ok [z]
  /\ _coerce_channels (PyTuple (map PyInt zs)) = Ok zs.
Proof.
  split; [apply mapM_Forall2|]. repeat split; try reflexivity.
  apply mapM_py_int_ints.
Qed.

Lemma mapM_raise_inv {A B : Type} (f : A -> result B) (l : list A) (e : Exn) :
  mapM f l = Raise e -> exists x, x ∈ l /\ f x = Raise e.
Proof.
  induction l as [|a l IH]; cbn; [discriminate|].
  destruct (f a) as [b|e'] eqn:Ea; cbn.
  - destruct (mapM f l) as [bs|e'']; cbn; [discriminate|].
    intros H. injection H as ->. destruct (IH eq_refl) as (x & Hx & Hfx).
    exists x. split; [right; exact Hx | exact Hfx].
  - intros H. injection H as ->. exists a. split; [left | exact Ea].
Qed.

(** A failing [mapM] stops at the first member that fails. *)
Lemma mapM_raise_first {A B : Type} (f : A -> result B) (l : list A) (e : Exn) :
  mapM f l = Raise e ->
  exists pre x post,
    l = pre ++ x :: post
    /\ Forall (fun y => exists n, f y = Ok n) pre
    /\ f x = Raise e.
Proof.
  induction l as [|a l IH]; cbn; [discriminate|].
  destruct (f a) as [b|e'] eqn:Ea; cbn.
  - destruct (mapM f l) as [bs|e'']; cbn; [discriminate|].
    intros H. injection H as ->. destruct (IH eq_refl) as (pre & x & post & -> & Hpre & Hx).
    exists (a :: pre), x, post. split; [reflexivity|]. split; [|exact Hx].
    constructor; eauto.
  - intros H. injection H as ->. exists [], a, l. split; [reflexivity|]. split; [constructor|exact Ea].
Qed.

(** X10.  [start_streams] succeeds exactly on the arguments it does not
    refuse.  For a [channels] argument whose text members are short ASCII
    texts, it returns normally if and only if [channels] is an integer or
    a list, tuple or set all of whose members convert to integers.  When
    it raises, the exception is [TypeError] for an argument of another
    type, and otherwise the one [int] raised on the first member it
    refused, the members before it having converted. *)
Theorem start_streams_accepts_iff (ip user password : string) (chs : PyVal)
  (subtype target_height : Z) (p : Process) :
  channels_plain chs ->
  let r := fst (start_streams ip user password chs subtype target_height p) in
  (r = Ok tt <-> ~ channels_rejected chs)
  /\ (forall e, r = Raise e ->
        match chs with
        | PyInt _ => False
        | PyStr _ | PyNone => e = TypeError
        | PyList l | PyTuple l | PySet l =>
            exists pre x post,
              l = pre ++ x :: post
              /\ Forall (fun y => exists n, py_int y = Ok n) pre
              /\ py_int x = Raise e
        end).
Proof.
  intros _ r. subst r. unfold start_streams.
  destruct (_coerce_channels chs) as [l | e] eqn:Hco; cbn [fst snd].
  - split; [|discriminate]. split; [|reflexivity].
    intros _ Hrej. destruct (coerce_rejected chs Hrej) as [e He]. congruence.
  - split.
    + split; [discriminate|].
      intros Hnot. exfalso. apply Hnot.
      destruct chs as [z | s | | l | l | l]; cbn in Hco |- *; try discriminate; try exact I;
        destruct (mapM_raise_inv py_int l e Hco) as (x & Hx & Hfx); eauto.
    + intros e' He'. injection He' as <-.
      destruct chs as [z | s | | l | l | l]; cbn in Hco; try congruence;
        apply mapM_raise_first; exact Hco.
Qed.

Lemma start_streams_accepts_iff_witness :
  fst (start_streams "192.168.0.18" "admin" "pw"
         (PyList [PyInt 1; PyStr " +2 "; PyStr "x"; PyNone]) 0 360 process_init)
  <> Ok tt
  /\ fst (start_streams "192.168.0.18" "admin" "pw"
            (PySet [PyStr "1_0"; PyInt 3]) 0 360 process_init)
     = Ok tt.
Proof.
  split.
  - intros Hok.
    apply (start_streams_accepts_iff "192.168.0.18" "admin" "pw"
             (PyList [PyInt 1; PyStr " +2 "; PyStr "x"; PyNone]) 0 360 process_init)
      in Hok.
    + apply Hok. exists (PyStr "x"), ValueError.
      split; [right; right; left | reflexivity].
    + repeat constructor.
  - apply (start_streams_accepts_iff "192.168.0.18" "admin" "pw"
             (PySet [PyStr "1_0"; PyInt 3]) 0 360 process_init).
    + repeat constructor.
    + intros (x & e & Hx & He).
      repeat (apply elem_of_cons in Hx as [-> | Hx]; [discriminate|]).
      apply elem_of_nil in Hx as [].
Defined.

(** X11.  [stop_all] (the exit hook) asks every registered thread to stop and
    nothing else: the registries and the configuration stay as they are,
    unregistered thread objects are not touched, and every accessor keeps
    serving the frame it had. *)
Theorem stop_all_keeps_registry (p : Process) :
  let p' := stop_all p in
  STATE p' = STATE p
  /\ trace p'
     = trace p ++ [LockAcquire]
         ++ map StopCalled (StreamState.thread_values (STATE p))
         ++ [LockRelease]
  /\ (forall ch tid t,
        StreamState.threads (STATE p) !! ch = Some tid -> objects p !! tid = Some t ->
        objects p' !! tid = Some (CaptureThread.stop t))
  /\ (forall tid,
        (forall ch, StreamState.threads (STATE p) !! ch <> Some tid) ->
        objects p' !! tid = objects p !! tid)
  /\ (forall tid, call_accessor tid p' = call_accessor tid p).
Proof.
  cbn zeta. unfold stop_all, stop_all_locked. cbn [STATE record].
  set (olds := StreamState.thread_values (STATE p)).
  destruct (fold_stop_thread olds (record LockAcquire p)) as (HS & _ & Ht & _ & Hobj).
  set (p1 := fold_left stop_thread olds (record LockAcquire p)) in *.
  cbn [STATE trace objects record] in *.
  assert (Hin : forall tid, tid ∈ olds
                  <-> exists ch, StreamState.threads (STATE p) !! ch = Some tid).
  { intros tid. apply elem_of_thread_values. }
  split; [exact HS|]. split; [rewrite Ht, <- !app_assoc; reflexivity|].
  split; [|split].
  - intros ch tid t Hreg Hobj0. rewrite Hobj, Hobj0.
    rewrite bool_decide_eq_true_2 by (apply Hin; eauto). reflexivity.
  - intros tid Hno. rewrite Hobj.
    rewrite bool_decide_eq_false_2.
    + destruct (objects p !! tid); reflexivity.
    + intros H. apply Hin in H as (ch & Hch). exact (Hno ch Hch).
  - intros tid. unfold call_accessor. cbn [objects record]. rewrite Hobj.
    destruct (objects p !! tid) as [t|]; cbn; [|reflexivity].
    destruct (bool_decide _); reflexivity.
Qed.

(** X12.  The two registries never disagree: after any sequence of
    [start_streams] calls on the initial state, [STATE.threads] and
    [STATE.getters] hold the same references under the same channels. *)
Theorem threads_and_getters_agree (cs : list Call) :
  StreamState.threads (STATE (do_calls cs process_init))
  = StreamState.getters (STATE (do_calls cs process_init)).
Proof.
  induction cs as [|c cs IH] using rev_ind; [reflexivity|].
  unfold do_calls in *. rewrite fold_left_app. cbn [fold_left].
  set (p := fold_left do_call cs process_init) in *.
  destruct (_coerce_channels (c_channels c)) as [l | e] eqn:Hco.
  - unfold do_call.
    destruct (start_streams_ok (c_ip c) (c_user c) (c_password c) (c_subtype c)
                (c_target_height c) (c_channels c) l p Hco)
      as (_ & _ & _ & _ & Hout & Hin).
    apply map_eq. intros ch. destruct (decide (ch ∈ l)) as [Hch | Hch].
    + destruct (Hin ch Hch) as (i & _ & -> & ->). reflexivity.
    + destruct (Hout ch Hch) as [-> ->]. reflexivity.
  - rewrite (do_call_rejected c e p Hco). exact IH.
Qed.

(** X13.  An accepted call creates one thread object per member of the channel
    sequence, repeated members included, and registers only objects it
    created itself: no thread that existed before the call is registered
    after it. *)
Theorem start_streams_registers_fresh_threads (ip user password : string) (chs : PyVal)
  (subtype target_height : Z) (p : Process) (l : list Z) :
  _coerce_channels chs = Ok l ->
  let p' := snd (start_streams ip user password chs subtype target_height p) in
  length (objects p') = (length (objects p) + length l)%nat
  /\ (forall ch tid, StreamState.getters (STATE p') !! ch = Some tid ->
        (length (objects p) <= tid < length (objects p'))%nat
        /\ objects p' !! tid
           = Some (new_thread ip user password subtype target_height ch)).
Proof.
  intros Hco p'.
  destruct (start_streams_ok ip user password subtype target_height chs l p Hco)
    as (_ & Hobj & _ & _ & Hout & Hin).
  fold p' in Hobj, Hout, Hin.
  assert (Hlen : length (objects p') = (length (objects p) + length l)%nat).
  { rewrite Hobj, length_app, !length_map, length_zip, length_seq, Nat.min_id.
    reflexivity. }
  split; [exact Hlen|].
  intros ch tid Hg. destruct (decide (ch ∈ l)) as [Hch | Hch].
  - destruct (Hin ch Hch) as (i & Hi & Hgi & _). rewrite Hgi in Hg. injection Hg as <-.
    pose proof (lookup_lt_Some _ _ _ Hi) as Hlt. split; [lia|].
    rewrite Hobj. rewrite lookup_app_r;
      rewrite length_map, length_zip, length_seq, Nat.min_id; [|lia].
    replace (length (objects p) + i - length (objects p))%nat with i by lia.
    apply lookup_map_Some. exact Hi.
  - destruct (Hout ch Hch) as [Hnone _]. rewrite Hnone in Hg. discriminate.
Qed.

Lemma start_streams_registers_fresh_threads_witness :
  let p := snd (start_streams "192.168.0.18" "admin" "pw" (PyTuple [PyInt 1; PyInt 2]) 0 360
                  process_init) in
  let p' := snd (start_streams "192.168.0.18" "admin" "pw" (PyList [PyInt 2; PyInt 2]) 0 360
                   p) in
  length (objects p') = 4%nat
  /\ StreamState.getters (STATE p') !! 2 = Some 3%nat.
Proof.
  intros p p'.
  destruct (start_streams_registers_fresh_threads "192.168.0.18" "admin" "pw"
              (PyList [PyInt 2; PyInt 2]) 0 360 p [2; 2] eq_refl) as [Hlen _].
  split; [exact Hlen | vm_compute; reflexivity].
Defined.

Section Duplicates.

Variables v_ip v_user v_password : string.
Variables v_subtype v_height : Z.

#[local, warnings="-notation-for-abbreviation"]
Notation start_one := (start_channel v_ip v_user v_password v_subtype v_height).
#[local, warnings="-notation-for-abbreviation"]
Notation fresh := (new_thread v_ip v_user v_password v_subtype v_height).

(** In the loop of [start_streams] a channel ends up bound to the thread
    started for its last occurrence in the list. *)
Lemma fold_start_channel_last (chs : list Z) :
  forall p : Process,
    (forall ch tid, StreamState.getters (STATE p) !! ch = Some tid ->
       (tid < length (objects p))%nat) ->
    forall ch (i : nat),
      StreamState.getters (STATE (fold_left start_one chs p)) !! ch
      = Some (length (objects p) + i)%nat ->
      chs !! i = Some ch /\ forall j : nat, (i < j)%nat -> chs !! j <> Some ch.
Proof.
  induction chs as [|c chs IH]; intros p Hb ch i Hg.
  - cbn in Hg. apply Hb in Hg. lia.
  - cbn [fold_left] in Hg.
    destruct (start_channel_fields v_ip v_user v_password v_subtype v_height p c)
      as (Eo & _ & Eg & _).
    assert (Hb1 : forall ch tid,
               StreamState.getters (STATE (start_one p c)) !! ch = Some tid ->
               (tid < length (objects (start_one p c)))%nat).
    { intros ch' tid. rewrite Eg, Eo, length_app. cbn [length].
      destruct (decide (c = ch')) as [-> | Hne].
      - rewrite lookup_insert_eq. intros H. injection H as <-. lia.
      - rewrite lookup_insert_ne by exact Hne. intros H. apply Hb in H. lia. }
    assert (Hlen1 : length (objects (start_one p c)) = S (length (objects p))).
    { rewrite Eo, length_app. cbn. lia. }
    destruct i as [|i].
    + destruct (fold_start_channel v_ip v_user v_password v_subtype v_height chs
                  (start_one p c)) as (_ & _ & _ & Hout & Hin).
      destruct (decide (ch ∈ chs)) as [Hch | Hch].
      { destruct (Hin ch Hch) as (k & _ & Hk & _). rewrite Hk in Hg.
        assert (length (objects (start_one p c)) + k = length (objects p) + 0)%nat
          by congruence.
        lia. }
      destruct (Hout ch Hch) as [Hsame _]. rewrite Hsame, Eg in Hg.
      destruct (decide (c = ch)) as [-> | Hne].
      * split; [reflexivity|]. intros [|j] Hj; [lia|]. cbn. intros Hj'.
        apply Hch. apply list_elem_of_lookup. eauto.
      * rewrite lookup_insert_ne in Hg by exact Hne. apply Hb in Hg. lia.
    + destruct (IH (start_one p c) Hb1 ch i) as [Hi Hlast].
      { rewrite Hg. f_equal. lia. }
      split; [exact Hi|]. intros [|j] Hj; [lia|]. cbn. apply Hlast. lia.
Qed.

Lemma start_streams_last (chs : PyVal) (l : list Z) (p : Process) (ch : Z) (i : nat) :
  _coerce_channels chs = Ok l ->
  StreamState.getters
    (STATE (snd (start_streams v_ip v_user v_password chs v_subtype v_height p))) !! ch
  = Some (length (objects p) + i)%nat ->
  l !! i = Some ch /\ forall j : nat, (i < j)%nat -> l !! j <> Some ch.
Proof.
  intros Hco. unfold start_streams. rewrite Hco. cbn [snd STATE record].
  unfold stop_all_locked. cbn [STATE record].
  set (olds := StreamState.thread_values (STATE p)).
  destruct (fold_stop_thread olds (record LockAcquire p)) as (_ & _ & _ & Hl & _).
  set (p1 := fold_left stop_thread olds (record LockAcquire p)) in *.
  cbn [objects record] in Hl.
  match goal with
  | |- context [fold_left ?f l ?q] => set (p2 := q)
  end.
  intros Hg.
  apply (fold_start_channel_last l p2).
  - intros ch' tid H. cbn in H. rewrite lookup_empty in H. discriminate.
  - change (objects p2) with (objects p1). rewrite Hl. exact Hg.
Qed.

End Duplicates.

(** A thread object that is not registered is out of reach of every later
    call: it is never stopped and never registered again. *)
Lemma unregistered_thread_untouched (c : Call) (q : Process) (tid : nat)
  (t : CaptureThread.t) :
  objects q !! tid = Some t ->
  (forall ch, StreamState.threads (STATE q) !! ch <> Some tid) ->
  objects (do_call q c) !! tid = Some t
  /\ (forall ch, StreamState.threads (STATE (do_call q c)) !! ch <> Some tid).
Proof.
  intros Ht Hno.
  destruct (_coerce_channels (c_channels c)) as [l | e] eqn:Hco.
  - unfold do_call. split.
    + rewrite (start_streams_old_object _ _ _ _ _ _ _ l tid t Hco Ht).
      rewrite bool_decide_eq_false_2; [reflexivity|].
      intros Hin. apply elem_of_thread_values in Hin as [ch Hm]. exact (Hno ch Hm).
    + intros ch Hreg.
      destruct (start_streams_ok (c_ip c) (c_user c) (c_password c) (c_subtype c)
                  (c_target_height c) (c_channels c) l q Hco)
        as (_ & _ & _ & _ & Hout & Hin).
      destruct (decide (ch ∈ l)) as [Hch | Hch].
      * destruct (Hin ch Hch) as (k & _ & _ & Hk). rewrite Hk in Hreg.
        injection Hreg as <-. apply lookup_lt_Some in Ht. lia.
      * destruct (Hout ch Hch) as [_ Hnone]. rewrite Hnone in Hreg. discriminate.
  - rewrite (do_call_rejected c e q Hco). split; assumption.
Qed.

(** X14.  Repeated channels leak threads.  When a channel occurs twice in an
    accepted channel sequence, the thread started for the earlier
    occurrence is running but registered nowhere; no later [start_streams]
    call and no [stop_all] ever sets its stop flag, so it runs for the rest
    of the process. *)
Theorem repeated_channel_leaks_thread (ip user password : string) (chs : PyVal)
  (subtype target_height : Z) (p : Process) (l : list Z) (ch : Z) (i j : nat) :
  _coerce_channels chs = Ok l ->
  l !! i = Some ch -> l !! j = Some ch -> (i < j)%nat ->
  let p1 := snd (start_streams ip user password chs subtype target_height p) in
  let tid := (length (objects p) + i)%nat in
  let t := new_thread ip user password subtype target_height ch in
  CaptureThread.status t = Running /\ CaptureThread.stop_flag t = false
  /\ objects p1 !! tid = Some t
  /\ (forall c, StreamState.threads (STATE p1) !! c <> Some tid
                /\ StreamState.getters (STATE p1) !! c <> Some tid)
  /\ (forall cs, objects (do_calls cs p1) !! tid = Some t
                 /\ objects (stop_all (do_calls cs p1)) !! tid = Some t).
Proof.
  intros Hco Hi Hj Hij p1 tid t.
  destruct (start_streams_ok ip user password subtype target_height chs l p Hco)
    as (_ & Hobj & _ & _ & Hout & Hin).
  fold p1 in Hobj, Hout, Hin.
  assert (Hget : forall c, StreamState.getters (STATE p1) !! c <> Some tid).
  { intros c Hg.
    destruct (start_streams_last ip user password subtype target_height chs l p c i Hco Hg)
      as [Hic Hlast].
    rewrite Hi in Hic. injection Hic as <-. exact (Hlast j Hij Hj). }
  assert (Hthr : forall c, StreamState.threads (STATE p1) !! c <> Some tid).
  { intros c Hreg. destruct (decide (c ∈ l)) as [Hc | Hc].
    - destruct (Hin c Hc) as (k & _ & Hg & Hk). apply (Hget c). congruence.
    - destruct (Hout c Hc) as [_ Hnone]. congruence. }
  assert (Ht : objects p1 !! tid = Some t).
  { rewrite Hobj. unfold tid. rewrite lookup_app_r;
      rewrite length_map, length_zip, length_seq, Nat.min_id; [|lia].
    replace (length (objects p) + i - length (objects p))%nat with i by lia.
    apply lookup_map_Some. exact Hi. }
  split; [reflexivity|]. split; [reflexivity|]. split; [exact Ht|].
  split; [intros c; split; [apply Hthr | apply Hget]|].
  intros cs.
  assert (Hinv : objects (do_calls cs p1) !! tid = Some t
                 /\ forall c, StreamState.threads (STATE (do_calls cs p1)) !! c <> Some tid).
  { induction cs as [|c cs IH] using rev_ind; [split; assumption|].
    unfold do_calls in *. rewrite fold_left_app. cbn [fold_left].
    destruct IH as [IH1 IH2]. apply unregistered_thread_untouched; assumption. }
  destruct Hinv as [Hinv1 Hinv2]. split; [exact Hinv1|].
  unfold stop_all, stop_all_locked. cbn [STATE record].
  destruct (fold_stop_thread
              (StreamState.thread_values (STATE (do_calls cs p1)))
              (record LockAcquire (do_calls cs p1))) as (_ & _ & _ & _ & Hstop).
  cbn [objects record] in *. rewrite Hstop, Hinv1.
  rewrite bool_decide_eq_false_2; [reflexivity|].
  intros Hin'. apply elem_of_thread_values in Hin' as [c Hm]. exact (Hinv2 c Hm).
Qed.

Lemma repeated_channel_leaks_thread_witness :
  let p1 := snd (start_streams "192.168.0.18" "admin" "pw" (PyList [PyInt 1; PyInt 1]) 0 360
                   process_init) in
  let later := [ {| c_ip := "192.168.0.18"; c_user := "admin"; c_password := "pw";
                    c_channels := PyTuple [PyInt 1; PyInt 2];
                    c_subtype := 0; c_target_height := 360 |} ] in
  (CaptureThread.stop_flag <$> objects (stop_all (do_calls later p1)) !! 0%nat) = Some false
  /\ (CaptureThread.status <$> objects (stop_all (do_calls later p1)) !! 0%nat)
     = Some Running
  /\ (CaptureThread.stop_flag <$> objects (stop_all (do_calls later p1)) !! 1%nat)
     = Some true.
Proof.
  intros p1 later.
  destruct (repeated_channel_leaks_thread "192.168.0.18" "admin" "pw"
              (PyList [PyInt 1; PyInt 1]) 0 360 process_init [1; 1] 1 0%nat 1%nat
              eq_refl eq_refl eq_refl) as (_ & _ & _ & _ & Hall); [lia|].
  destruct (Hall later) as [_ Hstop]. cbn [length objects process_init Nat.add] in Hstop.
  fold p1 in Hstop. rewrite Hstop.
  split; [reflexivity|]. split; [reflexivity | vm_compute; reflexivity].
Defined.

(** ** URLs, labels and texts *)

Lemma hex_digit_unreserved (n : N) : (n < 16)%N -> is_unreserved (hex_digit n) = true.
Proof.
  intros H.
  assert (Hall : forallb (fun k => is_unreserved (hex_digit (N.of_nat k))) (seq 0 16) = true)
    by (vm_compute; reflexivity).
  rewrite forallb_forall in Hall.
  rewrite <- (N2Nat.id n). apply Hall. apply in_seq. lia.
Qed.

Lemma hex_digit_inj (n m : N) :
  (n < 16)%N -> (m < 16)%N -> hex_digit n = hex_digit m -> n = m.
Proof.
  intros Hn Hm H. apply (f_equal Ascii.N_of_ascii) in H. unfold hex_digit in H.
  rewrite !Ascii.N_ascii_embedding in H
    by (destruct (N.ltb_spec n 10); destruct (N.ltb_spec m 10); lia).
  destruct (N.ltb_spec n 10); destruct (N.ltb_spec m 10); lia.
Qed.

(** X15.  Quoting produces only unreserved characters and percent signs, so no
    character that structures the URL (colon, at sign, slash, question
    mark, hash, ampersand, equals sign, space) can come out of a user name
    or a password. *)
Theorem quote_output_is_safe (s : string) :
  string_forall is_quoted_char (quote s) = true
  /\ string_forall (fun a => negb (is_url_delimiter a)) (quote s) = true.
Proof.
  assert (Hsafe : forall a, is_quoted_char a = true -> negb (is_url_delimiter a) = true).
  { intros a Ha. unfold is_quoted_char, is_unreserved, is_url_delimiter in *. cbn.
    destruct (Ascii.N_of_ascii a) as [|q]; [discriminate|].
    repeat match goal with
           | |- context [(N.pos q =? ?k)%N] => destruct (N.eqb_spec (N.pos q) k)
           end; try reflexivity; subst; try discriminate; exfalso;
      match goal with E : N.pos q = _ |- _ => rewrite E in Ha end;
      vm_compute in Ha; discriminate. }
  assert (Hq : string_forall is_quoted_char (quote s) = true).
  { induction s as [|a s IH]; [reflexivity|]. cbn [quote].
    destruct (is_unreserved a) eqn:Ea.
    - cbn [string_forall]. rewrite IH. unfold is_quoted_char. rewrite Ea. reflexivity.
    - pose proof (Ascii.N_ascii_bounded a) as Hb.
      cbn [string_forall]. rewrite IH. unfold is_quoted_char at 2 3.
      rewrite !hex_digit_unreserved.
      + reflexivity.
      + apply N.mod_lt. discriminate.
      + apply N.Div0.div_lt_upper_bound. exact Hb. }
  split; [exact Hq|].
  revert Hq. generalize (quote s). intros q. induction q as [|a q IH]; [reflexivity|].
  cbn [string_forall]. intros H. apply andb_prop in H as [Ha Hq].
  rewrite (Hsafe a Ha), (IH Hq). reflexivity.
Qed.

(** X16.  Quoting loses nothing: different texts have different quotings. *)
Theorem quote_injective (s1 s2 : string) : quote s1 = quote s2 -> s1 = s2.
Proof.
  assert (Hpct : forall a, is_unreserved a = true -> a <> "%"%char).
  { intros a Ha ->. vm_compute in Ha. discriminate. }
  revert s2. induction s1 as [|a s1 IH]; intros [|b s2]; cbn [quote].
  - reflexivity.
  - destruct (is_unreserved b); discriminate.
  - destruct (is_unreserved a); discriminate.
  - destruct (is_unreserved a) eqn:Ea; destruct (is_unreserved b) eqn:Eb; intros H.
    + injection H as -> H. f_equal. apply IH. exact H.
    + injection H as Ha _. exfalso. exact (Hpct a Ea Ha).
    + injection H as Hb _. exfalso. symmetry in Hb. exact (Hpct b Eb Hb).
    + injection H as H1 H2 H. rewrite (IH s2 H). f_equal.
      pose proof (Ascii.N_ascii_bounded a) as Hba.
      pose proof (Ascii.N_ascii_bounded b) as Hbb.
      apply hex_digit_inj in H1;
        [|apply N.Div0.div_lt_upper_bound; assumption
         |apply N.Div0.div_lt_upper_bound; assumption].
      apply hex_digit_inj in H2; [|apply N.mod_lt; discriminate | apply N.mod_lt; discriminate].
      rewrite <- (Ascii.ascii_N_embedding a), <- (Ascii.ascii_N_embedding b).
      f_equal.
      rewrite (N.div_mod (Ascii.N_of_ascii a) 16), (N.div_mod (Ascii.N_of_ascii b) 16)
        by discriminate.
      rewrite H1, H2. reflexivity.
Qed.

Lemma quote_injective_witness :
  quote "p@ss w" = "p%40ss%20w"
  /\ quote "p@ss w" = quote ("p@" +:+ "ss w")
  /\ "p@ss w" = "p@" +:+ "ss w".
Proof.
  split; [reflexivity|]. split; [reflexivity|].
  apply (quote_injective "p@ss w" ("p@" +:+ "ss w")). reflexivity.
Defined.

Lemma string_length_app (a b : string) :
  String.length (a +:+ b) = (String.length a + String.length b)%nat.
Proof. induction a as [|c a IH]; simpl; [reflexivity | f_equal; exact IH]. Qed.

Lemma string_app_inv_tail (a b t : string) : a +:+ t = b +:+ t -> a = b.
Proof.
  revert b. induction a as [|c a IH]; intros [|d b] H; simpl in H.
  - reflexivity.
  - apply (f_equal String.length) in H. simpl in H.
    rewrite !string_length_app in H. simpl in H. lia.
  - apply (f_equal String.length) in H. simpl in H.
    rewrite !string_length_app in H. simpl in H. lia.
  - injection H as -> H. f_equal. apply IH. exact H.
Qed.

(** X17.  Different channels never share an identity: for one recorder address
    and credentials, the threads started for two different channels have
    different connection URLs, different labels and different names. *)
Theorem channel_identities_distinct (ip user password : string)
  (subtype target_height ch1 ch2 : Z) :
  ch1 <> ch2 ->
  make_rtsp_url ip user password ch1 subtype <> make_rtsp_url ip user password ch2 subtype
  /\ CaptureThread.url (new_thread ip user password subtype target_height ch1)
     <> CaptureThread.url (new_thread ip user password subtype target_height ch2)
  /\ CaptureThread.label (new_thread ip user password subtype target_height ch1)
     <> CaptureThread.label (new_thread ip user password subtype target_height ch2)
  /\ CaptureThread.name (new_thread ip user password subtype target_height ch1)
     <> CaptureThread.name (new_thread ip user password subtype target_height ch2).
Proof.
  intros Hne.
  assert (Hurl : make_rtsp_url ip user password ch1 subtype
                 <> make_rtsp_url ip user password ch2 subtype).
  { unfold make_rtsp_url. intros H.
    repeat (apply String.app_inj in H).
    apply string_app_inv_tail in H. apply pretty_Z_inj in H. exact (Hne H). }
  assert (Hlab : "CH" +:+ pretty ch1 <> "CH" +:+ pretty ch2).
  { intros H. apply String.app_inj in H. apply pretty_Z_inj in H. exact (Hne H). }
  repeat split; assumption.
Qed.

Lemma channel_identities_distinct_witness :
  make_rtsp_url "192.168.0.18" "admin" "arenna@123" 1 0
  <> make_rtsp_url "192.168.0.18" "admin" "arenna@123" 11 0.
Proof.
  apply (channel_identities_distinct "192.168.0.18" "admin" "arenna@123" 0 360 1 11).
  discriminate.
Defined.

Lemma pretty_N_char_digit (d : N) :
  (d < 10)%N ->
  digit_of (pretty_N_char d) = Some (Z.of_N d) /\ is_space (pretty_N_char d) = false.
Proof.
  intros H.
  assert (Hall : forallb (fun k =>
                   match digit_of (pretty_N_char (N.of_nat k)) with
                   | Some z => (z =? Z.of_nat k) && negb (is_space (pretty_N_char (N.of_nat k)))
                   | None => false
                   end) (seq 0 10) = true) by (vm_compute; reflexivity).
  rewrite forallb_forall in Hall.
  assert (Hin : In (N.to_nat d) (seq 0 10)) by (apply in_seq; lia).
  specialize (Hall _ Hin). rewrite N2Nat.id in Hall.
  destruct (digit_of (pretty_N_char d)) as [z|]; [|discriminate].
  apply andb_prop in Hall as [Hz Hs].
  apply Z.eqb_eq in Hz. apply negb_true_iff in Hs. split; [f_equal; lia | exact Hs].
Qed.

(** Reading back the digits that [pretty] wrote in front of [s]. *)
Lemma parse_digits_pretty_go (x : N) :
  forall (s : string) (acc : option Z),
    (0 < x)%N -> default 0 acc = 0 ->
    parse_digits (pretty_N_go x s) acc false
    = parse_digits s (Some (Z.of_N x)) false.
Proof.
  induction (N.lt_wf_0 x) as [x _ IH]. intros s acc Hx Hacc.
  rewrite pretty_N_go_step by exact Hx.
  destruct (pretty_N_char_digit (x mod 10)) as [Hd _]; [apply N.mod_lt; discriminate|].
  pose proof (N.div_mod x 10 ltac:(discriminate)) as Hdm.
  pose proof (N.mod_lt x 10 ltac:(discriminate)) as Hm.
  destruct (N.eq_dec (x / 10)%N 0%N) as [E0 | Hpos].
  - rewrite E0, pretty_N_go_0. cbn [parse_digits]. rewrite Hd, Hacc.
    do 2 f_equal. lia.
  - rewrite IH;
      [|apply N.div_lt; lia | apply N.neq_0_lt_0; exact Hpos | exact Hacc].
    cbn [parse_digits]. rewrite Hd. cbn [default]. unfold id. do 2 f_equal. lia.
Qed.

Lemma pretty_N_go_nospace (x : N) :
  forall s : string,
    string_forall (fun a => negb (is_space a)) s = true ->
    string_forall (fun a => negb (is_space a)) (pretty_N_go x s) = true.
Proof.
  induction (N.lt_wf_0 x) as [x _ IH]. intros s Hs.
  destruct (N.eq_dec x 0%N) as [-> | Hx]; [rewrite pretty_N_go_0; exact Hs|].
  rewrite pretty_N_go_step by lia. apply IH; [apply N.div_lt; lia|].
  cbn [string_forall]. rewrite Hs.
  destruct (pretty_N_char_digit (x mod 10)) as [_ ->]; [apply N.mod_lt; discriminate|].
  reflexivity.
Qed.

Lemma rev_app_forall (f : ascii -> bool) (s t : string) :
  string_forall f (String.rev_app s t) = string_forall f s && string_forall f t.
Proof.
  revert t. induction s as [|a s IH]; intros t; cbn [String.rev_app string_forall].
  - reflexivity.
  - rewrite IH. cbn [string_forall]. destruct (f a), (string_forall f s); reflexivity.
Qed.

Lemma string_app_nil_r (s : string) : s +:+ "" = s.
Proof.
  induction s as [|a s IH]; [reflexivity|].
  change (String a (s +:+ "") = String a s). f_equal. exact IH.
Qed.

Lemma rev_app_rev_app (s t u : string) :
  String.rev_app (String.rev_app s t) u = String.rev_app t (s +:+ u).
Proof.
  revert t u. induction s as [|a s IH]; intros t u; [reflexivity|].
  change (String.rev_app (String.rev_app s (String a t)) u
          = String.rev_app t (String a (s +:+ u))).
  rewrite IH. reflexivity.
Qed.

Lemma lstrip_nospace (s : string) :
  string_forall (fun a => negb (is_space a)) s = true -> lstrip s = s.
Proof.
  destruct s as [|a s]; [reflexivity|]. cbn [string_forall lstrip].
  intros H. apply andb_prop in H as [Ha _]. apply negb_true_iff in Ha.
  rewrite Ha. reflexivity.
Qed.

(** [strip] leaves a text without white space as it is. *)
Lemma strip_nospace (s : string) :
  string_forall (fun a => negb (is_space a)) s = true -> strip s = s.
Proof.
  intros H. unfold strip. rewrite (lstrip_nospace s H).
  rewrite lstrip_nospace.
  - unfold String.rev. rewrite rev_app_rev_app. simpl. apply string_app_nil_r.
  - unfold String.rev. rewrite rev_app_forall, H. reflexivity.
Qed.

Lemma c_space_is_space (a : ascii) : is_c_space a = true -> is_space a = true.
Proof.
  destruct a as [[] [] [] [] [] [] [] []]; vm_compute; congruence.
Qed.

Lemma skip_c_space_nospace (s : string) :
  string_forall (fun a => negb (is_space a)) s = true -> skip_c_space s = s.
Proof.
  destruct s as [|a s]; [reflexivity|]. cbn [string_forall skip_c_space].
  intros H. apply andb_prop in H as [Ha _]. apply negb_true_iff in Ha.
  destruct (is_c_space a) eqn:E; [|reflexivity].
  apply c_space_is_space in E. congruence.
Qed.

(** The trimming of [int] leaves a text without white space as it is. *)
Lemma int_trim_nospace (s : string) :
  string_forall (fun a => negb (is_space a)) s = true ->
  String.rev (skip_c_space (String.rev (skip_c_space s))) = s.
Proof.
  intros H. rewrite (skip_c_space_nospace s H).
  rewrite skip_c_space_nospace.
  - unfold String.rev. rewrite rev_app_rev_app. simpl. apply string_app_nil_r.
  - unfold String.rev. rewrite rev_app_forall, H. reflexivity.
Qed.

Lemma int_of_str_unsigned (a : ascii) (s : string) :
  String.rev (skip_c_space (String.rev (skip_c_space (String a s)))) = String a s ->
  digit_of a <> None ->
  int_of_str (String a s) = parse_digits (String a s) None false.
Proof.
  intros Hs Hd. unfold int_of_str. rewrite Hs.
  destruct a as [[] [] [] [] [] [] [] []]; try reflexivity;
    exfalso; apply Hd; reflexivity.
Qed.

(** [int] reads back what decimal printing wrote: [int(str(z)) = z]. *)
Lemma int_of_str_pretty (z : Z) : int_of_str (pretty z) = Some z.
Proof.
  assert (Hpos : forall p : positive,
            exists a s, pretty_N_go (N.pos p) "" = String a s
                        /\ digit_of a <> None
                        /\ string_forall (fun a => negb (is_space a)) (String a s) = true
                        /\ parse_digits (String a s) None false = Some (Z.pos p)).
  { intros p.
    pose proof (parse_digits_pretty_go (N.pos p) "" None ltac:(lia) eq_refl) as Hp.
    pose proof (pretty_N_go_nospace (N.pos p) "" eq_refl) as Hn.
    cbn [parse_digits] in Hp.
    destruct (pretty_N_go (N.pos p) "") as [|a s]; [discriminate Hp|].
    exists a, s. split; [reflexivity|]. split; [|split; [exact Hn | exact Hp]].
    cbn [parse_digits] in Hp. destruct (digit_of a); [discriminate|].
    destruct (_ =? _)%N in Hp; discriminate Hp. }
  destruct z as [|p|p].
  - reflexivity.
  - change (pretty (Z.pos p)) with (pretty_N_go (N.pos p) "").
    destruct (Hpos p) as (a & s & -> & Hd & Hn & Hp).
    rewrite int_of_str_unsigned; [exact Hp | apply int_trim_nospace; exact Hn | exact Hd].
  - change (pretty (Z.neg p)) with ("-" +:+ pretty_N_go (N.pos p) "").
    destruct (Hpos p) as (a & s & -> & Hd & Hn & Hp).
    unfold int_of_str. rewrite int_trim_nospace.
    + change ("-" +:+ String a s) with (String "-" (String a s)). cbv iota beta.
      rewrite Hp. reflexivity.
    + change (negb (is_space "-")
              && string_forall (fun a0 => negb (is_space a0)) (String a s) = true).
      rewrite Hn. reflexivity.
Qed.

(** ** Web routes *)

Lemma insert_sorted_elem (z x : Z) (l : list Z) :
  x ∈ insert_sorted z l <-> x = z \/ x ∈ l.
Proof.
  induction l as [|y l IH]; cbn [insert_sorted].
  - rewrite list_elem_of_singleton. split; [auto | intros [? | H]; [assumption|]].
    apply elem_of_nil in H as [].
  - destruct (Z.ltb_spec z y); [rewrite elem_of_cons; reflexivity|].
    destruct (Z.eqb_spec z y) as [-> | Hne].
    + rewrite elem_of_cons. tauto.
    + rewrite !elem_of_cons, IH. tauto.
Qed.

Lemma insert_sorted_increasing (z : Z) (l : list Z) :
  increasing l -> increasing (insert_sorted z l).
Proof.
  induction l as [|y l IH]; cbn [insert_sorted increasing].
  - intros _. split; [constructor | exact I].
  - intros [Hy Hl]. destruct (Z.ltb_spec z y).
    + cbn [increasing]. split; [|split; assumption].
      constructor; [assumption|]. eapply Forall_impl; [exact Hy|]. cbn. lia.
    + destruct (Z.eqb_spec z y) as [-> | Hne]; [split; assumption|].
      cbn [increasing]. split; [|exact (IH Hl)].
      apply Forall_forall. intros x Hx. apply insert_sorted_elem in Hx as [-> | Hx]; [lia|].
      rewrite Forall_forall in Hy. exact (Hy x Hx).
Qed.

(** [sorted(set(l))]: the members of [l], strictly increasing. *)
Lemma sorted_set_spec (l : list Z) :
  increasing (sorted_set l) /\ forall x, x ∈ sorted_set l <-> x ∈ l.
Proof.
  induction l as [|z l [IHs IHe]]; cbn [sorted_set foldr].
  - split; [exact I | reflexivity].
  - fold (sorted_set l). split; [apply insert_sorted_increasing; exact IHs|].
    intros x. rewrite insert_sorted_elem, IHe, elem_of_cons. reflexivity.
Qed.

Lemma increasing_NoDup (l : list Z) : increasing l -> NoDup l.
Proof.
  induction l as [|x l IH]; cbn [increasing]; [constructor|].
  intros [Hx Hl]. constructor; [|exact (IH Hl)].
  intros Hin. rewrite Forall_forall in Hx. specialize (Hx x Hin). lia.
Qed.

(** The channels [connect] asks for: channel 1 when the form names none,
    else the parsed values, each once, in increasing order. *)
Lemma connect_unfold (form : Form) (p : Process) (st th : Z) (zs : list Z) :
  int_field (form_get form "subtype" "0") = Ok st ->
  int_field (form_get form "target_height" "360") = Ok th ->
  mapM int_field (form_getlist form "channels") = Ok zs ->
  let chans := match zs with [] => [1] | _ => sorted_set zs end in
  connect form p
  = (Ok (Redirect "/view"),
     snd (start_streams (strip (form_get form "ip" "")) (strip (form_get form "user" ""))
            (form_get form "password" "") (PyTuple (map PyInt chans)) st th p)).
Proof.
  intros Hst Hth Hzs chans. unfold connect. rewrite Hst, Hth.
  assert (Hch : match form_getlist form "channels" with
                | [] => Ok [1]
                | _ => zs0 <~ mapM int_field (form_getlist form "channels") ;;
                       Ok (sorted_set zs0)
                end = Ok chans).
  { pose proof (mapM_length _ _ _ Hzs) as Hlen. rewrite Hzs. subst chans.
    destruct (form_getlist form "channels"), zs; try discriminate; reflexivity. }
  rewrite Hch.
  unfold start_streams. cbn [_coerce_channels]. rewrite mapM_py_int_ints. reflexivity.
Qed.

(** X18.  For a form whose numeric fields are short ASCII texts, [connect]
    either redirects to the view page or raises [ValueError] with the
    process untouched; it raises exactly when the subtype, the target
    height or one of the channel fields is not a decimal literal that
    [int] accepts. *)
Theorem connect_outcome (form : Form) (p : Process) :
  short_ascii (form_get form "subtype" "0") = true ->
  short_ascii (form_get form "target_height" "360") = true ->
  Forall (fun v => short_ascii v = true) (form_getlist form "channels") ->
  let bad := int_of_str (form_get form "subtype" "0") = None
             \/ int_of_str (form_get form "target_height" "360") = None
             \/ exists v, v ∈ form_getlist form "channels" /\ int_of_str v = None in
  (bad -> connect form p = (Raise ValueError, p))
  /\ (~ bad -> fst (connect form p) = Ok (Redirect "/view")).
Proof.
  intros _ _ _. cbn zeta.
  assert (Hfield : forall s, int_field s = Raise ValueError \/ exists z, int_field s = Ok z).
  { intros s. unfold int_field. destruct (int_of_str s); eauto. }
  assert (Hnone : forall s, int_of_str s = None <-> int_field s = Raise ValueError).
  { intros s. unfold int_field. destruct (int_of_str s); split; congruence. }
  assert (Hlist : forall vals,
             (exists v, v ∈ vals /\ int_of_str v = None)
             <-> mapM int_field vals = Raise ValueError).
  { intros vals. split.
    - intros (v & Hv & Hn). apply Hnone in Hn.
      destruct (mapM_raise int_field vals) as [e He]; [eauto|].
      destruct (mapM_raise_inv _ _ _ He) as (x & _ & Hx).
      destruct (Hfield x) as [Hr | [z Hz]]; congruence.
    - intros H. destruct (mapM_raise_inv _ _ _ H) as (x & Hx & Hr).
      exists x. split; [exact Hx | apply Hnone; exact Hr]. }
  split.
  - intros Hbad. unfold connect.
    destruct (Hfield (form_get form "subtype" "0")) as [-> | [st Hst]]; [reflexivity|].
    rewrite Hst.
    destruct (Hfield (form_get form "target_height" "360")) as [-> | [th Hth]];
      [reflexivity|].
    rewrite Hth.
    destruct Hbad as [H | [H | H]].
    + apply Hnone in H. congruence.
    + apply Hnone in H. congruence.
    + pose proof H as (v & Hv & _). apply Hlist in H. rewrite H.
      destruct (form_getlist form "channels"); [apply elem_of_nil in Hv as []|].
      reflexivity.
  - intros Hgood.
    destruct (Hfield (form_get form "subtype" "0")) as [Hr | [st Hst]].
    { exfalso. apply Hgood. left. apply Hnone. exact Hr. }
    destruct (Hfield (form_get form "target_height" "360")) as [Hr | [th Hth]].
    { exfalso. apply Hgood. right; left. apply Hnone. exact Hr. }
    destruct (mapM int_field (form_getlist form "channels")) as [zs | e] eqn:Hzs.
    + rewrite (connect_unfold form p st th zs Hst Hth Hzs). reflexivity.
    + exfalso. apply Hgood. right; right. apply Hlist.
      destruct (mapM_raise_inv _ _ _ Hzs) as (x & _ & Hx).
      destruct (Hfield x) as [Hr | [z Hz]]; congruence.
Qed.

Lemma connect_outcome_witness :
  let p := snd (start_streams "192.168.0.18" "admin" "pw" (PyTuple [PyInt 1]) 0 360
                  process_init) in
  connect [("ip", "192.168.0.18"); ("channels", "2"); ("channels", "x")] p
  = (Raise ValueError, p)
  /\ fst (connect [("ip", " 192.168.0.18 "); ("channels", "2"); ("channels", " 3")] p)
     = Ok (Redirect "/view").
Proof.
  intros p. split.
  - apply (connect_outcome [("ip", "192.168.0.18"); ("channels", "2"); ("channels", "x")] p);
      [reflexivity | reflexivity | repeat constructor |].
    right; right. exists "x". split; [right; left | reflexivity].
  - apply (connect_outcome
             [("ip", " 192.168.0.18 "); ("channels", "2"); ("channels", " 3")] p);
      [reflexivity | reflexivity | repeat constructor |].
    intros [H | [H | (v & Hv & Hn)]]; try discriminate.
    repeat (apply elem_of_cons in Hv as [-> | Hv]; [discriminate|]).
    apply elem_of_nil in Hv as [].
Defined.

Lemma mapM_int_field_pretty (zs : list Z) : mapM int_field (map pretty zs) = Ok zs.
Proof.
  induction zs as [|z zs IH]; [reflexivity|]. cbn [map mapM].
  unfold int_field at 1. rewrite int_of_str_pretty. cbn [rbind]. rewrite IH. reflexivity.
Qed.

(** X19.  Channel numbers survive the trip through the form.  When the page
    submits the decimal texts of the channels [zs] (in any order, repeats
    allowed) with a decimal subtype and target height, [connect] redirects
    to the view page, the registry holds exactly the channels [zs], the
    stored channel list is strictly increasing, and one thread is started
    per distinct channel, every one of them registered. *)
Theorem connect_reads_form_channels (form : Form) (p : Process) (zs : list Z) (st th : Z) :
  zs <> [] ->
  form_getlist form "channels" = map pretty zs ->
  form_get form "subtype" "0" = pretty st ->
  form_get form "target_height" "360" = pretty th ->
  let r := connect form p in
  fst r = Ok (Redirect "/view")
  /\ (forall ch, is_Some (get_accessor ch (snd r)) <-> ch ∈ zs)
  /\ StreamState.config (STATE (snd r))
     = {| ip := strip (form_get form "ip" "");
          user := strip (form_get form "user" "");
          password := form_get form "password" "";
          channels := sorted_set zs; subtype := st; target_height := th |}
  /\ increasing (channels (StreamState.config (STATE (snd r))))
  /\ (forall tid, (length (objects p) <= tid < length (objects (snd r)))%nat ->
        exists ch, ch ∈ zs /\ get_accessor ch (snd r) = Some tid).
Proof.
  intros Hne Hvals Hst Hth r.
  assert (Est : int_field (form_get form "subtype" "0") = Ok st)
    by (rewrite Hst; unfold int_field; rewrite int_of_str_pretty; reflexivity).
  assert (Eth : int_field (form_get form "target_height" "360") = Ok th)
    by (rewrite Hth; unfold int_field; rewrite int_of_str_pretty; reflexivity).
  assert (Ezs : mapM int_field (form_getlist form "channels") = Ok zs)
    by (rewrite Hvals; apply mapM_int_field_pretty).
  pose proof (connect_unfold form p st th zs Est Eth Ezs) as Hc. cbn zeta in Hc.
  assert (Hch : match zs with [] => [1] | _ => sorted_set zs end = sorted_set zs)
    by (destruct zs; [congruence | reflexivity]).
  rewrite Hch in Hc. subst r. rewrite Hc. cbn [fst snd].
  destruct (sorted_set_spec zs) as [Hinc Hmem].
  set (ip0 := strip (form_get form "ip" "")) in *.
  set (user0 := strip (form_get form "user" "")) in *.
  set (pw0 := form_get form "password" "") in *.
  assert (Hco : _coerce_channels (PyTuple (map PyInt (sorted_set zs))) = Ok (sorted_set zs))
    by apply mapM_py_int_ints.
  destruct (start_streams_ok ip0 user0 pw0 st th _ _ p Hco)
    as (_ & Hobj & _ & Hcfg & Hout & Hin).
  set (p' := snd (start_streams ip0 user0 pw0 (PyTuple (map PyInt (sorted_set zs))) st th p))
    in *.
  split; [reflexivity|]. split; [|split; [exact Hcfg | split]].
  - intros ch. unfold get_accessor. rewrite <- Hmem. split.
    + intros Hsome. destruct (decide (ch ∈ sorted_set zs)) as [|Hn]; [assumption|].
      destruct (Hout ch Hn) as [Hnone _]. rewrite Hnone in Hsome.
      destruct Hsome; discriminate.
    + intros Hch'. destruct (Hin ch Hch') as (i & _ & -> & _). eauto.
  - rewrite Hcfg. exact Hinc.
  - intros tid Htid.
    assert (Hlen : length (objects p')
                   = (length (objects p) + length (sorted_set zs))%nat).
    { rewrite Hobj, length_app, !length_map, length_zip, length_seq, Nat.min_id.
      reflexivity. }
    destruct (lookup_lt_is_Some_2 (sorted_set zs) (tid - length (objects p))) as [ch Hi];
      [lia|].
    assert (Hch' : ch ∈ sorted_set zs) by (apply list_elem_of_lookup; eauto).
    exists ch. split; [apply Hmem; exact Hch'|].
    destruct (Hin ch Hch') as (k & Hk & Hg & _). unfold get_accessor. rewrite Hg.
    pose proof (NoDup_lookup _ _ _ _ (increasing_NoDup _ Hinc) Hi Hk) as <-.
    f_equal. lia.
Qed.

Lemma connect_reads_form_channels_witness :
  let form := [("ip", " 10.0.0.5"); ("user", "admin"); ("password", "p w");
               ("subtype", "1"); ("target_height", "240");
               ("channels", "7"); ("channels", "2"); ("channels", "7")] in
  let r := connect form process_init in
  fst r = Ok (Redirect "/view")
  /\ channels (StreamState.config (STATE (snd r))) = [2; 7]
  /\ is_Some (get_accessor 7 (snd r))
  /\ length (objects (snd r)) = 2%nat.
Proof.
  intros form r.
  destruct (connect_reads_form_channels form process_init [7; 2; 7] 1 240)
    as (Hfst & Hmem & Hcfg & _ & _);
    [discriminate | reflexivity | reflexivity | reflexivity |].
  fold r in Hfst, Hmem, Hcfg.
  split; [exact Hfst|]. split; [rewrite Hcfg; reflexivity|].
  split; [apply Hmem; left | vm_compute; reflexivity].
Defined.

Lemma omap_lookup_all {V : Type} (m : gmap Z V) (chans : list Z) :
  (forall c, c ∈ chans -> is_Some (m !! c)) ->
  Forall2 (fun c v => m !! c = Some v) chans (omap (fun c => m !! c) chans).
Proof.
  induction chans as [|c chans IH]; intros H; cbn; [constructor|].
  destruct (H c) as [v Hv]; [left|]. rewrite Hv. constructor; [exact Hv|].
  apply IH. intros c' Hc'. apply H. right. exact Hc'.
Qed.

(** X20.  The mosaic route after an accepted [start_streams] call, for a
    [cols] argument that is a short ASCII text: it raises [ValueError]
    when [cols] is not a decimal literal that [int] accepts; otherwise it
    answers 404 exactly when the channel sequence is empty, and else
    streams a mosaic with one tile per entry of the sequence, in order and
    with repeated channels repeated (only the first four entries for
    [subset=first4]), the grid using the stored target height as cell
    height. *)
Theorem mosaic_mjpg_after_start (ip user password : string) (chs : PyVal)
  (st th : Z) (p : Process) (l : list Z) (args : Form) :
  short_ascii (form_get args "cols" "2") = true ->
  _coerce_channels chs = Ok l ->
  let p' := snd (start_streams ip user password chs st th p) in
  let chans := if String.eqb (form_get args "subset" "all") "first4" then take 4 l else l in
  (int_of_str (form_get args "cols" "2") = None -> mosaic_mjpg args p' = Raise ValueError)
  /\ (forall cols, int_of_str (form_get args "cols" "2") = Some cols ->
        exists tids,
          Forall2 (fun c tid => get_accessor c p' = Some tid) chans tids
          /\ mosaic_mjpg args p'
             = Ok (match l with
                   | [] => NotFound "Nenhum canal ativo."
                   | _ => MjpegStream
                            (if String.eqb (form_get args "mode" "row") "grid"
                             then GridOf tids cols th
                             else RowOf tids)
                   end)).
Proof.
  intros _ Hco p' chans.
  destruct (start_streams_ok ip user password st th chs l p Hco)
    as (_ & _ & _ & Hcfg & _ & Hin).
  fold p' in Hcfg, Hin.
  split.
  - intros Hbad. unfold mosaic_mjpg, int_field. rewrite Hbad. reflexivity.
  - intros cols Hcols.
    assert (Hsub : forall c, c ∈ chans -> c ∈ l).
    { intros c Hc. unfold chans in Hc. destruct (String.eqb _ _); [|exact Hc].
      apply list_elem_of_lookup in Hc as [i Hi]. apply lookup_take_Some in Hi as [Hi _].
      apply list_elem_of_lookup. eauto. }
    assert (Hall : forall c, c ∈ chans -> is_Some (StreamState.getters (STATE p') !! c)).
    { intros c Hc. destruct (Hin c (Hsub c Hc)) as (i & _ & -> & _). eauto. }
    exists (omap (fun c => StreamState.getters (STATE p') !! c) chans).
    split; [apply (omap_lookup_all _ chans Hall)|].
    assert (Hm : mosaic_mjpg args p'
                 = Ok (match omap (fun c => StreamState.getters (STATE p') !! c) chans with
                       | [] => NotFound "Nenhum canal ativo."
                       | tids =>
                           if String.eqb (form_get args "mode" "row") "grid"
                           then MjpegStream (GridOf tids cols th)
                           else MjpegStream (RowOf tids)
                       end)).
    { unfold mosaic_mjpg, int_field. rewrite Hcols. cbn [rbind]. rewrite Hcfg.
      cbn [channels target_height]. fold chans.
      destruct (omap _ chans); [reflexivity|].
      destruct (String.eqb (form_get args "mode" "row") "grid"); reflexivity. }
    rewrite Hm.
    pose proof (omap_lookup_all _ chans Hall) as Hf2.
    apply Forall2_length in Hf2.
    destruct l as [|c0 l0].
    + assert (chans = []) as -> by (unfold chans; destruct (String.eqb _ _); reflexivity).
      reflexivity.
    + destruct (omap _ chans) as [|t0 ts] eqn:E.
      * exfalso. unfold chans in Hf2. destruct (String.eqb _ _); cbn in Hf2; lia.
      * destruct (String.eqb (form_get args "mode" "row") "grid"); reflexivity.
Qed.

Lemma mosaic_mjpg_after_start_witness :
  let p' := snd (start_streams "192.168.0.18" "admin" "pw"
                   (PyTuple [PyInt 1; PyInt 2; PyInt 3; PyInt 4; PyInt 5]) 0 360
                   process_init) in
  mosaic_mjpg [("cols", "two")] p' = Raise ValueError
  /\ exists tids,
       length tids = 4%nat
       /\ mosaic_mjpg [("mode", "grid"); ("cols", "2"); ("subset", "first4")] p'
          = Ok (MjpegStream (GridOf tids 2 360)).
Proof.
  intros p'.
  destruct (mosaic_mjpg_after_start "192.168.0.18" "admin" "pw"
              (PyTuple [PyInt 1; PyInt 2; PyInt 3; PyInt 4; PyInt 5]) 0 360 process_init
              [1; 2; 3; 4; 5] [("mode", "grid"); ("cols", "2"); ("subset", "first4")]
              eq_refl eq_refl)
    as [_ Hok].
  destruct (mosaic_mjpg_after_start "192.168.0.18" "admin" "pw"
              (PyTuple [PyInt 1; PyInt 2; PyInt 3; PyInt 4; PyInt 5]) 0 360 process_init
              [1; 2; 3; 4; 5] [("cols", "two")] eq_refl eq_refl) as [Hbad _].
  fold p' in Hok, Hbad.
  split; [apply Hbad; reflexivity|].
  destruct (Hok 2 eq_refl) as (tids & Hf2 & Hrun).
  exists tids. split; [|exact Hrun].
  apply Forall2_length in Hf2. symmetry. exact Hf2.
Defined.

(** X21.  The single-channel route and the [connected] flag after an accepted
    [start_streams] call: a requested channel is streamed from the running
    thread labelled for it, every other channel number is answered 404,
    and the index page shows the system as connected exactly when the
    accepted channel sequence is not empty.  Before any call every channel
    is answered 404 and the flag is off. *)
Theorem channel_mjpg_after_start (c : Call) (l : list Z) (p : Process) (ch : Z) :
  _coerce_channels (c_channels c) = Ok l ->
  let p' := do_call p c in
  (ch ∈ l ->
     exists tid t,
       channel_mjpg ch p' = MjpegStream (Single tid)
       /\ objects p' !! tid = Some t
       /\ CaptureThread.label t = "CH" +:+ pretty ch
       /\ CaptureThread.stop_flag t = false)
  /\ (ch ∉ l ->
       channel_mjpg ch p'
       = NotFound "Canal não está ativo. Vá em Reconfigurar e selecione este canal.")
  /\ (connected p' = true <-> l <> [])
  /\ channel_mjpg ch process_init
     = NotFound "Canal não está ativo. Vá em Reconfigurar e selecione este canal."
  /\ connected process_init = false.
Proof.
  intros Hco p'.
  destruct (registry_after_call c l p Hco) as (Hdom & _ & Hin & Hout).
  fold p' in Hdom, Hin, Hout.
  split; [|split; [|split; [|split; reflexivity]]].
  - intros Hch. destruct (Hin ch Hch) as (tid & t & Hg & _ & Ho & _ & Hs & Hl).
    exists tid, t. unfold channel_mjpg. rewrite Hg. auto.
  - intros Hch. unfold channel_mjpg. rewrite (Hout ch Hch). reflexivity.
  - unfold connected. rewrite negb_true_iff, Nat.eqb_neq, map_size_ne_0_lookup.
    split.
    + intros [k Hk] ->. unfold get_accessor in Hout.
      rewrite (Hout k) in Hk; [destruct Hk; discriminate|]. apply not_elem_of_nil.
    + intros Hne. destruct l as [|k l']; [contradiction|]. exists k.
      destruct (Hin k) as (tid & _ & Hg & _); [left|].
      unfold get_accessor in Hg. rewrite Hg. eauto.
Qed.

Lemma channel_mjpg_after_start_witness :
  let c := {| c_ip := "192.168.0.18"; c_user := "admin"; c_password := "pw";
              c_channels := PyTuple [PyInt 1; PyInt 3]; c_subtype := 0;
              c_target_height := 360 |} in
  (exists tid, channel_mjpg 3 (do_call process_init c) = MjpegStream (Single tid))
  /\ channel_mjpg 2 (do_call process_init c)
     = NotFound "Canal não está ativo. Vá em Reconfigurar e selecione este canal."
  /\ connected (do_call process_init c) = true.
Proof.
  intros c.
  destruct (channel_mjpg_after_start c [1; 3] process_init 3 eq_refl)
    as (Hin & _ & Hconn & _).
  destruct (channel_mjpg_after_start c [1; 3] process_init 2 eq_refl)
    as (_ & Hout & _).
  split; [|split].
  - destruct Hin as (tid & _ & Hr & _); [right; left|]. exists tid. exact Hr.
  - apply Hout. intros H. apply elem_of_cons in H as [H | H]; [discriminate|].
    apply elem_of_cons in H as [H | H]; [discriminate|]. inversion H.
  - apply Hconn. discriminate.
Defined.

(** ** Encoder *)

Lemma Qeq_bool_false_iff (q : Q) : Qeq_bool q 0 = false <-> ~ (q == 0)%Q.
Proof.
  split.
  - intros H E. apply Qeq_bool_iff in E. congruence.
  - intros H. destruct (Qeq_bool q 0) eqn:E; [|reflexivity].
    apply Qeq_bool_iff in E. contradiction.
Qed.

(** X22.  For a rate other than 0 the encoder emits exactly one chunk per turn
    that has a frame and encodes it: a turn without a frame, or one whose
    encoding fails, emits nothing and does not end the stream. *)
Theorem one_chunk_per_encoded_frame (fps : Q) (show_stamp show_fps : bool)
  (jpeg_quality : Z) (t0 : Q) (tks : list Tick) :
  ~ (fps == 0)%Q ->
  length (yield_times (mjpeg_generator fps show_stamp show_fps jpeg_quality t0 tks))
  = length (List.filter tick_emits tks).
Proof.
  intros Hfps. apply Qeq_bool_false_iff in Hfps. unfold mjpeg_generator.
  generalize (mjpeg_enter t0). induction tks as [|tk tks IH]; intros st; [reflexivity|].
  cbn [mjpeg_run List.filter]. unfold tick_emits at 1, mjpeg_iter.
  destruct (tk_frame tk) as [frame|].
  - destruct (tk_ok tk); cbn [negb].
    + rewrite Hfps. cbv zeta. cbn [app yield_times length]. rewrite IH. reflexivity.
    + cbv zeta. cbn [app]. apply IH.
  - cbn [app yield_times]. apply IH.
Qed.

Lemma one_chunk_per_encoded_frame_witness :
  let fr := {| tk_frame := Some (Decoded 1 360 640); tk_stamp := "2024-01-01 00:00:00";
               tk_fetch := 1 # 100; tk_encode := 1 # 100; tk_ok := true;
               tk_consume := 0 |} in
  let bad := {| tk_frame := Some (Decoded 1 360 640); tk_stamp := "2024-01-01 00:00:00";
                tk_fetch := 1 # 100; tk_encode := 1 # 100; tk_ok := false;
                tk_consume := 0 |} in
  let gap := {| tk_frame := None; tk_stamp := ""; tk_fetch := 0; tk_encode := 0;
                tk_ok := true; tk_consume := 0 |} in
  length (yield_times (mjpeg_generator 12 true true 80 1000 [gap; fr; bad; fr; gap; fr]))
  = 3%nat.
Proof.
  intros fr bad gap.
  rewrite (one_chunk_per_encoded_frame 12 true true 80 1000); [reflexivity|].
  intros H. discriminate H.
Defined.

(** X23.  With a rate of 0 the stream dies after its first chunk: the chunk is
    emitted, then the division for the pacing sleep raises, so no run
    emits more than one chunk. *)
Theorem zero_rate_emits_one_chunk (fps : Q) (show_stamp show_fps : bool)
  (jpeg_quality : Z) (t0 : Q) (tks : list Tick) :
  (fps == 0)%Q ->
  length (yield_times (mjpeg_generator fps show_stamp show_fps jpeg_quality t0 tks))
  = Nat.min 1 (length (List.filter tick_emits tks))
  /\ forall tk st frame, tk_frame tk = Some frame -> tk_ok tk = true ->
       snd (mjpeg_iter fps show_stamp show_fps jpeg_quality tk st) = Raise ZeroDivisionError.
Proof.
  intros Hfps. apply Qeq_bool_iff in Hfps. split.
  - unfold mjpeg_generator.
    generalize (mjpeg_enter t0). induction tks as [|tk tks IH]; intros st; [reflexivity|].
    cbn [mjpeg_run List.filter]. unfold tick_emits at 1, mjpeg_iter.
    destruct (tk_frame tk) as [frame|].
    + destruct (tk_ok tk); cbn [negb].
      * rewrite Hfps. cbv zeta. cbn [yield_times length]. lia.
      * cbv zeta. cbn [app]. apply IH.
    + cbn [app yield_times]. apply IH.
  - intros tk st frame Hfr Hok. unfold mjpeg_iter. rewrite Hfr, Hok. cbn [negb].
    rewrite Hfps. reflexivity.
Qed.

Lemma zero_rate_emits_one_chunk_witness :
  let fr := {| tk_frame := Some (Decoded 1 360 640); tk_stamp := "2024-01-01 00:00:00";
               tk_fetch := 1 # 100; tk_encode := 1 # 100; tk_ok := true;
               tk_consume := 0 |} in
  length (yield_times (mjpeg_generator 0 true true 80 1000 [fr; fr; fr])) = 1%nat.
Proof.
  intros fr.
  destruct (zero_rate_emits_one_chunk 0 true true 80 1000 [fr; fr; fr]) as [H _];
    [reflexivity | exact H].
Defined.

(** X24.  A negative rate switches the pacing off: an emitting turn sleeps for
    0 seconds, so the next turn starts as soon as the consumer took the
    chunk. *)
Theorem negative_rate_does_not_pace (fps : Q) (show_stamp show_fps : bool)
  (jpeg_quality : Z) (tk : Tick) (st : GenState) (frame : Image) :
  (fps < 0)%Q -> tk_frame tk = Some frame -> tk_ok tk = true ->
  exists chunk d st',
    mjpeg_iter fps show_stamp show_fps jpeg_quality tk st
    = ([GYield (g_clock st + tk_fetch tk + tk_encode tk) chunk; GSleep d], Ok st')
    /\ (d == 0)%Q
    /\ (g_clock st' == g_clock st + elapsed tk + tk_consume tk)%Q.
Proof.
  intros Hfps Hfr Hok. unfold mjpeg_iter. rewrite Hfr, Hok. cbn [negb].
  assert (Hne : Qeq_bool fps 0 = false).
  { apply Qeq_bool_false_iff. intros E. rewrite E in Hfps. discriminate Hfps. }
  rewrite Hne. cbv zeta.
  assert (Hinv : (1 / fps < 0)%Q).
  { unfold Qdiv. rewrite Qmult_1_l.
    destruct fps as [[|n|n] d]; try discriminate Hfps. reflexivity. }
  assert (Hmax : (Qmax 0 (1 / fps) == 0)%Q) by (apply Q.max_l; lra).
  eexists. eexists. eexists. split; [reflexivity|]. split; [exact Hmax|].
  cbn [g_clock]. unfold elapsed. rewrite Hmax. lra.
Qed.

Lemma negative_rate_does_not_pace_witness :
  let tk := {| tk_frame := Some (Decoded 1 360 640); tk_stamp := "2024-01-01 00:00:00";
               tk_fetch := 1 # 100; tk_encode := 2 # 100; tk_ok := true;
               tk_consume := 0 |} in
  exists chunk d st',
    mjpeg_iter (-12) true true 80 tk (mjpeg_enter 1000)
    = ([GYield (1000 + (1 # 100) + (2 # 100)) chunk; GSleep d], Ok st')
    /\ (d == 0)%Q.
Proof.
  intros tk.
  destruct (negative_rate_does_not_pace (-12) true true 80 tk (mjpeg_enter 1000)
              (Decoded 1 360 640)) as (chunk & d & st' & Hrun & Hd & _);
    [reflexivity | reflexivity | reflexivity |].
  exists chunk, d, st'. split; [exact Hrun | exact Hd].
Defined.

(** The instantaneous rate computed from any interval is positive and at
    most one million. *)
Lemma inst_rate_bounds (dt : Q) :
  (0 < 1 / Qmax (1 # 1000000) dt /\ 1 / Qmax (1 # 1000000) dt <= 1000000)%Q.
Proof.
  assert (Hm : (1 # 1000000 <= Qmax (1 # 1000000) dt)%Q) by apply Q.le_max_l.
  assert (Hpos : (0 < Qmax (1 # 1000000) dt)%Q) by lra.
  split.
  - unfold Qdiv. rewrite Qmult_1_l. apply Qinv_lt_0_compat. exact Hpos.
  - apply Qle_shift_div_r; [exact Hpos | lra].
Qed.

(** X25.  The smoothed rate shown in the overlay stays in range: if the
    estimate lies between 0 and one million before a turn, then after a
    turn that has a frame it is positive and at most one million, and a
    turn without a frame leaves it unchanged. *)
Theorem fps_estimate_stays_in_range (fps : Q) (show_stamp show_fps : bool)
  (jpeg_quality : Z) (tk : Tick) (st st' : GenState) :
  (0 <= g_ema st /\ g_ema st <= 1000000)%Q ->
  snd (mjpeg_iter fps show_stamp show_fps jpeg_quality tk st) = Ok st' ->
  match tk_frame tk with
  | Some _ => (0 < g_ema st' /\ g_ema st' <= 1000000)%Q
  | None => g_ema st' = g_ema st /\ g_last st' = g_last st
  end.
Proof.
  intros [Hlo Hhi] Hrun. unfold mjpeg_iter in Hrun.
  destruct (tk_frame tk) as [frame|].
  - cbv zeta in Hrun.
    destruct (inst_rate_bounds (g_clock st + tk_fetch tk - g_last st)) as [Hi1 Hi2].
    set (inst := (1 / Qmax (1 # 1000000) (g_clock st + tk_fetch tk - g_last st))%Q) in *.
    assert (Hema : (0 < (if Qlt_le_dec 0 (g_ema st)
                         then (1 - alpha) * g_ema st + alpha * inst else inst)
                    /\ (if Qlt_le_dec 0 (g_ema st)
                        then (1 - alpha) * g_ema st + alpha * inst else inst) <= 1000000)%Q).
    { destruct (Qlt_le_dec 0 (g_ema st)); [|split; assumption].
      unfold alpha. split; lra. }
    destruct (negb (tk_ok tk)); cbn [snd] in Hrun.
    + injection Hrun as <-. exact Hema.
    + destruct (Qeq_bool fps 0); cbn [snd] in Hrun; [discriminate|].
      injection Hrun as <-. exact Hema.
  - cbn [snd] in Hrun. injection Hrun as <-. split; reflexivity.
Qed.

Lemma fps_estimate_stays_in_range_witness :
  let tk := {| tk_frame := Some (Decoded 1 360 640); tk_stamp := "2024-01-01 00:00:00";
               tk_fetch := 0; tk_encode := 0; tk_ok := true; tk_consume := 0 |} in
  exists st',
    snd (mjpeg_iter 12 true true 80 tk (mjpeg_enter 1000)) = Ok st'
    /\ (0 < g_ema st' /\ g_ema st' <= 1000000)%Q.
Proof.
  intros tk. eexists. split; [reflexivity|].
  apply (fps_estimate_stays_in_range 12 true true 80 tk (mjpeg_enter 1000));
    [split; discriminate | reflexivity].
Defined.

Lemma paced_span (d : Q) (ts : list Q) :
  forall t1 tn : Q,
    paced d (t1 :: ts) -> last (t1 :: ts) = Some tn ->
    (inject_Z (Z.of_nat (length ts)) * d <= tn - t1)%Q.
Proof.
  induction ts as [|t2 ts IH]; intros t1 tn Hp Hl.
  - cbn in Hl. injection Hl as <-.
    change (inject_Z (Z.of_nat (length (@nil Q)))) with 0%Q. lra.
  - cbn [paced] in Hp. destruct Hp as [H12 Hp].
    change (last (t1 :: t2 :: ts)) with (last (t2 :: ts)) in Hl.
    specialize (IH t2 tn Hp Hl). cbn [length].
    pose proof (inject_S_mul (length ts) d) as Hs. lra.
Qed.

(** X26.  The rate is a ceiling over any stretch of the stream: for a positive
    rate, when [n + 1] chunks were emitted, the last one came at least
    [n / fps] seconds after the first. *)
Theorem chunks_need_their_time (fps : Q) (show_stamp show_fps : bool)
  (jpeg_quality : Z) (t0 : Q) (tks : list Tick) (t1 tn : Q) (rest : list Q) :
  (0 < fps)%Q -> Forall tick_nonneg tks ->
  yield_times (mjpeg_generator fps show_stamp show_fps jpeg_quality t0 tks) = t1 :: rest ->
  last (t1 :: rest) = Some tn ->
  (inject_Z (Z.of_nat (length rest)) * (1 / fps) <= tn - t1 /\ t0 <= t1)%Q.
Proof.
  intros Hfps Hnn Hts Hlast.
  destruct (mjpeg_run_paced fps show_stamp show_fps jpeg_quality tks Hfps (mjpeg_enter t0) Hnn)
    as [Hge Hp].
  unfold mjpeg_generator in Hts. rewrite Hts in Hge, Hp.
  split; [exact (paced_span (1 / fps) rest t1 tn Hp Hlast)|].
  apply Forall_cons in Hge as [H _]. exact H.
Qed.

Lemma chunks_need_their_time_witness :
  let tk := {| tk_frame := Some (Decoded 1 360 640); tk_stamp := "2024-01-01 00:00:00";
               tk_fetch := 0; tk_encode := 0; tk_ok := true; tk_consume := 0 |} in
  exists t1 tn rest,
    yield_times (mjpeg_generator 12 true true 80 1000 [tk; tk; tk; tk]) = t1 :: rest
    /\ last (t1 :: rest) = Some tn
    /\ length rest = 3%nat
    /\ (inject_Z (Z.of_nat (length rest)) * (1 / 12) <= tn - t1)%Q.
Proof.
  intros tk. eexists. eexists. eexists.
  split; [vm_compute; reflexivity|]. split; [reflexivity|]. split; [reflexivity|].
  apply (chunks_need_their_time 12 true true 80 1000 [tk; tk; tk; tk]).
  - reflexivity.
  - repeat constructor; cbn; discriminate.
  - vm_compute. reflexivity.
  - reflexivity.
Defined.
